(** * Order service: a shallow embedding of the order lifecycle code

    The development follows the TypeScript sources of the order service:

    - [src/controllers/OrderController.ts]  (module [OrderController]),
    - [src/services/DatabaseService.ts]     (modules [DatabaseService] and
      [Connection]),
    - [src/services/ServiceBusService.ts]   (modules [ServiceBusService]
      and [ServiceBusConnection]),
    - [src/middleware/errorHandler.ts]      (module [Middleware]),
    - [src/middleware/auth.ts]              (module [Auth]),
    - [src/config/config.ts]                (module [Config]),
    - [src/server.ts]                       (module [Server]),
    - [src/utils/errors.ts]                 (module [Errors]).

    JavaScript numbers are IEEE-754 binary64 values: they are embedded as
    the kernel's primitive floats, whose operations round exactly as the
    JavaScript ones do.  The SQL tables are lists of rows, with the
    constraints of the CREATE TABLE statements checked on insertion.
    Everything the handlers take from their environment (the clock, the
    random generators, the behaviour of the message broker) is an explicit
    input, gathered in the record [Env]; so are the answers of Key Vault,
    of the database driver and of the token library where the service
    starts and authenticates. *)

From Stdlib Require Import Floats QArith Ascii.
From stdpp Require Import gmap.
From stdpp Require Import base tactics option list strings numbers pretty sorting.

Set Warnings "-inexact-float".
Open Scope Z_scope.

(** ** JavaScript values *)

Module JS.

(** [number] is the JavaScript number type. *)
Abbreviation number := float.

(** [!s] for a value of type [string | undefined]: the empty string and
    [undefined] are the two falsy values. *)
Definition falsy (s : option string) : bool :=
  match s with
  | None => true
  | Some s => bool_decide (s = "")
  end.

(** [String.prototype.includes]. *)
Definition includes (s sub : string) : bool :=
  match String.index 0 sub s with
  | Some _ => true
  | None => false
  end.

(** [Array.prototype.includes] on an array of strings. *)
Definition arrayIncludes (l : list string) (x : string) : bool :=
  bool_decide (x ∈ l).

(** [Array.prototype.reduce] with an initial value. *)
Definition reduce {A B : Type} (f : B → A → B) (init : B) (l : list A) : B :=
  fold_left f l init.

(** [Math.ceil (a / b)] for integers [a] and [b > 0]. *)
Definition ceilDiv (a b : Z) : Z := - ((- a) `div` b).

(** The exact rational value of a finite number. *)
Definition exact (x : number) : option Q :=
  match Prim2SF x with
  | S754_zero _ => Some 0%Q
  | S754_finite s m e =>
      Some ((if s then -1 else 1) * inject_Z (Z.pos m) * Qpower 2 e)%Q
  | _ => None
  end.

(** A number with no fractional part (Joi's [integer] rule tests
    [Math.trunc(value) - value === 0]). *)
Definition isInteger (x : number) : bool :=
  match Prim2SF x with
  | S754_zero _ => true
  | S754_finite _ m e =>
      if bool_decide (0 ≤ e) then true
      else bool_decide (Z.pos m `mod` 2 ^ (- e) = 0)
  | _ => false
  end.

(** The integer part of a finite number (0 for the others). *)
Definition toZ (x : number) : Z :=
  match Prim2SF x with
  | S754_finite s m e =>
      let v := if bool_decide (0 ≤ e) then Z.pos m * 2 ^ e else Z.pos m `div` 2 ^ (- e) in
      if s then - v else v
  | _ => 0
  end.

(** The number of an integer (exact up to 2^53 in magnitude). *)
Definition ofZ (z : Z) : number :=
  if bool_decide (z < 0) then (- PrimFloat.of_uint63 (Uint63.of_Z (- z)))%float
  else PrimFloat.of_uint63 (Uint63.of_Z z).

(** Strings are embedded by their UTF-8 encoding; [s.length] counts UTF-16
    code units: one for each character of the basic plane, two for each
    of the others (whose encoding starts with a byte of 240 or more). *)
Definition units (c : ascii) : nat :=
  let n := nat_of_ascii c in
  if bool_decide (n < 128)%nat then 1%nat
  else if bool_decide (n < 192)%nat then 0%nat
  else if bool_decide (n < 240)%nat then 1%nat
  else 2%nat.

Fixpoint length (s : string) : nat :=
  match s with
  | EmptyString => 0%nat
  | String c s' => (units c + length s')%nat
  end.

(** The double quote, and a label as Joi prints it in its messages. *)
Definition quote : string := String "034"%char "".

Definition label (key : string) : string := quote +:+ key +:+ quote.

(** [Number.MAX_SAFE_INTEGER], 2^53 - 1. *)
Definition MAX_SAFE_INTEGER : number := 9007199254740991%float.

(** Joi's [number] accepts finite values whose magnitude is at most
    [MAX_SAFE_INTEGER]. *)
Definition isSafe (x : number) : bool :=
  PrimFloat.leb (PrimFloat.abs x) MAX_SAFE_INTEGER.

End JS.

(** ** Errors (src/utils/errors.ts) *)

Module Errors.

(** The classes the handlers throw, and [PlainError] for every error that
    is not an instance of one of them (driver and broker errors). *)
Inductive ErrorClass : Set :=
  | ValidationError
  | BadRequestError
  | NotFoundError
  | PlainError.

#[export] Instance ErrorClass_eq_dec : EqDecision ErrorClass.
Proof. solve_decision. Defined.

Record JsError : Set := mkJsError {
  errorClass : ErrorClass;
  name : string;
  message : string;
  hasDetails : bool;
  statusCode : option Z
}.

(** [new ValidationError(message)]: status code 400. *)
Definition newValidationError (msg : string) : JsError :=
  mkJsError ValidationError "Error" msg true (Some 400).

(** [new BadRequestError(message)]: status code 400. *)
Definition newBadRequestError (msg : string) : JsError :=
  mkJsError BadRequestError "Error" msg true (Some 400).

(** [new NotFoundError(message)]: status code 404. *)
Definition newNotFoundError (msg : string) : JsError :=
  mkJsError NotFoundError "Error" msg true (Some 404).

(** [new Error(message)]. *)
Definition newError (msg : string) : JsError :=
  mkJsError PlainError "Error" msg false None.

(** The other subclasses of [BaseError].  No constructor sets [name], so
    it is the inherited "Error"; [details] is assigned in every one of
    them. *)
Definition newBaseError (msg : string) (code : Z) : JsError :=
  mkJsError PlainError "Error" msg true (Some code).

Definition newUnauthorizedError (msg : string) : JsError := newBaseError msg 401.
Definition newForbiddenError (msg : string) : JsError := newBaseError msg 403.
Definition newConflictError (msg : string) : JsError := newBaseError msg 409.
Definition newInternalServerError (msg : string) : JsError := newBaseError msg 500.
Definition newServiceUnavailableError (msg : string) : JsError := newBaseError msg 503.
Definition newDatabaseError (msg : string) : JsError := newBaseError msg 500.
Definition newServiceBusError (msg : string) : JsError := newBaseError msg 503.

(** [`${error}`]: [Error.prototype.toString]. *)
Definition toString (e : JsError) : string :=
  if bool_decide (name e = "") then message e
  else if bool_decide (message e = "") then name e
  else name e +:+ ": " +:+ message e.

End Errors.
Export Errors.

(** ** The order store (src/services/DatabaseService.ts) *)

Module DatabaseService.

Inductive OrderStatus : Set :=
  | pending
  | processing
  | shipped
  | delivered
  | cancelled.

#[export] Instance OrderStatus_eq_dec : EqDecision OrderStatus.
Proof. solve_decision. Defined.

(** [interface OrderItem]. *)
Record OrderItem : Set := mkOrderItem {
  item_id : string;
  orderId : string;
  productId : string;
  productName : string;
  quantity : JS.number;
  unitPrice : JS.number;
  totalPrice : JS.number
}.

(** A row of the table Orders: the fields of [interface Order] other than
    [orderItems]. *)
Record OrderRow : Set := mkOrderRow {
  id : string;
  customerId : string;
  customerEmail : string;
  orderNumber : string;
  status : OrderStatus;
  totalAmount : JS.number;
  currency : string;
  shippingAddress : string;
  billingAddress : string;
  createdAt : Z;
  updatedAt : Z
}.

(** [interface Order]: a row together with its items. *)
Record Order : Set := mkOrder {
  order_row :> OrderRow;
  orderItems : list OrderItem
}.

(** [Omit<Order, 'id' | 'createdAt' | 'updatedAt'>], the argument of
    [createOrder]. *)
Record NewOrder : Set := mkNewOrder {
  new_customerId : string;
  new_customerEmail : string;
  new_orderNumber : string;
  new_status : OrderStatus;
  new_totalAmount : JS.number;
  new_currency : string;
  new_shippingAddress : string;
  new_billingAddress : string;
  new_orderItems : list OrderItem
}.

(** The state of the service: the connection pool ([this.pool] is [null]
    until [initialize] has run) with its [connected] flag, and the two
    tables created by [initializeSchema], rows in insertion order. *)
Record DB : Set := mkDB {
  pool : bool;
  connected : bool;
  Orders : list OrderRow;
  OrderItems : list OrderItem
}.

(** The state after [initialize]: connected, both tables empty. *)
Definition initialized : DB := mkDB true true [] [].

(** The types of the numeric query parameters: [sql.Int] and
    [sql.Decimal(precision, scale)]. *)
Inductive SqlType : Set :=
  | Int
  | Decimal (precision scale : nat).

(** What the model takes from the driver and from the server, neither of
    which is part of the repository:
    - the binding of a JavaScript number to a typed query parameter, read
      back from the column: the value the column then holds, or [None]
      when the driver or the server rejects the number;
    - whether the driver takes a string for a [sql.UniqueIdentifier]
      parameter; an id stands for the GUID it spells, written as the server
      returns it (another spelling of the same GUID in a request is not
      modelled);
    - the collation of the NVARCHAR columns, as a key: two strings are equal
      to the server when their keys are equal (data-services.bicep declares
      a case-insensitive collation);
    - the order in which the server returns item rows when the query has no
      ORDER BY: by this rank, rows of equal rank in insertion order. *)
Record SqlInput : Type := mkSqlInput {
  bind :> SqlType → JS.number → option JS.number;
  uniqueIdentifier : string → bool;
  collation : string → string;
  scanOrder : OrderItem → Z
}.

(** What the driver and the server answer. *)
Definition poolNotInitialized : JsError := newError "Database pool not initialized".

Definition connectionError : JsError :=
  mkJsError PlainError "ConnectionError" "Connection is closed." false None.

Definition primaryKeyViolation : JsError :=
  mkJsError PlainError "RequestError"
    "Violation of PRIMARY KEY constraint. Cannot insert duplicate key." false None.

Definition uniqueKeyViolation : JsError :=
  mkJsError PlainError "RequestError"
    "Violation of UNIQUE KEY constraint. Cannot insert duplicate key in object 'dbo.Orders'."
    false None.

Definition invalidParameter : JsError :=
  mkJsError PlainError "RequestError" "Validation failed for parameter. Invalid number." false None.

Definition invalidGuid : JsError :=
  mkJsError PlainError "RequestError" "Validation failed for parameter. Invalid GUID." false None.

Definition truncated : JsError :=
  mkJsError PlainError "RequestError" "String or binary data would be truncated." false None.

Definition invalidOffsetFetch : JsError :=
  mkJsError PlainError "RequestError"
    "The offset specified in a OFFSET clause may not be negative, and the number of rows of a FETCH clause must be greater than zero."
    false None.

(** What one call of the service meets at the server: [NEWID()] for the
    k-th row the call inserts, [GETUTCDATE()], the order in which the rows
    of equal [createdAt] come out of [ORDER BY createdAt] in this call, and
    the error, if any, with which [transaction.rollback()] is refused. *)
Record Clock : Set := mkClock {
  NEWID : nat → string;
  GETUTCDATE : Z;
  tieOrder : OrderRow → Z;
  rollback : option JsError
}.

(** [ORDER BY createdAt DESC]. *)
Definition newerFirst (a b : OrderRow) : Prop := createdAt b ≤ createdAt a.

#[export] Instance newerFirst_dec a b : Decision (newerFirst a b).
Proof. unfold newerFirst. apply _. Defined.

(** The order of the rows of one query under [ORDER BY createdAt DESC]. *)
Definition orderedBy (clk : Clock) (a b : OrderRow) : Prop :=
  createdAt b < createdAt a ∨ (createdAt a = createdAt b ∧ tieOrder clk a ≤ tieOrder clk b).

#[export] Instance orderedBy_dec clk a b : Decision (orderedBy clk a b).
Proof. unfold orderedBy. apply _. Defined.

(** A string fits a column NVARCHAR(n): at most n UTF-16 code units. *)
Definition fits (n : nat) (s : string) : bool := bool_decide (JS.length s ≤ n)%nat.

(** Two strings that the server takes for equal in an NVARCHAR column. *)
Definition sameText (sqlInput : SqlInput) (a b : string) : Prop :=
  collation sqlInput a = collation sqlInput b.

#[export] Instance sameText_dec sqlInput a b : Decision (sameText sqlInput a b).
Proof. unfold sameText. apply _. Defined.

(** The order of item rows in a query without ORDER BY. *)
Definition scannedBefore (sqlInput : SqlInput) (a b : OrderItem) : Prop :=
  scanOrder sqlInput a ≤ scanOrder sqlInput b.

#[export] Instance scannedBefore_dec sqlInput a b : Decision (scannedBefore sqlInput a b).
Proof. unfold scannedBefore. apply _. Defined.

Section Store.

Variable sqlInput : SqlInput.

(** Item rows as a query without ORDER BY returns them. *)
Definition scan (items : list OrderItem) : list OrderItem :=
  merge_sort (scannedBefore sqlInput) items.

(** [INSERT INTO Orders (...) OUTPUT INSERTED.*]: [id] defaults to
    [NEWID()], [createdAt] and [updatedAt] to [GETUTCDATE()]; the columns
    are NVARCHAR(255), NVARCHAR(50) for the order number and NVARCHAR(3)
    for the currency (a status always fits its column); [id] is the
    primary key and [orderNumber] is UNIQUE. *)
Definition insertOrder (clk : Clock) (order : NewOrder) (tbl : list OrderRow)
  : JsError + (OrderRow * list OrderRow) :=
  match sqlInput (Decimal 10 2) (new_totalAmount order) with
  | None => inl invalidParameter
  | Some total =>
      let row := {|
        id := NEWID clk 0;
        customerId := new_customerId order;
        customerEmail := new_customerEmail order;
        orderNumber := new_orderNumber order;
        status := new_status order;
        totalAmount := total;
        currency := new_currency order;
        shippingAddress := new_shippingAddress order;
        billingAddress := new_billingAddress order;
        createdAt := GETUTCDATE clk;
        updatedAt := GETUTCDATE clk
      |} in
      if negb (fits 255 (customerId row) && fits 255 (customerEmail row)
               && fits 50 (orderNumber row) && fits 3 (currency row)) then inl truncated
      else if bool_decide (id row ∈ id <$> tbl) then inl primaryKeyViolation
      else if bool_decide (Exists (λ o, sameText sqlInput (orderNumber o) (orderNumber row)) tbl)
      then
        inl uniqueKeyViolation
      else inr (row, tbl ++ [row])
  end.

(** [INSERT INTO OrderItems (orderId, productId, productName, quantity,
    unitPrice, totalPrice)]: the row's [id] defaults to [NEWID()] (the id
    the caller put in the item is not sent); [productId] and [productName]
    are NVARCHAR(255). *)
Definition insertItem (clk : Clock) (k : nat) (createdId : string) (item : OrderItem)
    (tbl : list OrderItem) : JsError + list OrderItem :=
  if negb (uniqueIdentifier sqlInput createdId) then inl invalidGuid
  else
    match sqlInput Int (quantity item),
          sqlInput (Decimal 10 2) (unitPrice item),
          sqlInput (Decimal 10 2) (totalPrice item) with
    | Some q, Some up, Some tp =>
        let row := {|
          item_id := NEWID clk k;
          orderId := createdId;
          productId := productId item;
          productName := productName item;
          quantity := q;
          unitPrice := up;
          totalPrice := tp
        |} in
        if negb (fits 255 (productId row) && fits 255 (productName row)) then inl truncated
        else if bool_decide (item_id row ∈ item_id <$> tbl) then inl primaryKeyViolation
        else inr (tbl ++ [row])
    | _, _, _ => inl invalidParameter
    end.

(** [for (const item of order.orderItems) { ... }]: the k-th insert of the
    transaction takes [NEWID clk k]. *)
Fixpoint insertItems (clk : Clock) (k : nat) (createdId : string) (items : list OrderItem)
    (tbl : list OrderItem) : JsError + list OrderItem :=
  match items with
  | [] => inr tbl
  | item :: rest =>
      match insertItem clk k createdId item tbl with
      | inl e => inl e
      | inr tbl' => insertItems clk (S k) createdId rest tbl'
      end
  end.

(** A row of [SELECT o.*, oi.id as item_id, ... FROM Orders o LEFT JOIN
    OrderItems oi ON o.id = oi.orderId]: the item columns are NULL for an
    order without items. *)
Record JoinedRow : Set := mkJoinedRow {
  row_order : OrderRow;
  row_item : option OrderItem
}.

Definition leftJoinItems (items : list OrderItem) (o : OrderRow) : list JoinedRow :=
  match scan (filter (λ oi, orderId oi = id o) items) with
  | [] => [mkJoinedRow o None]
  | matching => mkJoinedRow o ∘ Some <$> matching
  end.

(** The record set of the query of [getOrderById]. *)
Definition selectOrderWithItems (db : DB) (wanted : string) : list JoinedRow :=
  filter (λ o, id o = wanted) (Orders db) ≫= leftJoinItems (OrderItems db).

(** [recordset.filter(row => row.item_id).map(row => ({ id: row.item_id,
    orderId: row.id, ... }))]: an item's [orderId] is read from the order
    columns of its row. *)
Definition itemOfRow (r : JoinedRow) : option OrderItem :=
  oi ← row_item r;
  Some {|
    item_id := item_id oi;
    orderId := id (row_order r);
    productId := productId oi;
    productName := productName oi;
    quantity := quantity oi;
    unitPrice := unitPrice oi;
    totalPrice := totalPrice oi
  |}.

(** [getOrderById]: [null] (here [None]) when no row matches.  A pool
    that is not connected and an id that is no GUID make the query throw. *)
Definition getOrderById (wanted : string) (db : DB) : JsError + option Order :=
  if negb (pool db) then inl poolNotInitialized
  else if negb (connected db) then inl connectionError
  else if negb (uniqueIdentifier sqlInput wanted) then inl invalidGuid
  else
    match selectOrderWithItems db wanted with
    | [] => inr None
    | (first :: _) as recordset =>
        inr (Some (mkOrder (row_order first) (omap itemOfRow recordset)))
    end.

(** [catch (error) { await transaction.rollback(); throw error; }]: when
    the rollback is refused, its error is the one thrown. *)
Definition rolledBack (clk : Clock) (error : JsError) : JsError :=
  default error (rollback clk).

(** [createOrder]: one transaction for the order row and its item rows; a
    failure before the commit leaves the tables as they were.  The created
    order is read back after the commit, inside the same [try]: when that
    fails the order is stored and the call throws all the same. *)
Definition createOrder (clk : Clock) (order : NewOrder) (db : DB)
  : (JsError + option Order) * DB :=
  if negb (pool db) then (inl poolNotInitialized, db)
  else if negb (connected db) then (inl (rolledBack clk connectionError), db)
  else
    match insertOrder clk order (Orders db) with
    | inl e => (inl (rolledBack clk e), db)
    | inr (createdOrder, orders') =>
        match insertItems clk 1 (id createdOrder) (new_orderItems order) (OrderItems db) with
        | inl e => (inl (rolledBack clk e), db)
        | inr items' =>
            let db' := mkDB (pool db) (connected db) orders' items' in
            match getOrderById (id createdOrder) db' with
            | inl e => (inl (rolledBack clk e), db')
            | inr completeOrder => (inr completeOrder, db')
            end
        end
    end.

(** [SELECT * FROM OrderItems WHERE orderId = @orderId], mapped to items;
    [orderId] is bound as [sql.UniqueIdentifier]. *)
Definition selectItems (db : DB) (wanted : string) : JsError + list OrderItem :=
  if negb (uniqueIdentifier sqlInput wanted) then inl invalidGuid
  else inr (scan (filter (λ oi, orderId oi = wanted) (OrderItems db))).

(** [for (const orderData of ordersResult.recordset) { ... }]. *)
Fixpoint withItems (db : DB) (rows : list OrderRow) : JsError + list Order :=
  match rows with
  | [] => inr []
  | row :: rest =>
      match selectItems db (id row) with
      | inl e => inl e
      | inr items =>
          match withItems db rest with
          | inl e => inl e
          | inr orders => inr (mkOrder row items :: orders)
          end
      end
  end.

(** [getOrdersByCustomer]: a page of the customer's orders, newest first,
    each with its items, and the number of the customer's orders.  The
    offset [(page - 1) * pageSize] is computed on JavaScript numbers and,
    as the page size, bound as [sql.Int]; the customer id is compared under
    the collation of its column. *)
Definition getOrdersByCustomer (clk : Clock) (customer : string) (page pageSize : JS.number)
    (db : DB) : JsError + (list Order * Z) :=
  if negb (pool db) then inl poolNotInitialized
  else if negb (connected db) then inl connectionError
  else
    match sqlInput Int ((page - 1) * pageSize)%float, sqlInput Int pageSize with
    | Some offset, Some fetch =>
        if bool_decide (JS.toZ offset < 0 ∨ JS.toZ fetch ≤ 0) then inl invalidOffsetFetch
        else
          let matching :=
            filter (λ o, sameText sqlInput (customerId o) customer) (Orders db) in
          let ordersResult :=
            take (Z.to_nat (JS.toZ fetch))
              (drop (Z.to_nat (JS.toZ offset)) (merge_sort (orderedBy clk) matching)) in
          let totalCount := Z.of_nat (length matching) in
          match withItems db ordersResult with
          | inl e => inl e
          | inr orders => inr (orders, totalCount)
          end
    | _, _ => inl invalidParameter
    end.

(** [UPDATE Orders SET status = @status, updatedAt = GETUTCDATE() WHERE
    id = @orderId]. *)
Definition setStatus (clk : Clock) (wanted : string) (s : OrderStatus) (o : OrderRow) : OrderRow :=
  if bool_decide (id o = wanted) then
    {|
      id := id o;
      customerId := customerId o;
      customerEmail := customerEmail o;
      orderNumber := orderNumber o;
      status := s;
      totalAmount := totalAmount o;
      currency := currency o;
      shippingAddress := shippingAddress o;
      billingAddress := billingAddress o;
      createdAt := createdAt o;
      updatedAt := GETUTCDATE clk
    |}
  else o.

(** [updateOrderStatus]: the update, then the order read back. *)
Definition updateOrderStatus (clk : Clock) (wanted : string) (s : OrderStatus) (db : DB)
  : (JsError + option Order) * DB :=
  if negb (pool db) then (inl poolNotInitialized, db)
  else if negb (connected db) then (inl connectionError, db)
  else if negb (uniqueIdentifier sqlInput wanted) then (inl invalidGuid, db)
  else
    let db' :=
      mkDB (pool db) (connected db) (setStatus clk wanted s <$> Orders db) (OrderItems db) in
    (getOrderById wanted db', db').

End Store.

End DatabaseService.

(** ** The event notifier (src/services/ServiceBusService.ts) *)

Module ServiceBusService.

(** [interface OrderEvent]. *)
Record OrderEvent : Set := mkOrderEvent {
  ev_orderId : string;
  ev_customerId : string;
  ev_orderNumber : string;
  ev_totalAmount : option JS.number;
  ev_currency : option string;
  ev_oldStatus : option string;
  ev_newStatus : option DatabaseService.OrderStatus;
  ev_timestamp : Z
}.

(** The message handed to the topic sender. *)
Record Message : Set := mkMessage {
  subject : string;
  data : OrderEvent;
  correlationId : string;
  timeToLive : Z
}.

(** [publishOrderEvent]: [sendMessages] tells whether the broker accepts
    the message ([None]) or the call throws (lazy initialisation included);
    the error is logged and thrown again. *)
Definition publishOrderEvent (sendMessages : option JsError) (eventType : string)
    (eventData : OrderEvent) (topic : list Message) : (JsError + unit) * list Message :=
  match sendMessages with
  | Some e => (inl e, topic)
  | None =>
      let message := {|
        subject := eventType;
        data := eventData;
        correlationId := ev_orderId eventData;
        timeToLive := 24 * 60 * 60 * 1000
      |} in
      (inr (), topic ++ [message])
  end.

End ServiceBusService.

(** ** The error handler (src/middleware/errorHandler.ts) *)

Module Middleware.

(** What [res.json] is given.  The error envelope keeps [error] and
    [message]; its [timestamp], [path] and [requestId] repeat the request
    and are left out. *)
Inductive Body : Set :=
  | OrderJson (order : option DatabaseService.Order)
  | OrdersJson (orders : list DatabaseService.Order) (page pageSize totalCount totalPages : Z)
  | ErrorJson (error message : string).

(** [res.status(code).json(body)]. *)
Record Response : Set := mkResponse {
  httpStatus : Z;
  json : Body
}.

(** [errorHandler]: the first matching case answers. *)
Definition errorHandler (production : bool) (error : JsError) : Response :=
  if bool_decide (errorClass error = ValidationError) then
    mkResponse 400 (ErrorJson "Validation Error" (message error))
  else if bool_decide (errorClass error = BadRequestError) then
    mkResponse 400 (ErrorJson "Bad Request" (message error))
  else if bool_decide (errorClass error = NotFoundError) then
    mkResponse 404 (ErrorJson "Not Found" (message error))
  else if bool_decide (name error = "JsonWebTokenError") then
    mkResponse 401 (ErrorJson "Unauthorized" "Invalid token")
  else if bool_decide (name error = "TokenExpiredError") then
    mkResponse 401 (ErrorJson "Unauthorized" "Token expired")
  else if bool_decide (name error = "ConnectionError") then
    mkResponse 503 (ErrorJson "Service Unavailable" "Database connection failed")
  else if JS.includes (message error) "UNIQUE KEY constraint" then
    mkResponse 409 (ErrorJson "Conflict" "Resource already exists")
  else if bool_decide (name error = "ServiceBusError") then
    mkResponse 503 (ErrorJson "Service Unavailable" "Message service temporarily unavailable")
  else if bool_decide (name error = "ValidationError") && hasDetails error then
    mkResponse 400 (ErrorJson "Validation Error" "Invalid request data")
  else if bool_decide (name error = "RestError") || JS.includes (message error) "Azure" then
    mkResponse 503 (ErrorJson "Service Unavailable" "External service temporarily unavailable")
  else
    match statusCode error with
    | Some code =>
        if bool_decide (400 ≤ code) && bool_decide (code < 500) then
          mkResponse code
            (ErrorJson "Client Error"
               (if bool_decide (message error = "") then "Bad request" else message error))
        else
          mkResponse 500
            (ErrorJson "Internal Server Error"
               (if production then "An unexpected error occurred" else message error))
    | None =>
        mkResponse 500
          (ErrorJson "Internal Server Error"
             (if production then "An unexpected error occurred" else message error))
    end.

End Middleware.

(** ** The controller (src/controllers/OrderController.ts) *)

Module OrderController.

Import DatabaseService ServiceBusService Middleware.

(** [req.user], set by the authentication middleware from the verified
    token. *)
Record User : Set := mkUser {
  user_id : string;
  email : string;
  roles : list string
}.

(** *** Request payloads

    A key that is absent from the payload is [None]. *)

Record OrderItemBody : Set := mkOrderItemBody {
  body_productId : option string;
  body_productName : option string;
  body_quantity : option JS.number;
  body_unitPrice : option JS.number
}.

Record CreateOrderBody : Set := mkCreateOrderBody {
  body_customerId : option string;
  body_customerEmail : option string;
  body_shippingAddress : option string;
  body_billingAddress : option string;
  body_currency : option string;
  body_orderItems : option (list OrderItemBody)
}.

Record StatusBody : Set := mkStatusBody {
  body_status : option string
}.

Record Query : Set := mkQuery {
  query_page : option Z;
  query_pageSize : option Z
}.

(** The values the schemas return. *)
Record OrderItemValue : Set := mkOrderItemValue {
  value_productId : string;
  value_productName : string;
  value_quantity : JS.number;
  value_unitPrice : JS.number
}.

Record CreateOrderValue : Set := mkCreateOrderValue {
  value_customerId : string;
  value_customerEmail : string;
  value_shippingAddress : string;
  value_billingAddress : string;
  value_currency : string;
  value_orderItems : list OrderItemValue
}.

(** *** Joi rules

    A rule returns the validated value or the message of the first
    violation, [error.details[0].message]: the path of the key between
    double quotes, followed by the rule that failed. *)

Definition Validated (A : Type) : Type := string + A.

#[export] Instance Validated_ret : MRet Validated := λ A a, inr a.
#[export] Instance Validated_bind : MBind Validated :=
  λ A B f m, match m with inl e => inl e | inr a => f a end.

(** [Joi.string().required()]: present and not empty. *)
Definition stringRequired (key : string) (v : option string) : Validated string :=
  match v with
  | None => inl (JS.label key +:+ " is required")
  | Some s =>
      if bool_decide (s = "") then inl (JS.label key +:+ " is not allowed to be empty")
      else inr s
  end.

(** [Joi.number()]: a finite, safe number. *)
Definition numberRequired (key : string) (v : option JS.number) : Validated JS.number :=
  match v with
  | None => inl (JS.label key +:+ " is required")
  | Some x =>
      if PrimFloat.is_nan x then inl (JS.label key +:+ " must be a number")
      else if PrimFloat.is_infinity x then inl (JS.label key +:+ " cannot be infinity")
      else if JS.isSafe x then inr x
      else inl (JS.label key +:+ " must be a safe number")
  end.

(** [.integer()]. *)
Definition integer (key : string) (x : JS.number) : Validated JS.number :=
  if JS.isInteger x then inr x else inl (JS.label key +:+ " must be an integer").

(** [.min(1)] on a number. *)
Definition min1 (key : string) (x : JS.number) : Validated JS.number :=
  if PrimFloat.leb 1 x then inr x
  else inl (JS.label key +:+ " must be greater than or equal to 1").

(** [.positive()]. *)
Definition positive (key : string) (x : JS.number) : Validated JS.number :=
  if PrimFloat.ltb 0 x then inr x
  else inl (JS.label key +:+ " must be a positive number").

Section Schemas.

(** Joi's [email] rule, which is the library's own. *)
Variable joiEmail : string → bool.

(** The schema of one element of [orderItems]. *)
Definition orderItemSchema (key : string) (item : OrderItemBody) : Validated OrderItemValue :=
  productId ← stringRequired (key +:+ ".productId") (body_productId item);
  productName ← stringRequired (key +:+ ".productName") (body_productName item);
  quantity ← numberRequired (key +:+ ".quantity") (body_quantity item);
  quantity ← integer (key +:+ ".quantity") quantity;
  quantity ← min1 (key +:+ ".quantity") quantity;
  unitPrice ← numberRequired (key +:+ ".unitPrice") (body_unitPrice item);
  unitPrice ← positive (key +:+ ".unitPrice") unitPrice;
  mret (mkOrderItemValue productId productName quantity unitPrice).

(** [Joi.array().items(...)], the elements in order. *)
Fixpoint orderItemsSchema (k : nat) (items : list OrderItemBody)
  : Validated (list OrderItemValue) :=
  match items with
  | [] => mret []
  | item :: rest =>
      v ← orderItemSchema ("orderItems[" +:+ pretty k +:+ "]") item;
      vs ← orderItemsSchema (S k) rest;
      mret (v :: vs)
  end.

(** [createOrderSchema.validate(req.body)]. *)
Definition createOrderSchema (body : CreateOrderBody) : Validated CreateOrderValue :=
  customerId ← stringRequired "customerId" (body_customerId body);
  customerEmail ← stringRequired "customerEmail" (body_customerEmail body);
  customerEmail ←
    (if joiEmail customerEmail then inr customerEmail
     else inl (JS.label "customerEmail" +:+ " must be a valid email"));
  shippingAddress ← stringRequired "shippingAddress" (body_shippingAddress body);
  billingAddress ← stringRequired "billingAddress" (body_billingAddress body);
  currency ←
    match body_currency body with
    | None => inr "USD"
    | Some c =>
        if bool_decide (c = "") then
          inl (JS.label "currency" +:+ " is not allowed to be empty")
        else if bool_decide (JS.length c = 3%nat) then inr c
        else inl (JS.label "currency" +:+ " length must be 3 characters long")
    end;
  orderItems ←
    match body_orderItems body with
    | None => inl (JS.label "orderItems" +:+ " is required")
    | Some items =>
        vs ← orderItemsSchema 0 items;
        if bool_decide (vs = []) then
          inl (JS.label "orderItems" +:+ " must contain at least 1 items")
        else inr vs
    end;
  mret (mkCreateOrderValue customerId customerEmail shippingAddress billingAddress
          currency orderItems).

End Schemas.

(** [Joi.string().valid('pending', 'processing', 'shipped', 'delivered',
    'cancelled')]. *)
Definition statusOfString (s : string) : option OrderStatus :=
  if bool_decide (s = "pending") then Some pending
  else if bool_decide (s = "processing") then Some processing
  else if bool_decide (s = "shipped") then Some shipped
  else if bool_decide (s = "delivered") then Some delivered
  else if bool_decide (s = "cancelled") then Some cancelled
  else None.

(** [updateOrderStatusSchema.validate(req.body)]. *)
Definition updateOrderStatusSchema (body : StatusBody) : Validated OrderStatus :=
  match body_status body with
  | None => inl (JS.label "status" +:+ " is required")
  | Some s =>
      match statusOfString s with
      | Some st => inr st
      | None =>
          inl (JS.label "status"
               +:+ " must be one of [pending, processing, shipped, delivered, cancelled]")
      end
  end.

(** [Joi.number().integer().min(lo)], with [.max(hi)] when given and a
    default; the query values are integers already. *)
Definition integerParam (key : string) (lo : Z) (hi : option Z) (dflt : Z) (v : option Z)
  : Validated Z :=
  match v with
  | None => inr dflt
  | Some x =>
      if bool_decide (9007199254740991 < Z.abs x) then
        inl (JS.label key +:+ " must be a safe number")
      else if bool_decide (x < lo) then
        inl (JS.label key +:+ " must be greater than or equal to " +:+ pretty lo)
      else
        match hi with
        | Some h =>
            if bool_decide (h < x) then
              inl (JS.label key +:+ " must be less than or equal to " +:+ pretty h)
            else inr x
        | None => inr x
        end
  end.

(** [queryParamsSchema.validate(req.query)]. *)
Definition queryParamsSchema (query : Query) : Validated (Z * Z) :=
  page ← integerParam "page" 1 None 1 (query_page query);
  pageSize ← integerParam "pageSize" 1 (Some 100) 10 (query_pageSize query);
  mret (page, pageSize).

(** *** State and effects of a handler *)

(** The calls a handler makes on the store, in order. *)
Inductive StoreCall : Set :=
  | CreateOrderCall (order : NewOrder)
  | GetOrderByIdCall (wanted : string)
  | GetOrdersByCustomerCall (customer : string) (page pageSize : Z)
  | UpdateOrderStatusCall (wanted : string) (s : OrderStatus).

(** What the handlers share: the store ([this.dbService]) with the log of
    the calls made on it, and the topic the notifier
    ([this.serviceBusService]) publishes to. *)
Record World : Set := mkWorld {
  dbService : DB;
  storeCalls : list StoreCall;
  topic : list Message
}.

(** What one request takes from its environment: [Date.now()], the
    characters [Math.random().toString(36).substr(2, 5).toUpperCase()]
    yields, [uuidv4()] for the k-th item, the store's clock, the answer of
    the broker and whether NODE_ENV is production. *)
Record Env : Set := mkEnv {
  dateNow : Z;
  randomSuffix : string;
  uuidv4 : nat → string;
  clock : Clock;
  sendMessages : option JsError;
  production : bool
}.

(** An asynchronous handler body: it returns or throws, and changes the
    world either way. *)
Definition Handler (A : Type) : Type := World → (JsError + A) * World.

#[export] Instance Handler_ret : MRet Handler := λ A a w, (inr a, w).

#[export] Instance Handler_bind : MBind Handler :=
  λ A B f m w,
    match m w with
    | (inl e, w') => (inl e, w')
    | (inr a, w') => f a w'
    end.

Definition throw {A : Type} (e : JsError) : Handler A := λ w, (inl e, w).

(** [try { m } catch (e) { h e }]. *)
Definition tryCatch {A : Type} (m : Handler A) (h : JsError → Handler A) : Handler A :=
  λ w,
    match m w with
    | (inl e, w') => h e w'
    | (inr a, w') => (inr a, w')
    end.

(** [const { error, value } = schema.validate(...); if (error) throw new
    ValidationError(error.details[0].message)]. *)
Definition validate {A : Type} (v : Validated A) : Handler A :=
  match v with
  | inl msg => throw (newValidationError msg)
  | inr a => mret a
  end.

(** [await this.dbService.f(...)], logged. *)
Definition callStore {A : Type} (c : StoreCall) (f : DB → (JsError + A) * DB) : Handler A :=
  λ w,
    let '(r, db') := f (dbService w) in
    (r, mkWorld db' (storeCalls w ++ [c]) (topic w)).

(** [await this.serviceBusService.publishOrderEvent(eventType, data)]. *)
Definition publish (env : Env) (eventType : string) (eventData : OrderEvent) : Handler unit :=
  λ w,
    let '(r, topic') := publishOrderEvent (sendMessages env) eventType eventData (topic w) in
    (r, mkWorld (dbService w) (storeCalls w) topic').

(** Reading a property of [null] inside a [try] block. *)
Definition typeError : JsError :=
  mkJsError PlainError "TypeError" "Cannot read properties of null (reading 'id')" false None.

(** [req.user?.roles?.includes('admin') || false]. *)
Definition isAdmin (user : option User) : bool :=
  match user with
  | Some u => JS.arrayIncludes (roles u) "admin"
  | None => false
  end.

Section Handlers.

Variable sqlInput : SqlInput.
Variable joiEmail : string → bool.

(** [getOrders]. *)
Definition getOrders (env : Env) (user : option User) (query : Query) : Handler Response :=
  '(page, pageSize) ← validate (queryParamsSchema query);
  let customerId := user_id <$> user in
  if JS.falsy customerId then throw (newBadRequestError "Customer ID not found in token")
  else
    let customer := default "" customerId in
    '(orders, totalCount) ←
      callStore (GetOrdersByCustomerCall customer page pageSize)
        (λ db, (getOrdersByCustomer sqlInput (clock env) customer (JS.ofZ page)
                  (JS.ofZ pageSize) db, db));
    mret (mkResponse 200
            (OrdersJson orders page pageSize totalCount (JS.ceilDiv totalCount pageSize))).

(** [getOrderById]. *)
Definition getOrderById (user : option User) (wanted : string) : Handler Response :=
  let customerId := user_id <$> user in
  if JS.falsy customerId then throw (newBadRequestError "Customer ID not found in token")
  else
    order ← callStore (GetOrderByIdCall wanted)
              (λ db, (DatabaseService.getOrderById sqlInput wanted db, db));
    match order with
    | None => throw (newNotFoundError "Order not found")
    | Some order =>
        if negb (isAdmin user) && bool_decide (DatabaseService.customerId (order_row order) ≠ default "" customerId) then
          throw (newNotFoundError "Order not found")
        else mret (mkResponse 200 (OrderJson (Some order)))
    end.

(** The items handed to the store: [value.orderItems.map(item => ({
    ...item, id: uuidv4(), orderId: '', totalPrice: item.quantity *
    item.unitPrice }))]. *)
Definition newOrderItems (env : Env) (items : list OrderItemValue) : list OrderItem :=
  imap (λ k item, {|
    item_id := uuidv4 env k;
    orderId := "";
    productId := value_productId item;
    productName := value_productName item;
    quantity := value_quantity item;
    unitPrice := value_unitPrice item;
    totalPrice := (value_quantity item * value_unitPrice item)%float
  |}) items.

(** [orderItems.reduce((sum, item) => sum + item.totalPrice, 0)]. *)
Definition sumTotalPrice (orderItems : list OrderItem) : JS.number :=
  JS.reduce (λ sum item, (sum + totalPrice item)%float) 0%float orderItems.

(** [const orderData: Omit<Order, 'id' | 'createdAt' | 'updatedAt'> = {
    ... }]: customer id and e-mail are those of [req.user], the number is
    [`ORD-${Date.now()}-${...}`], the status is 'pending'. *)
Definition orderData (env : Env) (user : option User) (value : CreateOrderValue) : NewOrder :=
  let customerId := user_id <$> user in
  let customerEmail := email <$> user in
  let orderNumber := "ORD-" +:+ pretty (dateNow env) +:+ "-" +:+ randomSuffix env in
  let orderItems := newOrderItems env (value_orderItems value) in
  let totalAmount := sumTotalPrice orderItems in
  {|
    new_customerId := default "" customerId;
    new_customerEmail := default "" customerEmail;
    new_orderNumber := orderNumber;
    new_status := pending;
    new_totalAmount := totalAmount;
    new_currency := value_currency value;
    new_shippingAddress := value_shippingAddress value;
    new_billingAddress := value_billingAddress value;
    new_orderItems := orderItems
  |}.

(** [createOrder]. *)
Definition createOrder (env : Env) (user : option User) (body : CreateOrderBody)
  : Handler Response :=
  value ← validate (createOrderSchema joiEmail body);
  let customerId := user_id <$> user in
  let customerEmail := email <$> user in
  if JS.falsy customerId || JS.falsy customerEmail then
    throw (newBadRequestError "Customer information not found in token")
  else
    let orderData := orderData env user value in
    createdOrder ← callStore (CreateOrderCall orderData)
                     (DatabaseService.createOrder sqlInput (clock env) orderData);
    _ ← tryCatch
          match createdOrder with
          | Some o =>
              publish env "order.created" {|
                ev_orderId := id (order_row o);
                ev_customerId := DatabaseService.customerId (order_row o);
                ev_orderNumber := DatabaseService.orderNumber (order_row o);
                ev_totalAmount := Some (DatabaseService.totalAmount (order_row o));
                ev_currency := Some (currency (order_row o));
                ev_oldStatus := None;
                ev_newStatus := None;
                ev_timestamp := dateNow env
              |}
          | None => throw typeError
          end
          (λ _, mret ());
    mret (mkResponse 201 (OrderJson createdOrder)).

(** [updateOrderStatus]: the 403 answer is sent by the handler itself. *)
Definition updateOrderStatus (env : Env) (user : option User) (wanted : string)
    (body : StatusBody) : Handler Response :=
  if negb (isAdmin user) then
    mret (mkResponse 403 (ErrorJson "Forbidden" "Admin access required"))
  else
    newStatus ← validate (updateOrderStatusSchema body);
    updatedOrder ← callStore (UpdateOrderStatusCall wanted newStatus)
                     (DatabaseService.updateOrderStatus sqlInput (clock env) wanted newStatus);
    match updatedOrder with
    | None => throw (newNotFoundError "Order not found")
    | Some o =>
        _ ← tryCatch
              (publish env "order.status_changed" {|
                 ev_orderId := id (order_row o);
                 ev_customerId := DatabaseService.customerId (order_row o);
                 ev_orderNumber := DatabaseService.orderNumber (order_row o);
                 ev_totalAmount := None;
                 ev_currency := None;
                 ev_oldStatus := Some "unknown";
                 ev_newStatus := Some newStatus;
                 ev_timestamp := dateNow env
               |})
              (λ _, mret ());
        mret (mkResponse 200 (OrderJson (Some o)))
    end.

(** [cancelOrder]. *)
Definition cancelOrder (env : Env) (user : option User) (wanted : string) : Handler Response :=
  let customerId := user_id <$> user in
  if JS.falsy customerId then throw (newBadRequestError "Customer ID not found in token")
  else
    currentOrder ← callStore (GetOrderByIdCall wanted)
                     (λ db, (DatabaseService.getOrderById sqlInput wanted db, db));
    match currentOrder with
    | None => throw (newNotFoundError "Order not found")
    | Some currentOrder =>
        if negb (isAdmin user)
           && bool_decide (DatabaseService.customerId (order_row currentOrder) ≠ default "" customerId) then
          throw (newNotFoundError "Order not found")
        else if bool_decide (status (order_row currentOrder) = cancelled) then
          throw (newBadRequestError "Order is already cancelled")
        else if bool_decide (status (order_row currentOrder) ∈ [shipped; delivered]) then
          throw (newBadRequestError "Cannot cancel shipped or delivered orders")
        else
          updatedOrder ← callStore (UpdateOrderStatusCall wanted cancelled)
                           (DatabaseService.updateOrderStatus sqlInput (clock env) wanted
                              cancelled);
          _ ← tryCatch
                match updatedOrder with
                | Some o =>
                    publish env "order.cancelled" {|
                      ev_orderId := id (order_row o);
                      ev_customerId := DatabaseService.customerId (order_row o);
                      ev_orderNumber := DatabaseService.orderNumber (order_row o);
                      ev_totalAmount := Some (DatabaseService.totalAmount (order_row o));
                      ev_currency := None;
                      ev_oldStatus := None;
                      ev_newStatus := None;
                      ev_timestamp := dateNow env
                    |}
                | None => throw typeError
                end
                (λ _, mret ());
          mret (mkResponse 200 (OrderJson updatedOrder))
    end.

(** The routes of [initializeRoutes], each with what its handler reads
    from the request. *)
Inductive Route : Set :=
  | GET_orders (query : Query)
  | GET_order (wanted : string)
  | POST_orders (body : CreateOrderBody)
  | PATCH_status (wanted : string) (body : StatusBody)
  | PATCH_cancel (wanted : string).

Definition initializeRoutes (env : Env) (user : option User) (r : Route) : Handler Response :=
  match r with
  | GET_orders query => getOrders env user query
  | GET_order wanted => getOrderById user wanted
  | POST_orders body => createOrder env user body
  | PATCH_status wanted body => updateOrderStatus env user wanted body
  | PATCH_cancel wanted => cancelOrder env user wanted
  end.

(** A handler ends with [catch (error) { next(error) }]: what it throws is
    answered by [errorHandler]. *)
Definition respond (env : Env) (h : Handler Response) (w : World) : Response * World :=
  match h w with
  | (inr response, w') => (response, w')
  | (inl error, w') => (errorHandler (production env) error, w')
  end.

(** One request served. *)
Record Request : Set := mkRequest {
  req_env : Env;
  req_user : option User;
  req_route : Route
}.

Definition serve (req : Request) (w : World) : Response * World :=
  respond (req_env req) (initializeRoutes (req_env req) (req_user req) (req_route req)) w.

End Handlers.

End OrderController.

(** ** The configuration (src/config/config.ts) *)

Module Config.

(** [process.env]: a variable that is not set is [None]. *)
Definition ProcessEnv : Type := string → option string.

(** [process.env.X || fallback]: the fallback replaces a variable that is
    not set or set to the empty string. *)
Definition orElse (v : option string) (fallback : string) : string :=
  if JS.falsy v then fallback else default "" v.

(** [config.database], without the pool sizes (read by [parseInt]). *)
Record DatabaseConfig : Set := mkDatabaseConfig {
  server : string;
  database : string;
  username : string;
  password : option string;
  connectionString : option string;
  encrypt : bool;
  trustServerCertificate : bool;
  enableArithAbort : bool
}.

(** [config.serviceBus]. *)
Record ServiceBusConfig : Set := mkServiceBusConfig {
  namespace : string;
  serviceBusConnectionString : option string;
  orderEventsTopic : string;
  paymentQueue : string
}.

(** [config.auth]. *)
Record AuthConfig : Set := mkAuthConfig {
  jwtSecret : option string;
  jwtExpiration : string;
  audience : string;
  issuer : string
}.

(** [config], without the port (read by [parseInt]) and the CORS
    origins. *)
Record AppConfig : Set := mkAppConfig {
  nodeEnv : string;
  logLevel : string;
  rateLimitWindowMs : Z;
  rateLimitMax : Z;
  databaseConfig : DatabaseConfig;
  serviceBus : ServiceBusConfig;
  auth : AuthConfig;
  keyVaultUrl : option string;
  applicationInsightsConnectionString : option string
}.

(** [export const config: AppConfig = { ... }]. *)
Definition config (env : ProcessEnv) : AppConfig := {|
  nodeEnv := orElse (env "NODE_ENV") "development";
  logLevel := orElse (env "LOG_LEVEL") "info";
  rateLimitWindowMs := 15 * 60 * 1000;
  rateLimitMax := if bool_decide (env "NODE_ENV" = Some "production") then 100 else 1000;
  databaseConfig := {|
    server := orElse (env "SQL_SERVER") "sql-ecommerce-dev.database.windows.net";
    database := orElse (env "SQL_DATABASE") "orders";
    username := orElse (env "SQL_USERNAME") "ecommerceadmin";
    password := env "SQL_PASSWORD";
    connectionString := env "SQL_CONNECTION_STRING";
    encrypt := true;
    trustServerCertificate := bool_decide (env "NODE_ENV" = Some "development");
    enableArithAbort := true
  |};
  serviceBus := {|
    namespace := orElse (env "SERVICE_BUS_NAMESPACE") "sb-ecommerce-dev.servicebus.windows.net";
    serviceBusConnectionString := env "SERVICE_BUS_CONNECTION_STRING";
    orderEventsTopic := orElse (env "ORDER_EVENTS_TOPIC") "order-events";
    paymentQueue := orElse (env "PAYMENT_QUEUE") "payment-processing"
  |};
  auth := {|
    jwtSecret := env "JWT_SECRET";
    jwtExpiration := orElse (env "JWT_EXPIRATION") "24h";
    audience := orElse (env "JWT_AUDIENCE") "ecommerce-api";
    issuer := orElse (env "JWT_ISSUER") "ecommerce-platform"
  |};
  keyVaultUrl := env "KEY_VAULT_URL";
  applicationInsightsConnectionString := env "APPLICATIONINSIGHTS_CONNECTION_STRING"
|}.

(** The keys [validateConfig] requires. *)
Definition required : list string :=
  ["database.server"; "database.database"; "database.username"].

(** [key.split('.').reduce((obj, k) => obj?.[k], config)] for the keys
    that hold a string. *)
Definition valueAt (cfg : AppConfig) (key : string) : option string :=
  if bool_decide (key = "database.server") then Some (server (databaseConfig cfg))
  else if bool_decide (key = "database.database") then Some (database (databaseConfig cfg))
  else if bool_decide (key = "database.username") then Some (username (databaseConfig cfg))
  else None.

(** [missing.join(', ')]. *)
Fixpoint join (sep : string) (l : list string) : string :=
  match l with
  | [] => ""
  | [s] => s
  | s :: rest => s +:+ sep +:+ join sep rest
  end.

(** [validateConfig]: it throws when a required key is missing and
    returns the warnings it prints otherwise. *)
Definition validateConfig (cfg : AppConfig) : JsError + list string :=
  let missing := filter (λ key, JS.falsy (valueAt cfg key) = true) required in
  if bool_decide (0 < length missing)%nat then
    inl (newError ("Missing required configuration: " +:+ join ", " missing))
  else
    inr ((if JS.falsy (password (databaseConfig cfg))
             && JS.falsy (connectionString (databaseConfig cfg))
          then ["Warning: No database password or connection string provided"] else [])
         ++ (if JS.falsy (jwtSecret (auth cfg)) then ["Warning: No JWT secret provided"]
             else [])).

End Config.

(** ** The connection of the store (src/services/DatabaseService.ts) *)

Module Connection.

Import Config.

(** [sql.config]: a connection string, or server, database, user and
    password. *)
Inductive Credentials : Set :=
  | ConnectionString (connectionString : string)
  | Login (server database user password : string).

Record ConnectionConfig : Set := mkConnectionConfig {
  credentials : Credentials;
  options_encrypt : bool;
  options_trustServerCertificate : bool;
  options_enableArithAbort : bool;
  pool_max : Z;
  pool_min : Z;
  pool_idleTimeoutMillis : Z
}.

(** [this.connectionConfig = { ..., options: { encrypt: true,
    trustServerCertificate: false, enableArithAbort: true }, pool: { max:
    10, min: 0, idleTimeoutMillis: 30000 } }]. *)
Definition connectionConfigOf (c : Credentials) : ConnectionConfig :=
  mkConnectionConfig c true false true 10 0 30000.

(** The fields of [class DatabaseService] that its life cycle changes:
    [pool] is the pool, if there is one, with its [connected] flag. *)
Record Service : Set := mkService {
  keyVaultClient : bool;
  connectionConfig : option ConnectionConfig;
  pool : option bool
}.

(** [new DatabaseService()]. *)
Definition newDatabaseService (env : ProcessEnv) : Service :=
  mkService (negb (JS.falsy (env "KEY_VAULT_URL"))) None None.

(** What a call meets outside the process: the answer of Key Vault to
    [getSecret(name)] (the secret's value or the error thrown), and the
    errors, if any, of the pool's constructor, of [pool.connect()], of the
    schema queries, of the probe query and of [pool.close()]. *)
Record Outside : Set := mkOutside {
  getSecret : string → JsError + option string;
  newConnectionPool : option JsError;
  connect : option JsError;
  schemaQueries : option JsError;
  probeQuery : option JsError;
  poolClose : option JsError
}.

(** The connection string of [initialize]: that of the environment, or
    the secret of Key Vault when there is a client and the environment
    has none; a failure of Key Vault is logged only. *)
Definition connectionStringOf (env : ProcessEnv) (out : Outside) (this : Service)
  : option string :=
  if keyVaultClient this && JS.falsy (env "SQL_CONNECTION_STRING") then
    match getSecret out "sql-connection-string" with
    | inr value => value
    | inl _ => env "SQL_CONNECTION_STRING"
    end
  else env "SQL_CONNECTION_STRING".

(** The password of [initialize]: here a failure of Key Vault is thrown
    as "SQL password not available". *)
Definition passwordOf (env : ProcessEnv) (out : Outside) (this : Service)
  : JsError + option string :=
  if keyVaultClient this && JS.falsy (env "SQL_PASSWORD") then
    match getSecret out "sql-admin-password" with
    | inr value => inr value
    | inl _ => inl (newError "SQL password not available")
    end
  else inr (env "SQL_PASSWORD").

(** [initialize]: every error is logged and thrown again. *)
Definition initialize (env : ProcessEnv) (out : Outside) (this : Service)
  : (JsError + unit) * Service :=
  let connectionString := connectionStringOf env out this in
  let config : JsError + ConnectionConfig :=
    if negb (JS.falsy connectionString) then
      inr (connectionConfigOf (ConnectionString (default "" connectionString)))
    else
      let server := orElse (env "SQL_SERVER") "sql-ecommerce-dev.database.windows.net" in
      let database := orElse (env "SQL_DATABASE") "orders" in
      let username := orElse (env "SQL_USERNAME") "ecommerceadmin" in
      match passwordOf env out this with
      | inl error => inl error
      | inr password =>
          if JS.falsy password then inl (newError "SQL password not provided")
          else inr (connectionConfigOf (Login server database username (default "" password)))
      end in
  match config with
  | inl error => (inl error, this)
  | inr config =>
      match newConnectionPool out with
      | Some error => (inl error, mkService (keyVaultClient this) (Some config) (pool this))
      | None =>
          match connect out with
          | Some error =>
              (inl error, mkService (keyVaultClient this) (Some config) (Some false))
          | None =>
              let this' := mkService (keyVaultClient this) (Some config) (Some true) in
              match schemaQueries out with
              | Some error => (inl error, this')
              | None => (inr (), this')
              end
          end
      end
  end.

(** [checkConnection]. *)
Definition checkConnection (out : Outside) (this : Service) : JsError + unit :=
  match pool this with
  | Some true =>
      match probeQuery out with
      | Some error => inl (newError ("Database connection check failed: " +:+ toString error))
      | None => inr ()
      end
  | _ => inl (newError "Database not connected")
  end.

(** [getPool]: the pool's [connected] flag, or the error thrown. *)
Definition getPool (this : Service) : JsError + bool :=
  match pool this with
  | None => inl (newError "Database pool not initialized")
  | Some connected => inr connected
  end.

(** [close]: [this.pool] is not reset, and an error of [pool.close()] is
    logged only. *)
Definition close (out : Outside) (this : Service) : Service :=
  match pool this, poolClose out with
  | Some _, None => mkService (keyVaultClient this) (connectionConfig this) (Some false)
  | _, _ => this
  end.

(** [app.get('/ready', ...)] of server.ts: the status code and the
    [status] of the answer. *)
Definition ready (out : Outside) (this : Service) : Z * string :=
  match checkConnection out this with
  | inr _ => (200, "ready")
  | inl _ => (503, "not ready")
  end.

End Connection.

(** ** The connection of the notifier (src/services/ServiceBusService.ts) *)

Module ServiceBusConnection.

Import Config.

(** [new ServiceBusClient(connectionString, credential)], or without the
    credential. *)
Record Client : Set := mkClient {
  client_connectionString : string;
  withCredential : bool
}.

(** The fields of [class ServiceBusService]; [topicSender] is the name of
    the topic the sender was created for. *)
Record Service : Set := mkService {
  keyVaultClient : bool;
  client : option Client;
  topicSender : option string
}.

(** [new ServiceBusService()]. *)
Definition newServiceBusService (env : ProcessEnv) : Service :=
  mkService (negb (JS.falsy (env "KEY_VAULT_URL"))) None None.

(** What a call meets outside the process: the answer of Key Vault, and
    the errors, if any, of the client's constructor, of [sendMessages] and
    of the queue sender's [close]. *)
Record Outside : Set := mkOutside {
  getSecret : string → JsError + option string;
  newServiceBusClient : option JsError;
  sendMessages : option JsError;
  senderClose : option JsError
}.

(** The connection string of [initialize]. *)
Definition connectionStringOf (env : ProcessEnv) (out : Outside) (this : Service) : string :=
  let connectionString :=
    if keyVaultClient this && JS.falsy (env "SERVICE_BUS_CONNECTION_STRING") then
      match getSecret out "servicebus-connection-string" with
      | inr value => value
      | inl _ => env "SERVICE_BUS_CONNECTION_STRING"
      end
    else env "SERVICE_BUS_CONNECTION_STRING" in
  if JS.falsy connectionString then
    let namespace :=
      orElse (env "SERVICE_BUS_NAMESPACE") "sb-ecommerce-dev.servicebus.windows.net" in
    "Endpoint=sb://" +:+ namespace +:+ "/;Authentication=ManagedIdentity"
  else default "" connectionString.

(** [initialize]: every error is logged and thrown again. *)
Definition initialize (env : ProcessEnv) (out : Outside) (this : Service)
  : (JsError + unit) * Service :=
  let connectionString := connectionStringOf env out this in
  match newServiceBusClient out with
  | Some error => (inl error, this)
  | None =>
      let client := mkClient connectionString (JS.includes connectionString "ManagedIdentity") in
      let topicName := orElse (env "ORDER_EVENTS_TOPIC") "order-events" in
      (inr (), mkService (keyVaultClient this) (Some client) (Some topicName))
  end.

(** The message [publishPaymentProcessingEvent] sends: [body] is the
    object [{ orderId, ...paymentData, timestamp, source }], its values as
    they print. *)
Record PaymentMessage : Set := mkPaymentMessage {
  body : gmap string string;
  payment_correlationId : string;
  messageId : string;
  payment_timeToLive : Z
}.

(** The payment queue: the entity the messages went to with the messages,
    and the number of queue senders that are still open. *)
Record Queue : Set := mkQueue {
  sent : list (string * PaymentMessage);
  openSenders : nat
}.

(** [publishPaymentProcessingEvent]; [now] is [new Date().toISOString()]
    and [dateNow] is [Date.now()]. *)
Definition publishPaymentProcessingEvent (env : ProcessEnv) (out : Outside)
    (now : string) (dateNow : Z) (orderId : string) (paymentData : gmap string string)
    (this : Service) (queue : Queue) : (JsError + unit) * Service * Queue :=
  let '(initialized, this') :=
    match client this with
    | None => initialize env out this
    | Some _ => (inr (), this)
    end in
  match initialized with
  | inl error => (inl error, this', queue)
  | inr _ =>
      match client this' with
      | None => (inl (newError "Service Bus client not initialized"), this', queue)
      | Some _ =>
          let queueName := orElse (env "PAYMENT_QUEUE") "payment-processing" in
          let message := {|
            body :=
              <["source" := "order-service"]>
                (<["timestamp" := now]> (paymentData ∪ {["orderId" := orderId]}));
            payment_correlationId := orderId;
            messageId := "payment-" +:+ orderId +:+ "-" +:+ pretty dateNow;
            payment_timeToLive := 30 * 60 * 1000
          |} in
          match sendMessages out with
          | Some error => (inl error, this', mkQueue (sent queue) (S (openSenders queue)))
          | None =>
              let sent' := sent queue ++ [(queueName, message)] in
              match senderClose out with
              | Some error => (inl error, this', mkQueue sent' (S (openSenders queue)))
              | None => (inr (), this', mkQueue sent' (openSenders queue))
              end
          end
      end
  end.

End ServiceBusConnection.

(** ** Authentication (src/middleware/auth.ts) *)

Module Auth.

Import Config Middleware OrderController.

(** [interface JwtPayload]: what the middleware reads of a verified
    token.  A [sub] or [email] the token lacks reads as the empty string
    (both are falsy); [roles] may be missing. *)
Record JwtPayload : Set := mkJwtPayload {
  sub : string;
  payload_email : string;
  payload_roles : option (list string)
}.

(** [class AuthService]: the cached secret and whether a Key Vault client
    was created. *)
Record AuthService : Set := mkAuthService {
  cachedSecret : option string;
  keyVaultClient : bool
}.

(** [new AuthService()]. *)
Definition newAuthService (cfg : AppConfig) : AuthService :=
  mkAuthService None (negb (JS.falsy (keyVaultUrl cfg))).

(** What a middleware does with a request: it answers, or it calls
    [next()] with [req.user] as it then is. *)
Inductive Outcome : Set :=
  | Respond (response : Response)
  | Next (user : option User).

(** [req.user = { id: payload.sub, email: payload.email, roles:
    payload.roles || [] }]. *)
Definition userOf (payload : JwtPayload) : User :=
  mkUser (sub payload) (payload_email payload) (default [] (payload_roles payload)).

(** [authHeader.substring(7)]. *)
Definition bearerToken (authHeader : string) : string :=
  String.substring 7 (String.length authHeader - 7) authHeader.

Section Verify.

(** [jwt.verify(token, secret, { audience, issuer })] of the jsonwebtoken
    library: the payload, or the error it throws. *)
Variable jwtVerify : string → string → string → string → JsError + JwtPayload.

(** [getJwtSecret]; [getSecret] is the answer of Key Vault to
    [getSecret('jwt-secret')]: the secret's value, or the error thrown. *)
Definition getJwtSecret (cfg : AppConfig) (getSecret : JsError + option string)
    (this : AuthService) : (JsError + string) * AuthService :=
  if negb (JS.falsy (cachedSecret this)) then (inr (default "" (cachedSecret this)), this)
  else
    let fromVault :=
      if keyVaultClient this then
        match getSecret with
        | inr value => if JS.falsy value then None else value
        | inl _ => None
        end
      else None in
    match fromVault with
    | Some secret => (inr secret, mkAuthService (Some secret) (keyVaultClient this))
    | None =>
        if negb (JS.falsy (jwtSecret (auth cfg))) then
          (inr (default "" (jwtSecret (auth cfg))),
           mkAuthService (jwtSecret (auth cfg)) (keyVaultClient this))
        else (inl (newError "JWT secret not found"), this)
    end.

(** [verifyToken]: every failure is thrown again as [new Error(`Invalid
    token: ${error}`)]. *)
Definition verifyToken (cfg : AppConfig) (getSecret : JsError + option string)
    (token : string) (this : AuthService) : (JsError + JwtPayload) * AuthService :=
  match getJwtSecret cfg getSecret this with
  | (inl error, this') => (inl (newError ("Invalid token: " +:+ toString error)), this')
  | (inr secret, this') =>
      match jwtVerify token secret (audience (auth cfg)) (issuer (auth cfg)) with
      | inl error => (inl (newError ("Invalid token: " +:+ toString error)), this')
      | inr payload => (inr payload, this')
      end
  end.

(** [authMiddleware]; [authorization] is [req.headers.authorization]. *)
Definition authMiddleware (cfg : AppConfig) (getSecret : JsError + option string)
    (authorization : option string) (this : AuthService) : Outcome * AuthService :=
  let authHeader := default "" authorization in
  if JS.falsy authorization || negb (String.prefix "Bearer " authHeader) then
    (Respond (mkResponse 401 (ErrorJson "Unauthorized" "Bearer token required")), this)
  else
    let token := bearerToken authHeader in
    if bool_decide (token = "") then
      (Respond (mkResponse 401 (ErrorJson "Unauthorized" "Token not provided")), this)
    else
      match verifyToken cfg getSecret token this with
      | (inr payload, this') => (Next (Some (userOf payload)), this')
      | (inl _, this') =>
          (Respond (mkResponse 401 (ErrorJson "Unauthorized" "Invalid or expired token")),
           this')
      end.

(** [optionalAuth]. *)
Definition optionalAuth (cfg : AppConfig) (getSecret : JsError + option string)
    (authorization : option string) (this : AuthService) : Outcome * AuthService :=
  let authHeader := default "" authorization in
  if JS.falsy authorization || negb (String.prefix "Bearer " authHeader) then (Next None, this)
  else
    let token := bearerToken authHeader in
    if bool_decide (token = "") then (Next None, this)
    else
      match verifyToken cfg getSecret token this with
      | (inr payload, this') => (Next (Some (userOf payload)), this')
      | (inl _, this') => (Next None, this')
      end.

End Verify.

(** [requireRole(requiredRole)], on [req.user]. *)
Definition requireRole (requiredRole : string) (user : option User) : Outcome :=
  match user with
  | None => Respond (mkResponse 401 (ErrorJson "Unauthorized" "Authentication required"))
  | Some u =>
      if negb (JS.arrayIncludes (roles u) requiredRole) then
        Respond (mkResponse 403
                   (ErrorJson "Forbidden" ("Role '" +:+ requiredRole +:+ "' required")))
      else Next user
  end.

End Auth.

(** ** The application (src/server.ts) *)

Module Server.

Import Config Middleware OrderController Auth.

(** What the routes under /api/orders share between requests: the
    authentication service and the world of the handlers. *)
Record Service : Set := mkService {
  authService : AuthService;
  orderController : World
}.

(** A request to /api/orders: the Authorization header, the route with
    what the handler reads of the request, and what the request takes from
    its environment (the answer of Key Vault included). *)
Record HttpRequest : Set := mkHttpRequest {
  authorization : option string;
  http_route : Route;
  http_env : Env;
  keyVault : JsError + option string
}.

Section App.

Variable sqlInput : DatabaseService.SqlInput.
Variable joiEmail : string → bool.
Variable jwtVerify : string → string → string → string → JsError + JwtPayload.

(** [app.use('/api/orders', authMiddleware, orderController.router)],
    followed by [app.use(errorHandler)], for a request that the rate
    limiter and the body parsers have passed on. *)
Definition apiOrders (cfg : AppConfig) (req : HttpRequest) (s : Service)
  : Response * Service :=
  match authMiddleware jwtVerify cfg (keyVault req) (authorization req) (authService s) with
  | (Respond response, this') => (response, mkService this' (orderController s))
  | (Next user, this') =>
      let '(response, w') :=
        serve sqlInput joiEmail (mkRequest (http_env req) user (http_route req))
          (orderController s) in
      (response, mkService this' w')
  end.

End App.

End Server.

(** * Properties of the order service *)

Import DatabaseService ServiceBusService Middleware OrderController.

(** ** Vocabulary of the statements *)

(** The caller's role set does not include admin. *)
Definition nonAdmin (user : option User) : Prop :=
  ∀ u, user = Some u → "admin" ∉ roles u.

(** The caller's customer id, [""] when the request carries none. *)
Definition callerId (user : option User) : string := default "" (user_id <$> user).

(** The environment [env] with the broker's answer replaced. *)
Definition withBroker (answer : option JsError) (env : Env) : Env :=
  mkEnv (dateNow env) (randomSuffix env) (uuidv4 env) (clock env) answer (production env).

(** The rows of the table Orders whose customer id the server takes for
    equal to a given one. *)
Definition ordersOf (sqlInput : SqlInput) (customer : string) (db : DB) : list OrderRow :=
  filter (λ o, sameText sqlInput (customerId o) customer) (Orders db).

(** The statuses in which the cancel operation refuses an order. *)
Definition notCancellable (s : OrderStatus) : Prop :=
  s = cancelled ∨ s = shipped ∨ s = delivered.

(** An order row changed in its status and update time only. *)
Definition sameButStatus (o o' : OrderRow) : Prop :=
  id o' = id o ∧ customerId o' = customerId o ∧ customerEmail o' = customerEmail o
  ∧ orderNumber o' = orderNumber o ∧ totalAmount o' = totalAmount o
  ∧ currency o' = currency o ∧ shippingAddress o' = shippingAddress o
  ∧ billingAddress o' = billingAddress o ∧ createdAt o' = createdAt o.

(** The caller holds the admin role. *)
Definition hasAdminRole (user : option User) : Prop :=
  ∃ u, user = Some u ∧ "admin" ∈ roles u.

(** The five enumerated statuses, as the request body spells them. *)
Definition statusName (s : OrderStatus) : string :=
  match s with
  | pending => "pending"
  | processing => "processing"
  | shipped => "shipped"
  | delivered => "delivered"
  | cancelled => "cancelled"
  end.

(** A key that holds a non-empty string. *)
Definition present (v : option string) : Prop := ∃ s, v = Some s ∧ s ≠ "".

(** An element of [orderItems] as the interface describes it: product id
    and name, an integer quantity of at least 1 and a unit price above 0
    (both safe numbers). *)
Definition describedItem (item : OrderItemBody) : Prop :=
  present (body_productId item)
  ∧ present (body_productName item)
  ∧ (∃ q, body_quantity item = Some q
          ∧ JS.isSafe q = true ∧ JS.isInteger q = true ∧ PrimFloat.leb 1 q = true)
  ∧ (∃ p, body_unitPrice item = Some p ∧ JS.isSafe p = true ∧ PrimFloat.ltb 0 p = true).

(** The body of POST /orders as the interface describes it: shipping and
    billing address, an optional 3-letter currency and a non-empty list of
    items. *)
Definition describedBody (body : CreateOrderBody) : Prop :=
  present (body_shippingAddress body)
  ∧ present (body_billingAddress body)
  ∧ (body_currency body = None
     ∨ ∃ c, body_currency body = Some c ∧ JS.length c = 3%nat)
  ∧ ∃ items, body_orderItems body = Some items ∧ items ≠ [] ∧ Forall describedItem items.

(** The body names a customer: a customer id and an e-mail address that
    Joi accepts. *)
Definition namesCustomer (joiEmail : string → bool) (body : CreateOrderBody) : Prop :=
  present (body_customerId body)
  ∧ ∃ s, body_customerEmail body = Some s ∧ s ≠ "" ∧ joiEmail s = true.

(** The body with other values under customerId and customerEmail. *)
Definition withCustomer (customerId customerEmail : option string) (body : CreateOrderBody)
  : CreateOrderBody :=
  mkCreateOrderBody customerId customerEmail (body_shippingAddress body)
    (body_billingAddress body) (body_currency body) (body_orderItems body).




(** The joined row of an updated order. *)
Definition updatedRow (clk : Clock) (wanted : string) (s : OrderStatus) (r : JoinedRow)
  : JoinedRow :=
  mkJoinedRow (setStatus clk wanted s (row_order r)) (row_item r).

(** The store after [UPDATE Orders SET status = ..., updatedAt = ...]. *)
Definition updated (clk : Clock) (wanted : string) (s : OrderStatus) (db : DB) : DB :=
  mkDB (pool db) (connected db) (setStatus clk wanted s <$> Orders db) (OrderItems db).

(** Rows from the newest to the oldest, no two of them created at the same
    time. *)
Definition newer (a b : OrderRow) : Prop := createdAt b < createdAt a.

Definition newestFirst (rows : list OrderRow) : Prop := StronglySorted newer rows.


(** The order a row makes with the item rows that refer to it, as the
    server returns them. *)
Definition orderOfRow (sqlInput : SqlInput) (db : DB) (row : OrderRow) : Order :=
  mkOrder row (scan sqlInput (filter (λ oi, orderId oi = id row) (OrderItems db))).

(** The foreign key of the table OrderItems: every item row refers to an
    order row. *)
Definition foreignKeys (db : DB) : Prop :=
  ∀ oi, oi ∈ OrderItems db → orderId oi ∈ id <$> Orders db.

(** Any two rows of the table Orders carry different order numbers. *)
Definition distinctOrderNumbers (db : DB) : Prop :=
  ∀ (i j : nat) (o1 o2 : OrderRow),
    Orders db !! i = Some o1 → Orders db !! j = Some o2 → i ≠ j →
    orderNumber o1 ≠ orderNumber o2.

(** The caller may read the order: the request carries a customer id, and
    the caller is an admin or the order's customer. *)
Definition readableBy (user : option User) (o : Order) : Prop :=
  callerId user ≠ "" ∧ (isAdmin user = true ∨ customerId o = callerId user).

(** The statuses in which an order can still be cancelled. *)
Definition open (s : OrderStatus) : Prop := s = pending ∨ s = processing.

(** The world after a handler's calls on the store. *)
Definition called (calls : list StoreCall) (w : World) : World :=
  mkWorld (dbService w) (storeCalls w ++ calls) (topic w).

(** The subject of the event a route announces, if it announces one. *)
Definition announces (r : Route) : option string :=
  match r with
  | POST_orders _ => Some "order.created"
  | PATCH_status _ _ => Some "order.status_changed"
  | PATCH_cancel _ => Some "order.cancelled"
  | GET_orders _ | GET_order _ => None
  end.

(** A 2xx answer. *)
Definition succeeded (r : Response) : Prop := httpStatus r = 200 ∨ httpStatus r = 201.

Section StoreVocabulary.

Variable sqlInput : SqlInput.

(** The row the store keeps for an item it is handed. *)
Definition keptItem (createdId : string) (item row : OrderItem) : Prop :=
  orderId row = createdId
  ∧ productId row = productId item
  ∧ productName row = productName item
  ∧ sqlInput Int (quantity item) = Some (quantity row)
  ∧ sqlInput (Decimal 10 2) (unitPrice item) = Some (unitPrice row)
  ∧ sqlInput (Decimal 10 2) (totalPrice item) = Some (totalPrice row).


(** The row the store keeps for a new order. *)
Definition keptOrder (clk : Clock) (order : NewOrder) (row : OrderRow) : Prop :=
  id row = NEWID clk 0
  ∧ customerId row = new_customerId order
  ∧ customerEmail row = new_customerEmail order
  ∧ orderNumber row = new_orderNumber order
  ∧ status row = new_status order
  ∧ sqlInput (Decimal 10 2) (new_totalAmount order) = Some (totalAmount row)
  ∧ currency row = new_currency order
  ∧ shippingAddress row = new_shippingAddress order
  ∧ billingAddress row = new_billingAddress order
  ∧ createdAt row = GETUTCDATE clk
  ∧ updatedAt row = GETUTCDATE clk.

(** The numbers of an item are accepted as query parameters and its
    strings fit their columns. *)
Definition acceptedItem (item : OrderItem) : Prop :=
  is_Some (sqlInput Int (quantity item))
  ∧ is_Some (sqlInput (Decimal 10 2) (unitPrice item))
  ∧ is_Some (sqlInput (Decimal 10 2) (totalPrice item))
  ∧ (JS.length (productId item) ≤ 255)%nat
  ∧ (JS.length (productName item) ≤ 255)%nat.

(** The store takes a new order: the pool is there and connected, the ids
    the server generates are not in use (and the driver takes the order's
    id for a GUID), no row carries the order number, the driver accepts
    the numbers and the strings fit their columns. *)
Definition storeTakes (clk : Clock) (order : NewOrder) (db : DB) : Prop :=
  pool db = true
  ∧ connected db = true
  ∧ (NEWID clk 0 ∉ id <$> Orders db)
  ∧ uniqueIdentifier sqlInput (NEWID clk 0) = true
  ∧ Forall (λ o, ¬ sameText sqlInput (orderNumber o) (new_orderNumber order)) (Orders db)
  ∧ (JS.length (new_customerId order) ≤ 255)%nat
  ∧ (JS.length (new_customerEmail order) ≤ 255)%nat
  ∧ (JS.length (new_orderNumber order) ≤ 50)%nat
  ∧ (JS.length (new_currency order) ≤ 3)%nat
  ∧ is_Some (sqlInput (Decimal 10 2) (new_totalAmount order))
  ∧ Forall acceptedItem (new_orderItems order)
  ∧ NoDup (NEWID clk <$> seq 1 (length (new_orderItems order)))
  ∧ Forall (λ k, NEWID clk k ∉ item_id <$> OrderItems db)
      (seq 1 (length (new_orderItems order))).

(** The store answers a query under an id: the pool is there and
    connected, and the driver takes the id for a GUID. *)
Definition answers (wanted : string) (db : DB) : Prop :=
  pool db = true ∧ connected db = true ∧ uniqueIdentifier sqlInput wanted = true.

(** The UNIQUE constraint, under the collation of the column: no two rows
    carry order numbers that the server takes for equal. *)
Definition uniqueOrderNumbers (db : DB) : Prop :=
  NoDup (collation sqlInput <$> (orderNumber <$> Orders db)).

(** The writes of the store.  Requests served concurrently interleave
    their store calls; each write is one atomic statement or transaction,
    so the store goes through a sequence of writes in some order. *)
Inductive StoreWrite : Set :=
  | CreateOrderWrite (clk : Clock) (order : NewOrder)
  | UpdateOrderStatusWrite (clk : Clock) (wanted : string) (s : OrderStatus).

Definition applyWrite (db : DB) (op : StoreWrite) : DB :=
  match op with
  | CreateOrderWrite clk order => snd (DatabaseService.createOrder sqlInput clk order db)
  | UpdateOrderStatusWrite clk wanted s =>
      snd (DatabaseService.updateOrderStatus sqlInput clk wanted s db)
  end.

(** The store after a sequence of writes, from the initialised store. *)
Definition afterWrites (ops : list StoreWrite) : DB := foldl applyWrite initialized ops.

End StoreVocabulary.

(** The world after a sequence of requests served one after the other,
    from the initialised store. *)
Definition afterRequests (sqlInput : SqlInput)
    (joiEmail : string → bool) (reqs : list Request) : World :=
  foldl (λ w req, snd (serve sqlInput joiEmail req w)) (mkWorld initialized [] []) reqs.

(** ** A scenario

    Two customers, an administrator, and a store that holds a shipped
    order of bob with two items and two orders of alice. *)

Module Scenario.

(** A driver and a server as the service meets them.  A number bound to
    DECIMAL(p,s) is sent as [Math.round(Math.abs(x * 10 ** s))] with its
    sign, refused by the server when it needs more than p digits, and read
    back as that integer divided by [10 ** s]; a number bound to INT is
    refused outside 32 bits and sent as [x | 0]; NaN and the infinities are
    refused. *)
Definition roundHalfUp (x : JS.number) : Z :=
  match Prim2SF x with
  | S754_finite _ m e =>
      if bool_decide (0 ≤ e) then Z.pos m * 2 ^ e
      else (Z.pos m + 2 ^ (- e - 1)) `div` 2 ^ (- e)
  | _ => 0
  end.

Definition toDecimal (precision scale : nat) (x : JS.number) : option JS.number :=
  if PrimFloat.is_nan x || PrimFloat.is_infinity x then None
  else
    let shift := JS.ofZ (10 ^ Z.of_nat scale) in
    let digits := roundHalfUp (PrimFloat.abs (x * shift)) in
    if bool_decide (10 ^ Z.of_nat precision ≤ digits) then None
    else if PrimFloat.ltb x 0 then Some (- (JS.ofZ digits / shift))%float
    else Some (JS.ofZ digits / shift)%float.

Definition toInt (x : JS.number) : option JS.number :=
  if PrimFloat.is_nan x then None
  else if PrimFloat.ltb x (-2147483648) || PrimFloat.ltb 2147483647 x then None
  else Some (JS.ofZ (JS.toZ x)).

(** A GUID in the spelling 8-4-4-4-12 of hexadecimal digits. *)
Definition isHex (c : ascii) : bool :=
  let n := nat_of_ascii c in
  bool_decide (48 ≤ n ≤ 57 ∨ 65 ≤ n ≤ 70 ∨ 97 ≤ n ≤ 102)%nat.

Fixpoint isGuidFrom (k : nat) (s : string) : bool :=
  match s with
  | EmptyString => bool_decide (k = 36%nat)
  | String c s' =>
      (if bool_decide (k ∈ [8; 13; 18; 23]%nat) then bool_decide (c = "-"%char) else isHex c)
      && isGuidFrom (S k) s'
  end.

(** A collation that ignores the case of the letters A to Z and, as the
    comparison of the server does, the blanks at the end. *)
Definition lowerCase (c : ascii) : ascii :=
  let n := nat_of_ascii c in
  if bool_decide (65 ≤ n ≤ 90)%nat then ascii_of_nat (n + 32) else c.

Fixpoint caseInsensitive (s : string) : string :=
  match s with
  | EmptyString => EmptyString
  | String c s' =>
      match caseInsensitive s' with
      | EmptyString => if bool_decide (c = " "%char) then EmptyString
                       else String (lowerCase c) EmptyString
      | key => String (lowerCase c) key
      end
  end.

Definition mssql : SqlInput :=
  mkSqlInput
    (λ t x, match t with Int => toInt x | Decimal precision scale => toDecimal precision scale x end)
    (isGuidFrom 0) caseInsensitive (λ _, 0).

(** The ids of the scenario, in capitals as the server returns them. *)
Definition o1 : string := "0B0B0000-0000-4000-8000-000000000001".
Definition o2 : string := "A11CE000-0000-4000-8000-000000000002".
Definition o3 : string := "A11CE000-0000-4000-8000-000000000003".
Definition o404 : string := "00000000-0000-4000-8000-000000000404".
Definition i1 : string := "17E30000-0000-4000-8000-000000000001".
Definition i2 : string := "17E30000-0000-4000-8000-000000000002".
Definition rowId (k : nat) : string := "C0FFEE00-0000-4000-8000-00000000000" +:+ pretty k.
Definition nextId (k : nat) : string := "DECADE00-0000-4000-8000-00000000000" +:+ pretty k.

(** An [email] rule that accepts every string. *)
Definition anyEmail (s : string) : bool := true.

Definition alice : User := mkUser "alice" "alice@example.com" [].
Definition bob : User := mkUser "bob" "bob@example.com" [].
Definition root : User := mkUser "root" "root@example.com" ["admin"].

Definition env : Env :=
  mkEnv 1700000000000 "K3J9Q" (λ k, "uuid-" +:+ pretty k)
    (mkClock rowId 5000 (λ _, 0) None) None false.

Definition bobsRow : OrderRow :=
  mkOrderRow o1 "bob" "bob@example.com" "ORD-1699999990000-AB12C" shipped 25 "USD"
    "1 Main St" "1 Main St" 1000 2000.

Definition bobsItems : list OrderItem :=
  [mkOrderItem i1 o1 "p1" "Widget" 2 10 20;
   mkOrderItem i2 o1 "p2" "Gadget" 1 5 5].

Definition bobsOrder : Order := mkOrder bobsRow bobsItems.

Definition alicesFirst : OrderRow :=
  mkOrderRow o2 "alice" "alice@example.com" "ORD-1699999991000-CD34E" pending 0 "USD"
    "2 High St" "2 High St" 3000 3000.

Definition alicesSecond : OrderRow :=
  mkOrderRow o3 "alice" "alice@example.com" "ORD-1699999992000-EF56G" cancelled 0 "EUR"
    "2 High St" "2 High St" 4000 4500.

Definition world : World :=
  mkWorld (mkDB true true [bobsRow; alicesFirst; alicesSecond] bobsItems) [] [].

Definition item (quantity unitPrice : JS.number) : OrderItemBody :=
  mkOrderItemBody (Some "p1") (Some "Widget") (Some quantity) (Some unitPrice).

Definition line (quantity unitPrice : JS.number) : OrderItemValue :=
  mkOrderItemValue "p1" "Widget" quantity unitPrice.

(** The body of the interface description: no customerId, no
    customerEmail. *)
Definition describedOnly : CreateOrderBody :=
  mkCreateOrderBody None None (Some "2 High St") (Some "2 High St") None
    (Some [item 2 10; item 1 5]).

(** The same body naming a customer, as the schema wants it. *)
Definition namingCustomer : CreateOrderBody :=
  withCustomer (Some "mallory") (Some "mallory@example.com") describedOnly.



(** The order the store returns for [namingCustomer] sent by alice. *)
Definition created : Order :=
  mkOrder
    (mkOrderRow (rowId 0) "alice" "alice@example.com" "ORD-1700000000000-K3J9Q" pending 25
       "USD" "2 High St" "2 High St" 5000 5000)
    [mkOrderItem (rowId 1) (rowId 0) "p1" "Widget" 2 10 20;
     mkOrderItem (rowId 2) (rowId 0) "p1" "Widget" 1 5 5].


(** The world after alice created her order. *)
Definition afterCreate : World :=
  snd (serve mssql anyEmail (mkRequest env (Some alice) (POST_orders namingCustomer))
         world).

(** A later request at the same millisecond that draws the same random
    characters, so that the same order number is generated. *)
Definition sameNumber : Env :=
  mkEnv 1700000000000 "K3J9Q" (λ k, "uuid-" +:+ pretty k)
    (mkClock nextId 6000 (λ _, 0) None) None false.

(** The broker is down. *)
Definition brokerDown : JsError :=
  mkJsError PlainError "ServiceBusError" "The messaging entity could not be reached." false None.

(** A store that is not connected. *)
Definition offline : World := mkWorld (mkDB false false [] []) [] [].

(** The world after alice cancelled her pending order. *)
Definition afterCancel : World :=
  snd (serve mssql anyEmail (mkRequest env (Some alice) (PATCH_cancel o2)) world).

(** An environment that sets JWT_SECRET and SQL_PASSWORD only. *)
Definition processEnv : Config.ProcessEnv :=
  λ key,
    if bool_decide (key = "JWT_SECRET") then Some "s3cret"
    else if bool_decide (key = "SQL_PASSWORD") then Some "pa55word"
    else None.

(** An environment that sets nothing. *)
Definition bareEnv : Config.ProcessEnv := λ _, None.

(** A token verifier that knows one token, signed for alice with the
    secret of [processEnv]. *)
Definition verifier (token secret audience issuer : string) : JsError + Auth.JwtPayload :=
  if bool_decide (token = "alice.jwt") && bool_decide (secret = "s3cret")
     && bool_decide (audience = "ecommerce-api") && bool_decide (issuer = "ecommerce-platform")
  then inr (Auth.mkJwtPayload "alice" "alice@example.com" None)
  else inl (mkJsError PlainError "JsonWebTokenError" "invalid signature" false None).

(** Key Vault cannot be reached. *)
Definition vaultDown : JsError :=
  mkJsError PlainError "RestError" "The vault could not be reached." false None.

(** Alice reads her pending order with her token. *)
Definition alicesRequest : Server.HttpRequest :=
  Server.mkHttpRequest (Some "Bearer alice.jwt") (GET_order o2) env (inl vaultDown).

(** The same request without a token. *)
Definition anonymousRequest : Server.HttpRequest :=
  Server.mkHttpRequest None (GET_order o2) env (inl vaultDown).

(** The service as it starts in [processEnv]. *)
Definition service : Server.Service :=
  Server.mkService (Auth.newAuthService (Config.config processEnv)) world.

(** A database that accepts the connection while Key Vault is down. *)
Definition sqlUp : Connection.Outside :=
  Connection.mkOutside (λ _, inl vaultDown) None None None None None.

End Scenario.

(** ** Lemmas on the handler monad *)

Section Properties.

Variable sqlInput : SqlInput.
Variable joiEmail : string → bool.

Lemma isAdmin_false (user : option User) : nonAdmin user → isAdmin user = false.
Proof.
  intros Hna. destruct user as [u|]; [|done].
  unfold isAdmin, JS.arrayIncludes. apply bool_decide_eq_false. by apply Hna.
Qed.

Lemma isAdmin_true_roles (u : User) : isAdmin (Some u) = true ↔ "admin" ∈ roles u.
Proof. unfold isAdmin, JS.arrayIncludes. apply bool_decide_eq_true. Qed.

(** C4. For every caller whose role set does not include admin, the
    update-order-status operation answers 403 before any store access,
    whatever the request body and the order id: the world (store, log of
    store calls, topic) is left as it was. *)
Theorem update_status_non_admin_forbidden
    (env : Env) (user : option User) (wanted : string) (body : StatusBody) (w : World) :
  nonAdmin user →
  serve sqlInput joiEmail (mkRequest env user (PATCH_status wanted body)) w
  = (mkResponse 403 (ErrorJson "Forbidden" "Admin access required"), w).
Proof.
  intros Hna. apply isAdmin_false in Hna.
  unfold serve, respond, initializeRoutes; simpl.
  unfold updateOrderStatus. rewrite Hna. reflexivity.
Qed.

#[local] Arguments DatabaseService.getOrderById : simpl never.
#[local] Arguments DatabaseService.createOrder : simpl never.
#[local] Arguments DatabaseService.updateOrderStatus : simpl never.
#[local] Arguments DatabaseService.getOrdersByCustomer : simpl never.
#[local] Arguments createOrderSchema : simpl never.
#[local] Arguments queryParamsSchema : simpl never.
#[local] Arguments errorHandler : simpl never.
#[local] Arguments orderData : simpl never.

(** Unfolding a served request down to the handler's steps. *)
Ltac run_handler :=
  unfold serve, respond, initializeRoutes; cbn [req_env req_user req_route];
  unfold getOrders, getOrderById, createOrder, updateOrderStatus, cancelOrder;
  unfold validate, callStore, tryCatch, publish, throw;
  unfold mbind, Handler_bind, mret, Handler_ret.

Lemma falsy_callerId (user : option User) :
  JS.falsy (user_id <$> user) = bool_decide (callerId user = "").
Proof. by destruct user. Qed.

Lemma errorHandler_NotFound (p : bool) (msg : string) :
  errorHandler p (newNotFoundError msg) = mkResponse 404 (ErrorJson "Not Found" msg).
Proof. reflexivity. Qed.

Lemma errorHandler_BadRequest (p : bool) (msg : string) :
  errorHandler p (newBadRequestError msg) = mkResponse 400 (ErrorJson "Bad Request" msg).
Proof. reflexivity. Qed.

Lemma errorHandler_Validation (p : bool) (msg : string) :
  errorHandler p (newValidationError msg) = mkResponse 400 (ErrorJson "Validation Error" msg).
Proof. reflexivity. Qed.

(** C6. For a caller A without the admin role, reading an order that the
    store holds for another customer is answered exactly as reading an id
    under which the store holds nothing: the two responses are equal and
    neither call changes the store; for a caller with a customer id the
    answer is the 404 "Order not found". *)
Theorem get_order_of_other_customer_as_missing
    (env env' : Env) (user : option User) (idB idNone : string) (o : Order) (w : World) :
  nonAdmin user →
  DatabaseService.getOrderById sqlInput idB (dbService w) = inr (Some o) →
  customerId o ≠ callerId user →
  DatabaseService.getOrderById sqlInput idNone (dbService w) = inr None →
  let r1 := serve sqlInput joiEmail (mkRequest env user (GET_order idB)) w in
  let r2 := serve sqlInput joiEmail (mkRequest env' user (GET_order idNone)) w in
  fst r1 = fst r2
  ∧ dbService (snd r1) = dbService w
  ∧ dbService (snd r2) = dbService w
  ∧ (callerId user ≠ "" →
     fst r1 = mkResponse 404 (ErrorJson "Not Found" "Order not found")).
Proof.
  intros Hna HB Hown HN r1 r2. subst r1 r2.
  apply isAdmin_false in Hna.
  run_handler. rewrite falsy_callerId.
  case_bool_decide as Hid.
  - cbn. by rewrite !errorHandler_BadRequest.
  - rewrite HB, HN, Hna. cbn.
    fold (callerId user). rewrite bool_decide_eq_true_2 by done. cbn.
    by rewrite !errorHandler_NotFound.
Qed.

(** C2 (as amended). For an order whose status is cancelled, shipped or
    delivered, the cancel operation fails for every caller (400 or 404)
    and writes nothing: the store and the topic are unchanged and the only
    store call is the read of the order.  When the caller carries a
    customer id and is the owner or an admin, the failure is the 400
    domain error, "Order is already cancelled" in the cancelled case and
    "Cannot cancel shipped or delivered orders" in the two others; when the
    caller carries a customer id and is neither the owner nor an admin, it
    is the 404 "Order not found"; when the request carries no customer id,
    it is the 400 "Customer ID not found in token". *)
Theorem cancel_refused_without_write
    (env : Env) (user : option User) (wanted : string) (o : Order) (w : World) :
  DatabaseService.getOrderById sqlInput wanted (dbService w) = inr (Some o) →
  notCancellable (status o) →
  let r := serve sqlInput joiEmail (mkRequest env user (PATCH_cancel wanted)) w in
  dbService (snd r) = dbService w
  ∧ topic (snd r) = topic w
  ∧ (storeCalls (snd r) = storeCalls w
     ∨ storeCalls (snd r) = storeCalls w ++ [GetOrderByIdCall wanted])
  ∧ (httpStatus (fst r) = 400 ∨ httpStatus (fst r) = 404)
  ∧ (callerId user ≠ "" →
     isAdmin user = true ∨ customerId o = callerId user →
     fst r = mkResponse 400
               (ErrorJson "Bad Request"
                  (if bool_decide (status o = cancelled) then "Order is already cancelled"
                   else "Cannot cancel shipped or delivered orders")))
  ∧ (callerId user ≠ "" →
     isAdmin user = false →
     customerId o ≠ callerId user →
     fst r = mkResponse 404 (ErrorJson "Not Found" "Order not found"))
  ∧ (callerId user = "" →
     fst r = mkResponse 400 (ErrorJson "Bad Request" "Customer ID not found in token")).
Proof.
  intros Hget Hst r. subst r.
  run_handler. rewrite falsy_callerId.
  case_bool_decide as Hid; [cbn; rewrite errorHandler_BadRequest; naive_solver|].
  rewrite Hget. cbn. fold (callerId user).
  destruct (negb (isAdmin user) && bool_decide (customerId o ≠ callerId user)) eqn:Hauth.
  - cbn. rewrite errorHandler_NotFound. cbn.
    split_and!; auto; [|done].
    intros _ [Hadm|Hown]; apply andb_true_iff in Hauth as [Hn Hb].
    + by rewrite Hadm in Hn.
    + by apply bool_decide_eq_true in Hb.
  - assert (isAdmin user = false → customerId o ≠ callerId user → False) as Hwho.
    { intros Hadm Hown. rewrite Hadm in Hauth. cbn in Hauth.
      by apply bool_decide_eq_false in Hauth. }
    assert (bool_decide (status o = cancelled)
            || bool_decide (status o ∈ [shipped; delivered]) = true) as Hrefuse.
    { destruct Hst as [-> | [-> | ->]]; reflexivity. }
    destruct (bool_decide (status o = cancelled)) eqn:Hc; cbn.
    + rewrite errorHandler_BadRequest. cbn. split_and!; auto; [tauto|done].
    + cbn in Hrefuse. rewrite Hrefuse. cbn.
      rewrite errorHandler_BadRequest. cbn. split_and!; auto; [tauto|done].
Qed.

(** ** The store: reading after an update *)

Lemma setStatus_id (clk : Clock) (wanted : string) (s : OrderStatus) (o : OrderRow) :
  id (setStatus clk wanted s o) = id o.
Proof. unfold setStatus. by case_bool_decide. Qed.

Lemma setStatus_other (clk : Clock) (wanted : string) (s : OrderStatus) (o : OrderRow) :
  id o ≠ wanted → setStatus clk wanted s o = o.
Proof. intros Hne. unfold setStatus. by rewrite bool_decide_eq_false_2. Qed.

Lemma setStatus_target (clk : Clock) (wanted : string) (s : OrderStatus) (o : OrderRow) :
  id o = wanted →
  status (setStatus clk wanted s o) = s
  ∧ updatedAt (setStatus clk wanted s o) = GETUTCDATE clk.
Proof. intros Heq. unfold setStatus. by rewrite bool_decide_eq_true_2. Qed.

Lemma setStatus_sameButStatus (clk : Clock) (wanted : string) (s : OrderStatus) (o : OrderRow) :
  sameButStatus o (setStatus clk wanted s o).
Proof. unfold setStatus, sameButStatus. by case_bool_decide. Qed.

Lemma leftJoinItems_setStatus (clk : Clock) (wanted : string) (s : OrderStatus)
    (items : list OrderItem) (o : OrderRow) :
  leftJoinItems sqlInput items (setStatus clk wanted s o)
  = updatedRow clk wanted s <$> leftJoinItems sqlInput items o.
Proof.
  unfold leftJoinItems. rewrite setStatus_id.
  destruct (scan _ _) as [|oi matching]; [done|].
  by rewrite <- list_fmap_compose.
Qed.

Lemma selectOrderWithItems_setStatus (clk : Clock) (wanted : string) (s : OrderStatus)
    (p c : bool) (orders : list OrderRow) (items : list OrderItem) :
  selectOrderWithItems sqlInput (mkDB p c (setStatus clk wanted s <$> orders) items) wanted
  = updatedRow clk wanted s <$> selectOrderWithItems sqlInput (mkDB p c orders items) wanted.
Proof.
  unfold selectOrderWithItems; cbn [Orders OrderItems].
  induction orders as [|o orders IH]; [done|].
  rewrite fmap_cons, !filter_cons, setStatus_id.
  case_decide; [|done].
  rewrite !bind_cons, fmap_app, IH. f_equal.
  apply leftJoinItems_setStatus.
Qed.

Lemma itemOfRow_updatedRow (clk : Clock) (wanted : string) (s : OrderStatus)
    (recordset : list JoinedRow) :
  omap itemOfRow (updatedRow clk wanted s <$> recordset) = omap itemOfRow recordset.
Proof.
  induction recordset as [|r recordset IH]; [done|].
  cbn. rewrite IH. unfold itemOfRow at 1 3. cbn. by rewrite setStatus_id.
Qed.

Lemma leftJoinItems_nonempty (items : list OrderItem) (o : OrderRow) :
  leftJoinItems sqlInput items o ≠ [].
Proof. unfold leftJoinItems. by destruct (scan _ _). Qed.

Lemma selectOrderWithItems_nil (db : DB) (wanted : string) :
  selectOrderWithItems sqlInput db wanted = [] → Forall (λ o, id o ≠ wanted) (Orders db).
Proof.
  unfold selectOrderWithItems. induction (Orders db) as [|o orders IH]; [constructor|].
  rewrite filter_cons. case_decide as Hid.
  - rewrite bind_cons. intros Happ. apply app_eq_nil in Happ as [Hjoin _].
    by apply leftJoinItems_nonempty in Hjoin.
  - intros Hnil. constructor; auto.
Qed.

Lemma setStatus_absent (clk : Clock) (wanted : string) (s : OrderStatus)
    (orders : list OrderRow) :
  Forall (λ o, id o ≠ wanted) orders → setStatus clk wanted s <$> orders = orders.
Proof.
  induction 1 as [|o orders Hne _ IH]; [done|].
  by rewrite fmap_cons, IH, setStatus_other.
Qed.

(** [getOrderById] on a store that answers, by its record set. *)
Lemma getOrderById_connected (wanted : string) (db : DB) :
  answers sqlInput wanted db →
  DatabaseService.getOrderById sqlInput wanted db
  = match selectOrderWithItems sqlInput db wanted with
    | [] => inr None
    | first :: rest =>
        inr (Some (mkOrder (row_order first) (omap itemOfRow (first :: rest))))
    end.
Proof.
  intros (Hpool & Hconn & Hguid). unfold DatabaseService.getOrderById.
  rewrite Hpool, Hconn, Hguid.
  by destruct (selectOrderWithItems sqlInput db wanted).
Qed.

Lemma getOrderById_inr_connected (wanted : string) (db : DB) (r : option Order) :
  DatabaseService.getOrderById sqlInput wanted db = inr r → answers sqlInput wanted db.
Proof.
  unfold DatabaseService.getOrderById, answers.
  by destruct (pool db), (connected db), (uniqueIdentifier sqlInput wanted).
Qed.

(** When the store does not answer, the error is the same for a read and
    for an update, which then changes nothing. *)
Lemma updateOrderStatus_inl (clk : Clock) (wanted : string) (s : OrderStatus) (db : DB)
    (e : JsError) :
  DatabaseService.getOrderById sqlInput wanted db = inl e →
  DatabaseService.updateOrderStatus sqlInput clk wanted s db = (inl e, db).
Proof.
  unfold DatabaseService.updateOrderStatus, DatabaseService.getOrderById.
  destruct (pool db), (connected db), (uniqueIdentifier sqlInput wanted); cbn;
    try (by intros [= <-]).
  by destruct (selectOrderWithItems sqlInput db wanted).
Qed.

(** The order read under an id carries that id. *)
Lemma getOrderById_id (wanted : string) (db : DB) (o : Order) :
  DatabaseService.getOrderById sqlInput wanted db = inr (Some o) → id o = wanted.
Proof.
  intros Hget. pose proof (getOrderById_inr_connected _ _ _ Hget) as Hpool.
  rewrite getOrderById_connected in Hget by done.
  destruct (selectOrderWithItems sqlInput db wanted) as [|first recordset] eqn:Hsel; [done|].
  injection Hget as <-.
  assert (first ∈ selectOrderWithItems sqlInput db wanted) as Hin by (rewrite Hsel; left).
  unfold selectOrderWithItems in Hin.
  apply list_elem_of_bind in Hin as (row & Hjoin & Hrow).
  apply list_elem_of_filter in Hrow as [Hid _].
  unfold leftJoinItems in Hjoin.
  destruct (scan _ _).
  - by apply list_elem_of_singleton in Hjoin as ->.
  - by apply list_elem_of_fmap in Hjoin as (oi & -> & _).
Qed.

(** What [updateOrderStatus] returns and leaves behind, from what
    [getOrderById] returned before. *)
Lemma updateOrderStatus_found (clk : Clock) (wanted : string) (s : OrderStatus)
    (db : DB) (o : Order) :
  DatabaseService.getOrderById sqlInput wanted db = inr (Some o) →
  let o' := mkOrder (setStatus clk wanted s o) (orderItems o) in
  DatabaseService.updateOrderStatus sqlInput clk wanted s db
  = (inr (Some o'), updated clk wanted s db)
  ∧ DatabaseService.getOrderById sqlInput wanted (updated clk wanted s db) = inr (Some o').
Proof.
  intros Hget o'.
  pose proof (getOrderById_inr_connected _ _ _ Hget) as Hans.
  assert (DatabaseService.getOrderById sqlInput wanted (updated clk wanted s db)
          = inr (Some o')) as Hafter.
  { rewrite getOrderById_connected in Hget |- * by done.
    unfold updated. rewrite selectOrderWithItems_setStatus.
    replace (mkDB (pool db) (connected db) (Orders db) (OrderItems db)) with db
      by by destruct db.
    destruct (selectOrderWithItems sqlInput db wanted) as [|first recordset]; [done|].
    injection Hget as <-.
    rewrite fmap_cons, <- fmap_cons, itemOfRow_updatedRow. done. }
  split; [|done].
  destruct Hans as (Hpool & Hconn & Hguid).
  unfold DatabaseService.updateOrderStatus.
  replace (negb (pool db)) with false by by rewrite Hpool.
  replace (negb (connected db)) with false by by rewrite Hconn.
  rewrite Hguid. cbn [negb]. fold (updated clk wanted s db). by rewrite Hafter.
Qed.

Lemma updateOrderStatus_missing (clk : Clock) (wanted : string) (s : OrderStatus) (db : DB) :
  DatabaseService.getOrderById sqlInput wanted db = inr None →
  DatabaseService.updateOrderStatus sqlInput clk wanted s db = (inr None, db).
Proof.
  intros Hget.
  pose proof (getOrderById_inr_connected _ _ _ Hget) as Hans.
  unfold DatabaseService.updateOrderStatus.
  assert (setStatus clk wanted s <$> Orders db = Orders db) as ->.
  { rewrite getOrderById_connected in Hget by done.
    destruct (selectOrderWithItems sqlInput db wanted) eqn:Hsel; [|done].
    by apply setStatus_absent, selectOrderWithItems_nil. }
  replace (mkDB (pool db) (connected db) (Orders db) (OrderItems db)) with db
    by by destruct db.
  destruct Hans as (Hpool & Hconn & Hguid).
  by rewrite Hpool, Hconn, Hguid, Hget.
Qed.

Lemma isAdmin_true (user : option User) : hasAdminRole user → isAdmin user = true.
Proof. intros (u & -> & Hin). by apply isAdmin_true_roles. Qed.

Lemma statusOfString_statusName (s : OrderStatus) : statusOfString (statusName s) = Some s.
Proof. by destruct s. Qed.

(** C8. The admin-only set-status operation takes an order in any current
    status (no check of the current status, no forward-only order) to any
    of the five enumerated statuses.  On what the store answers to a read
    under the id: when it holds an order, the answer is 200 with the order
    as it is now stored, its status the requested one, its update time the
    store's clock and nothing else changed; when it holds nothing, the
    answer is the 404 "Order not found" and the store is unchanged; when
    the read throws (no pool, no connection, an id the driver does not take
    for a GUID), the update throws the same error, the answer is the error
    handler's answer to it and the store is unchanged. *)
Theorem admin_sets_any_status
    (env : Env) (user : option User) (wanted : string) (s : OrderStatus) (w : World) :
  hasAdminRole user →
  let r := serve sqlInput joiEmail
             (mkRequest env user (PATCH_status wanted (mkStatusBody (Some (statusName s))))) w in
  match DatabaseService.getOrderById sqlInput wanted (dbService w) with
  | inr (Some o) =>
      ∃ o' : Order,
        fst r = mkResponse 200 (OrderJson (Some o'))
        ∧ status o' = s
        ∧ updatedAt o' = GETUTCDATE (clock env)
        ∧ sameButStatus o o'
        ∧ orderItems o' = orderItems o
        ∧ DatabaseService.getOrderById sqlInput wanted (dbService (snd r)) = inr (Some o')
  | inr None =>
      fst r = mkResponse 404 (ErrorJson "Not Found" "Order not found")
      ∧ dbService (snd r) = dbService w
  | inl e =>
      fst r = errorHandler (production env) e
      ∧ dbService (snd r) = dbService w
  end.
Proof.
  intros Hadmin r. subst r. apply isAdmin_true in Hadmin.
  run_handler. rewrite Hadmin. cbn [negb].
  unfold updateOrderStatusSchema. cbn [body_status].
  rewrite statusOfString_statusName.
  destruct (DatabaseService.getOrderById sqlInput wanted (dbService w)) as [e|[o|]] eqn:Hget.
  - by rewrite (updateOrderStatus_inl _ _ _ _ _ Hget).
  - pose proof (getOrderById_id _ _ _ Hget) as Hid.
    destruct (updateOrderStatus_found (clock env) wanted s _ _ Hget) as [Hupd Hafter].
    rewrite Hupd.
    exists (mkOrder (setStatus (clock env) wanted s o) (orderItems o)).
    destruct (setStatus_target (clock env) wanted s o Hid) as [Hs Ht].
    pose proof (setStatus_sameButStatus (clock env) wanted s o) as Hsame.
    unfold publishOrderEvent. destruct (sendMessages env); cbn; done.
  - rewrite (updateOrderStatus_missing _ _ _ _ Hget). cbn.
    by rewrite errorHandler_NotFound.
Qed.

(** ** The store: what a write leaves untouched *)






(** ** Listing the orders of a customer *)

#[local] Instance orderedBy_transitive (clk : Clock) : Transitive (orderedBy clk).
Proof. intros a b c. unfold orderedBy. lia. Qed.

#[local] Instance orderedBy_total (clk : Clock) : Total (orderedBy clk).
Proof. intros a b. unfold orderedBy. lia. Qed.

Lemma StronglySorted_take_drop {A : Type} (R : relation A) (n m : nat) (l : list A) :
  StronglySorted R l → StronglySorted R (take n (drop m l)).
Proof.
  intros Hl.
  assert (StronglySorted R (drop m l)) as Hd.
  { rewrite <- (take_drop m l) in Hl. by apply StronglySorted_app_1_r in Hl. }
  rewrite <- (take_drop n (drop m l)) in Hd. by apply StronglySorted_app_1_l in Hd.
Qed.

Lemma StronglySorted_weaken {A : Type} (R S : relation A) (l : list A) :
  (∀ a b, R a b → S a b) → StronglySorted R l → StronglySorted S l.
Proof.
  intros HRS. induction 1 as [|a l Hl IH Hall]; constructor; [done|].
  eapply Forall_impl; [exact Hall|]. intros b. apply HRS.
Qed.

(** The orders of a page are its rows, each with the item rows that refer
    to it. *)
Lemma withItems_inr (db : DB) (rows : list OrderRow) (orders : list Order) :
  withItems sqlInput db rows = inr orders → orders = orderOfRow sqlInput db <$> rows.
Proof.
  revert orders. induction rows as [|row rows IH]; intros orders; cbn.
  - by intros [= <-].
  - unfold selectItems. destruct (negb (uniqueIdentifier sqlInput (id row))); [done|].
    destruct (withItems sqlInput db rows) as [e|os]; [done|].
    intros [= <-]. by rewrite (IH os).
Qed.

Lemma fmap_order_row (db : DB) (rows : list OrderRow) :
  order_row <$> (orderOfRow sqlInput db <$> rows) = rows.
Proof. induction rows as [|o rows IH]; [done|]. rewrite !fmap_cons, IH. done. Qed.

(** What the store returns for a page, whatever the page and its size. *)
Lemma getOrdersByCustomer_inr (clk : Clock) (customer : string) (page pageSize : JS.number)
    (db : DB) (orders : list Order) (totalCount : Z) :
  DatabaseService.getOrdersByCustomer sqlInput clk customer page pageSize db
  = inr (orders, totalCount) →
  Forall (λ o : Order, sameText sqlInput (customerId o) customer ∧ order_row o ∈ Orders db)
    orders
  ∧ StronglySorted newerFirst (order_row <$> orders)
  ∧ totalCount = Z.of_nat (length (ordersOf sqlInput customer db))
  ∧ orders = orderOfRow sqlInput db <$> (order_row <$> orders)
  ∧ (∀ fetch, sqlInput Int pageSize = Some fetch → Z.of_nat (length orders) ≤ JS.toZ fetch).
Proof.
  unfold DatabaseService.getOrdersByCustomer.
  destruct (negb (pool db)); [done|]. destruct (negb (connected db)); [done|].
  destruct (sqlInput Int ((page - 1) * pageSize)%float) as [offset|]; [|done].
  destruct (sqlInput Int pageSize) as [fetch|]; [|done].
  case_bool_decide as Hrange; [done|].
  fold (ordersOf sqlInput customer db).
  destruct (withItems sqlInput db _) as [e|os] eqn:Hitems; [done|].
  intros [= <- <-]. apply withItems_inr in Hitems as ->.
  rewrite fmap_order_row.
  split_and!; [| |done|done|].
  - apply Forall_fmap, Forall_take, Forall_drop. rewrite merge_sort_Permutation.
    apply Forall_forall. intros o Ho. cbn.
    by apply list_elem_of_filter in Ho.
  - apply StronglySorted_take_drop.
    apply (StronglySorted_weaken (orderedBy clk)); [unfold orderedBy, newerFirst; lia|].
    apply StronglySorted_merge_sort; apply _.
  - intros ? [= <-]. rewrite length_fmap, length_take. lia.
Qed.

(** The query parameters the schema lets through. *)
Lemma queryParamsSchema_inr (query : Query) (page pageSize : Z) :
  queryParamsSchema query = inr (page, pageSize) →
  1 ≤ page ≤ 9007199254740991 ∧ 1 ≤ pageSize ≤ 100.
Proof.
  unfold queryParamsSchema, integerParam, mbind, Validated_bind, mret, Validated_ret.
  intros Hq. repeat case_match; simplify_eq; repeat case_bool_decide; lia.
Qed.



(** ** The notifier *)

Lemma app_singleton_neq {A : Type} (l : list A) (x : A) : l ≠ l ++ [x].
Proof.
  intros Heq. apply (f_equal length) in Heq. rewrite length_app in Heq. cbn in Heq. lia.
Qed.

Lemma orderData_withBroker (answer : option JsError) (env : Env) (user : option User)
    (value : CreateOrderValue) :
  orderData (withBroker answer env) user value = orderData env user value.
Proof. reflexivity. Qed.

(** C3. Whatever the route, a publish that throws leaves the answer, the
    store and the store calls exactly as a publish that succeeds does; the
    only difference is that the topic received nothing.  In particular,
    when create-order reached the store and the store transaction
    succeeded, the answer is 201 with the created order although the
    publish threw. *)
Theorem publish_failure_is_swallowed
    (env : Env) (e : JsError) (user : option User) (route : Route) (w : World) :
  let failing := serve sqlInput joiEmail (mkRequest (withBroker (Some e) env) user route) w in
  let working := serve sqlInput joiEmail (mkRequest (withBroker None env) user route) w in
  fst failing = fst working
  ∧ dbService (snd failing) = dbService (snd working)
  ∧ storeCalls (snd failing) = storeCalls (snd working)
  ∧ topic (snd failing) = topic w
  ∧ (∀ (body : CreateOrderBody) (orderData : NewOrder) (created : option Order) (db' : DB),
       route = POST_orders body →
       storeCalls (snd failing) = storeCalls w ++ [CreateOrderCall orderData] →
       DatabaseService.createOrder sqlInput (clock env) orderData (dbService w)
       = (inr created, db') →
       fst failing = mkResponse 201 (OrderJson created) ∧ dbService (snd failing) = db').
Proof.
  intros failing working. subst failing working.
  destruct route as [query|wanted|body|wanted body|wanted]; run_handler;
    cbn [withBroker production clock sendMessages dateNow randomSuffix uuidv4].
  - repeat case_match; simplify_eq/=; done.
  - repeat case_match; simplify_eq/=; done.
  - destruct (createOrderSchema joiEmail body) as [msg|value].
    { cbn. split_and!; try done.
      intros ???? _ Hcalls. by apply app_singleton_neq in Hcalls. }
    cbn. destruct (JS.falsy _ || JS.falsy _).
    { cbn. split_and!; try done.
      intros ???? _ Hcalls. by apply app_singleton_neq in Hcalls. }
    rewrite !orderData_withBroker.
    match goal with
    | |- context [DatabaseService.createOrder sqlInput ?c ?o ?d] =>
        destruct (DatabaseService.createOrder sqlInput c o d) as [[err|created] db1] eqn:Hstore
    end; cbn.
    + split_and!; try done.
      intros ???? _ Hcalls Hok. apply app_inj_tail in Hcalls as [_ [= <-]].
      rewrite Hstore in Hok. done.
    + destruct created as [o|]; cbn.
      all: split_and!; try done.
      all: intros ???? _ Hcalls Hok; apply app_inj_tail in Hcalls as [_ [= <-]].
      all: rewrite Hstore in Hok; by injection Hok as <- <-.
  - destruct (negb (isAdmin user)); [done|].
    destruct (updateOrderStatusSchema body) as [msg|newStatus]; [done|].
    cbn. destruct (DatabaseService.updateOrderStatus sqlInput _ _ _ _) as [[err|[o|]] db1]; done.
  - destruct (JS.falsy _); [done|].
    destruct (DatabaseService.getOrderById sqlInput wanted (dbService w)) as [err|[o|]]; try done.
    cbn. destruct (negb (isAdmin user) && bool_decide _); [done|].
    destruct (bool_decide (status o = cancelled)); [done|].
    destruct (bool_decide (status o ∈ _)); [done|].
    cbn. destruct (DatabaseService.updateOrderStatus sqlInput _ _ _ _) as [[err|[o'|]] db1]; done.
Qed.

(** ** The store: creating an order *)

Lemma insertItem_inr (clk : Clock) (k : nat) (createdId : string) (item : OrderItem)
    (tbl tbl' : list OrderItem) :
  insertItem sqlInput clk k createdId item tbl = inr tbl' →
  ∃ row, tbl' = tbl ++ [row] ∧ keptItem sqlInput createdId item row
         ∧ item_id row = NEWID clk k ∧ NEWID clk k ∉ item_id <$> tbl.
Proof.
  unfold insertItem. intros Hins.
  destruct (negb (uniqueIdentifier sqlInput createdId)); [done|].
  destruct (sqlInput Int (quantity item)) as [q|] eqn:Hq; [|done].
  destruct (sqlInput (Decimal 10 2) (unitPrice item)) as [up|] eqn:Hup; [|done].
  destruct (sqlInput (Decimal 10 2) (totalPrice item)) as [tp|] eqn:Htp; [|done].
  cbn [item_id productId productName] in Hins.
  destruct (negb _); [done|].
  case_bool_decide as Hfresh; [done|].
  injection Hins as <-. eexists. split; [done|].
  unfold keptItem. cbn. by rewrite Hq, Hup, Htp.
Qed.

Lemma insertItems_inr (clk : Clock) (createdId : string) (items : list OrderItem) :
  ∀ (k : nat) (tbl tbl' : list OrderItem),
    insertItems sqlInput clk k createdId items tbl = inr tbl' →
    ∃ rows, tbl' = tbl ++ rows ∧ Forall2 (keptItem sqlInput createdId) items rows.
Proof.
  induction items as [|item items IH]; intros k tbl tbl' Hins; cbn in Hins.
  - injection Hins as <-. exists []. by rewrite app_nil_r.
  - destruct (insertItem sqlInput clk k createdId item tbl) as [e|tbl1] eqn:Hone; [done|].
    apply insertItem_inr in Hone as (row & -> & Hkept & _).
    apply IH in Hins as (rows & -> & Hrows).
    exists (row :: rows). rewrite <- app_assoc. split; [done|]. by constructor.
Qed.

Lemma fits_le (n : nat) (s : string) : (JS.length s ≤ n)%nat → fits n s = true.
Proof. intros Hle. unfold fits. by apply bool_decide_eq_true. Qed.

Lemma insertItems_takes (clk : Clock) (createdId : string) (items : list OrderItem) :
  ∀ (k : nat) (tbl : list OrderItem),
    uniqueIdentifier sqlInput createdId = true →
    Forall (acceptedItem sqlInput) items →
    NoDup (NEWID clk <$> seq k (length items)) →
    Forall (λ j, NEWID clk j ∉ item_id <$> tbl) (seq k (length items)) →
    ∃ tbl', insertItems sqlInput clk k createdId items tbl = inr tbl'.
Proof.
  induction items as [|item items IH]; intros k tbl Hguid Hacc Hnodup Hfresh; cbn.
  - by eexists.
  - apply Forall_cons in Hacc as [(Hq & Hup & Htp & Hpid & Hname) Hacc].
    cbn in Hnodup, Hfresh.
    apply NoDup_cons in Hnodup as [Hk Hnodup].
    apply Forall_cons in Hfresh as [Hfk Hfresh].
    unfold insertItem. rewrite Hguid.
    destruct Hq as [q ->], Hup as [up ->], Htp as [tp ->].
    cbn [negb item_id productId productName].
    rewrite !fits_le by done. cbn [andb negb].
    rewrite bool_decide_eq_false_2 by done.
    apply IH; [done|done|done|].
    apply Forall_forall. intros j Hj.
    rewrite fmap_app, elem_of_app. cbn.
    intros [Hin|Hin].
    + by eapply Forall_forall in Hfresh.
    + apply list_elem_of_singleton in Hin. apply Hk.
      rewrite <- Hin. by apply list_elem_of_fmap_2.
Qed.

Lemma filter_none {A : Type} (P : A → Prop) `{!∀ x, Decision (P x)} (l : list A) :
  (∀ x, x ∈ l → ¬ P x) → filter P l = [].
Proof.
  induction l as [|x l IH]; intros Hnone; [done|].
  rewrite filter_cons_False by (apply Hnone; left).
  apply IH. intros y Hy. apply Hnone. by right.
Qed.

Lemma filter_all {A : Type} (P : A → Prop) `{!∀ x, Decision (P x)} (l : list A) :
  Forall P l → filter P l = l.
Proof.
  induction 1 as [|x l Hx _ IH]; [done|]. by rewrite filter_cons_True, IH.
Qed.

(** The items read back with an order are the item rows that refer to it,
    as the server returns them. *)
Lemma itemOfRow_leftJoinItems (items : list OrderItem) (o : OrderRow) :
  omap itemOfRow (leftJoinItems sqlInput items o)
  = scan sqlInput (filter (λ oi, orderId oi = id o) items).
Proof.
  unfold leftJoinItems.
  assert (Forall (λ oi, orderId oi = id o)
            (scan sqlInput (filter (λ oi, orderId oi = id o) items))) as Hall.
  { unfold scan. rewrite merge_sort_Permutation.
    apply Forall_forall. intros oi Hoi. by apply list_elem_of_filter in Hoi as [? _]. }
  destruct (scan sqlInput (filter (λ oi, orderId oi = id o) items)) as [|oi matching];
    [done|].
  induction Hall as [|oi' rest Hoi' _ IH]; [done|].
  rewrite fmap_cons. cbn [omap list_omap]. rewrite IH.
  unfold itemOfRow. cbn. rewrite <- Hoi'. by destruct oi'.
Qed.

Lemma leftJoinItems_first (items : list OrderItem) (o : OrderRow) (first : JoinedRow)
    (rest : list JoinedRow) :
  leftJoinItems sqlInput items o = first :: rest → row_order first = o.
Proof.
  intros Hjoin.
  assert (first ∈ leftJoinItems sqlInput items o) as Hin by (rewrite Hjoin; left).
  unfold leftJoinItems in Hin. destruct (scan _ _).
  - by apply list_elem_of_singleton in Hin as ->.
  - by apply list_elem_of_fmap in Hin as (oi & -> & _).
Qed.

(** Reading a row under an id that no other row carries. *)
Lemma getOrderById_fresh (row : OrderRow) (orders : list OrderRow) (items : list OrderItem) :
  id row ∉ id <$> orders →
  uniqueIdentifier sqlInput (id row) = true →
  DatabaseService.getOrderById sqlInput (id row) (mkDB true true (orders ++ [row]) items)
  = inr (Some (mkOrder row (scan sqlInput (filter (λ oi, orderId oi = id row) items)))).
Proof.
  intros Hfresh Hguid. rewrite getOrderById_connected by done.
  unfold selectOrderWithItems. cbn [Orders OrderItems].
  rewrite filter_app, filter_none, (filter_singleton_True _ _ []); [|done|].
  - rewrite app_nil_l, bind_cons.
    change (@nil OrderRow ≫= leftJoinItems sqlInput items) with (@nil JoinedRow).
    rewrite app_nil_r.
    pose proof (itemOfRow_leftJoinItems items row) as Hitems.
    pose proof (leftJoinItems_nonempty items row) as Hne.
    destruct (leftJoinItems sqlInput items row) as [|first rest] eqn:Hjoin; [done|].
    rewrite Hitems. do 3 f_equal.
    by eapply leftJoinItems_first.
  - intros o Ho Hid. apply Hfresh. rewrite <- Hid. by apply list_elem_of_fmap_2.
Qed.

Lemma insertOrder_inr (clk : Clock) (order : NewOrder) (tbl tbl' : list OrderRow)
    (row : OrderRow) :
  insertOrder sqlInput clk order tbl = inr (row, tbl') →
  tbl' = tbl ++ [row] ∧ keptOrder sqlInput clk order row
  ∧ (id row ∉ id <$> tbl)
  ∧ Forall (λ o, ¬ sameText sqlInput (orderNumber o) (orderNumber row)) tbl.
Proof.
  unfold insertOrder. intros Hins.
  destruct (sqlInput (Decimal 10 2) (new_totalAmount order)) as [total|] eqn:Htotal; [|done].
  cbn [id orderNumber customerId customerEmail currency] in Hins.
  destruct (negb _); [done|].
  case_bool_decide as Hpk; [done|]. case_bool_decide as Huq; [done|].
  injection Hins as <- <-. unfold keptOrder. cbn. rewrite Htotal.
  split_and!; try done.
  apply Forall_forall. intros o Ho Hsame. apply Huq, Exists_exists. by exists o.
Qed.

(** A row whose order number the server tells apart from those of a table
    carries none of the table's numbers. *)
Lemma sameText_fresh (row : OrderRow) (tbl : list OrderRow) :
  Forall (λ o, ¬ sameText sqlInput (orderNumber o) (orderNumber row)) tbl →
  orderNumber row ∉ orderNumber <$> tbl.
Proof.
  intros Hall Hin. apply list_elem_of_fmap in Hin as (o & Hnum & Ho).
  eapply Forall_forall in Hall; [|exact Ho]. apply Hall. unfold sameText. by rewrite Hnum.
Qed.

(** What [createOrder] leaves behind, whatever it returns: the store as it
    was, with an error; or, once the transaction is committed, the order
    row and one item row for each item handed in, and what the read of the
    new order answers (an error of that read is thrown, after the
    rollback that the [catch] block attempts). *)
Lemma createOrder_outcome (clk : Clock) (order : NewOrder) (db db' : DB)
    (r : JsError + option Order) :
  DatabaseService.createOrder sqlInput clk order db = (r, db') →
  (db' = db ∧ ∃ e, r = inl e)
  ∨ ∃ (row : OrderRow) (rows : list OrderItem),
      db' = mkDB true true (Orders db ++ [row]) (OrderItems db ++ rows)
      ∧ keptOrder sqlInput clk order row
      ∧ Forall2 (keptItem sqlInput (id row)) (new_orderItems order) rows
      ∧ (id row ∉ id <$> Orders db)
      ∧ Forall (λ o, ¬ sameText sqlInput (orderNumber o) (orderNumber row)) (Orders db)
      ∧ r = match DatabaseService.getOrderById sqlInput (id row) db' with
            | inl e => inl (rolledBack clk e)
            | inr completeOrder => inr completeOrder
            end.
Proof.
  unfold DatabaseService.createOrder.
  destruct (pool db) eqn:Hpool; cbn [negb]; [|intros [= <- <-]; left; eauto].
  destruct (connected db) eqn:Hconn; cbn [negb]; [|intros [= <- <-]; left; eauto].
  destruct (insertOrder sqlInput clk order (Orders db)) as [e|[row orders']] eqn:Hrow;
    [intros [= <- <-]; left; eauto|].
  destruct (insertItems sqlInput clk 1 (id row) (new_orderItems order) (OrderItems db))
    as [e|items'] eqn:Hitems; [intros [= <- <-]; left; eauto|].
  apply insertOrder_inr in Hrow as (-> & Hkept & Hpk & Huq).
  apply insertItems_inr in Hitems as (rows & -> & Hrows).
  intros Hc. right. exists row, rows.
  destruct (DatabaseService.getOrderById sqlInput (id row) _) as [e|completeOrder] eqn:Hget;
    injection Hc as <- <-; rewrite Hget; by split_and!.
Qed.

Lemma keptItem_orderId (createdId : string) (items rows : list OrderItem) :
  Forall2 (keptItem sqlInput createdId) items rows →
  Forall (λ oi, orderId oi = createdId) rows.
Proof. induction 1 as [|item oi items rows [Hoi _] _ IH]; by constructor. Qed.

(** What a successful [createOrder] returns and leaves behind. *)
Lemma createOrder_inr (clk : Clock) (order : NewOrder) (db db' : DB)
    (created : option Order) :
  DatabaseService.createOrder sqlInput clk order db = (inr created, db') →
  ∃ (row : OrderRow) (rows : list OrderItem),
    created = Some (mkOrder row
                      (scan sqlInput
                         (filter (λ oi, orderId oi = id row) (OrderItems db) ++ rows)))
    ∧ db' = mkDB true true (Orders db ++ [row]) (OrderItems db ++ rows)
    ∧ keptOrder sqlInput clk order row
    ∧ Forall2 (keptItem sqlInput (id row)) (new_orderItems order) rows
    ∧ (id row ∉ id <$> Orders db)
    ∧ (orderNumber row ∉ orderNumber <$> Orders db)
    ∧ uniqueIdentifier sqlInput (id row) = true.
Proof.
  intros Hc.
  apply createOrder_outcome in Hc
    as [[_ [e [=]]]|(row & rows & -> & Hkept & Hrows & Hpk & Huq & Hr)].
  destruct (DatabaseService.getOrderById sqlInput (id row) _) as [e|c] eqn:Hget; [done|].
  injection Hr as ->.
  destruct (getOrderById_inr_connected _ _ _ Hget) as (_ & _ & Hguid).
  rewrite getOrderById_fresh in Hget by done. injection Hget as <-.
  exists row, rows. split_and!; try done; [|by apply sameText_fresh].
  rewrite filter_app. do 4 f_equal.
  apply filter_all. by eapply keptItem_orderId.
Qed.

(** Enough for [createOrder] to succeed. *)
Lemma createOrder_takes (clk : Clock) (order : NewOrder) (db : DB) :
  storeTakes sqlInput clk order db →
  ∃ (o : Order) (db' : DB),
    DatabaseService.createOrder sqlInput clk order db = (inr (Some o), db').
Proof.
  intros (Hpool & Hconn & Hpk & Hguid & Huq & Hcid & Hmail & Hnum & Hcur & [total Htotal]
          & Hacc & Hnodup & Hfresh).
  unfold DatabaseService.createOrder. rewrite Hpool, Hconn. cbn [negb].
  unfold insertOrder. rewrite Htotal.
  cbn [id orderNumber customerId customerEmail currency].
  rewrite !fits_le by done. cbn [andb negb].
  rewrite bool_decide_eq_false_2 by done.
  rewrite bool_decide_eq_false_2.
  2:{ intros (o & Ho & Hsame)%Exists_exists. eapply Forall_forall in Huq; [|exact Ho]. done. }
  destruct (insertItems_takes clk (NEWID clk 0) (new_orderItems order) 1 (OrderItems db)
              Hguid Hacc Hnodup Hfresh) as [items' Hitems].
  cbn [id]. rewrite Hitems.
  match goal with
  | |- context [DatabaseService.getOrderById sqlInput _ (mkDB _ _ (_ ++ [?r]) _)] =>
      pose proof (getOrderById_fresh r (Orders db) items' Hpk Hguid) as Hget
  end.
  cbn [id] in Hget. rewrite Hget. by eexists _, _.
Qed.

(** ** Order numbers *)

Lemma distinctOrderNumbers_NoDup (db : DB) :
  distinctOrderNumbers db ↔ NoDup (orderNumber <$> Orders db).
Proof.
  unfold distinctOrderNumbers. rewrite NoDup_alt. split.
  - intros Hdist i j n Hi Hj. rewrite list_lookup_fmap in Hi, Hj.
    destruct (Orders db !! i) as [o1|] eqn:H1; [|done].
    destruct (Orders db !! j) as [o2|] eqn:H2; [|done].
    destruct (decide (i = j)) as [|Hne]; [done|].
    exfalso. apply (Hdist i j o1 o2 H1 H2 Hne). cbn in Hi, Hj. congruence.
  - intros Hnodup i j o1 o2 H1 H2 Hne Heq. apply Hne.
    apply (Hnodup i j (orderNumber o1)); rewrite list_lookup_fmap.
    + by rewrite H1.
    + by rewrite H2, Heq.
Qed.

Lemma uniqueOrderNumbers_distinct (db : DB) :
  uniqueOrderNumbers sqlInput db → distinctOrderNumbers db.
Proof. intros Huq. by apply distinctOrderNumbers_NoDup, (NoDup_fmap_1 (collation sqlInput)). Qed.

Lemma createOrder_orderNumbers (clk : Clock) (order : NewOrder) (db : DB) :
  uniqueOrderNumbers sqlInput db →
  uniqueOrderNumbers sqlInput (snd (DatabaseService.createOrder sqlInput clk order db)).
Proof.
  intros Hnodup.
  destruct (DatabaseService.createOrder sqlInput clk order db) as [r db'] eqn:Hc.
  apply createOrder_outcome in Hc as [[-> _]|(row & rows & -> & _ & _ & _ & Hfresh & _)];
    [done|].
  unfold uniqueOrderNumbers. cbn. rewrite !fmap_app. apply NoDup_app. split; [done|].
  split; [|apply NoDup_singleton].
  intros n Hn Hrow. apply list_elem_of_singleton in Hrow as ->.
  apply list_elem_of_fmap in Hn as (num & Hnum & Hin).
  apply list_elem_of_fmap in Hin as (o & -> & Ho).
  eapply Forall_forall in Hfresh; [|exact Ho]. by apply Hfresh.
Qed.

Lemma updateOrderStatus_orderNumbers (clk : Clock) (wanted : string) (s : OrderStatus)
    (db : DB) :
  orderNumber <$> Orders (snd (DatabaseService.updateOrderStatus sqlInput clk wanted s db))
  = orderNumber <$> Orders db.
Proof.
  unfold DatabaseService.updateOrderStatus.
  destruct (negb (pool db)); [done|]. destruct (negb (connected db)); [done|].
  destruct (negb (uniqueIdentifier sqlInput wanted)); [done|].
  cbn. rewrite <- list_fmap_compose. apply list_fmap_ext.
  intros i o _. cbn. by destruct (setStatus_sameButStatus clk wanted s o) as (_&_&_&?&_).
Qed.

(** What serving a request does to the store: nothing, or one write. *)
Lemma serve_store (req : Request) (w : World) :
  dbService (snd (serve sqlInput joiEmail req w)) = dbService w
  ∨ ∃ op, dbService (snd (serve sqlInput joiEmail req w)) = applyWrite sqlInput (dbService w) op.
Proof.
  destruct req as [env user [query|wanted|body|wanted body|wanted]]; run_handler.
  - left. repeat case_match; by simplify_eq/=.
  - left. repeat case_match; by simplify_eq/=.
  - destruct (createOrderSchema joiEmail body) as [msg|value]; [by left|].
    cbn. destruct (JS.falsy _ || JS.falsy _); [by left|].
    right. exists (CreateOrderWrite (clock env) (orderData env user value)). cbn.
    destruct (DatabaseService.createOrder _ _ _ _) as [[e|created] db']; [done|].
    cbn. unfold publishOrderEvent. repeat case_match; by simplify_eq/=.
  - destruct (negb (isAdmin user)); [by left|].
    destruct (updateOrderStatusSchema body) as [msg|newStatus]; [by left|].
    right. exists (UpdateOrderStatusWrite (clock env) wanted newStatus). cbn.
    destruct (DatabaseService.updateOrderStatus sqlInput _ _ _ _) as [[e|[o|]] db']; try done.
    cbn. unfold publishOrderEvent. repeat case_match; by simplify_eq/=.
  - destruct (JS.falsy _); [by left|].
    destruct (DatabaseService.getOrderById sqlInput wanted (dbService w)) as [e|[o|]]; try by left.
    cbn. destruct (negb (isAdmin user) && bool_decide _); [by left|].
    destruct (bool_decide (status o = cancelled)); [by left|].
    destruct (bool_decide (status o ∈ _)); [by left|].
    right. exists (UpdateOrderStatusWrite (clock env) wanted cancelled). cbn.
    destruct (DatabaseService.updateOrderStatus sqlInput _ _ _ _) as [[e|[o'|]] db']; try done.
    all: cbn; unfold publishOrderEvent; repeat case_match; by simplify_eq/=.
Qed.

Lemma applyWrite_orderNumbers (db : DB) (op : StoreWrite) :
  uniqueOrderNumbers sqlInput db → uniqueOrderNumbers sqlInput (applyWrite sqlInput db op).
Proof.
  intros Hnodup. destruct op as [clk order|clk wanted s]; cbn.
  - by apply createOrder_orderNumbers.
  - unfold uniqueOrderNumbers. by rewrite updateOrderStatus_orderNumbers.
Qed.

Lemma afterWrites_orderNumbers (ops : list StoreWrite) (db : DB) :
  uniqueOrderNumbers sqlInput db → uniqueOrderNumbers sqlInput (foldl (applyWrite sqlInput) db ops).
Proof.
  revert db. induction ops as [|op ops IH]; intros db Hnodup; [done|].
  cbn. by apply IH, applyWrite_orderNumbers.
Qed.

Lemma afterRequests_orderNumbers (reqs : list Request) (w : World) :
  uniqueOrderNumbers sqlInput (dbService w) →
  uniqueOrderNumbers sqlInput (dbService (foldl (λ w req, snd (serve sqlInput joiEmail req w)) w reqs)).
Proof.
  revert w. induction reqs as [|req reqs IH]; intros w Hnodup; [done|].
  cbn. apply IH.
  destruct (serve_store req w) as [->|[op ->]]; [done|].
  by apply applyWrite_orderNumbers.
Qed.

(** C9. Any two rows of the table of orders carry different order
    numbers: this holds of the store after every sequence of its writes,
    in whatever order the requests served concurrently make them, and so
    after every sequence of requests.  An order whose number is in use is
    not created: the store refuses it and is left as it was; when nothing
    else stands in the way (the pool is connected, the strings fit their
    columns, the total is accepted and the id is not in use) the refusal
    is the unique-key violation, thrown after the rollback (whose own
    error, when it fails, is thrown instead); the unique-key violation is
    answered 409. *)
Theorem order_numbers_stay_distinct :
  (∀ ops : list StoreWrite, distinctOrderNumbers (afterWrites sqlInput ops))
  ∧ (∀ reqs : list Request,
       distinctOrderNumbers (dbService (afterRequests sqlInput joiEmail reqs)))
  ∧ (∀ (clk : Clock) (order : NewOrder) (db : DB),
       new_orderNumber order ∈ orderNumber <$> Orders db →
       (∃ e, DatabaseService.createOrder sqlInput clk order db = (inl e, db))
       ∧ (pool db = true →
          connected db = true →
          is_Some (sqlInput (Decimal 10 2) (new_totalAmount order)) →
          (JS.length (new_customerId order) ≤ 255)%nat →
          (JS.length (new_customerEmail order) ≤ 255)%nat →
          (JS.length (new_orderNumber order) ≤ 50)%nat →
          (JS.length (new_currency order) ≤ 3)%nat →
          (NEWID clk 0 ∉ id <$> Orders db) →
          DatabaseService.createOrder sqlInput clk order db
          = (inl (rolledBack clk uniqueKeyViolation), db)
          ∧ ∀ p, httpStatus (errorHandler p uniqueKeyViolation) = 409)).
Proof.
  split_and!.
  - intros ops. apply uniqueOrderNumbers_distinct, afterWrites_orderNumbers. constructor.
  - intros reqs. apply uniqueOrderNumbers_distinct, afterRequests_orderNumbers. constructor.
  - intros clk order db Hused. split.
    + destruct (DatabaseService.createOrder sqlInput clk order db) as [r db'] eqn:Hc.
      apply createOrder_outcome in Hc
        as [[-> [e ->]]|(row & rows & _ & Hkept & _ & _ & Hfresh%sameText_fresh & _)];
        [by exists e|].
      destruct Hkept as (_ & _ & _ & Hnum & _). by rewrite Hnum in Hfresh.
    + intros Hpool Hconn [total Htotal] Hcid Hmail Hnum Hcur Hpk.
      unfold DatabaseService.createOrder, insertOrder.
      rewrite Hpool, Hconn, Htotal.
      cbn [negb id orderNumber customerId customerEmail currency].
      rewrite !fits_le by done. cbn [andb negb].
      rewrite bool_decide_eq_false_2, bool_decide_eq_true_2; [|..|done].
      * split; [done|]. by intros [].
      * apply list_elem_of_fmap in Hused as (o & Hnum' & Ho).
        apply Exists_exists. exists o. split; [done|]. unfold sameText. by rewrite Hnum'.
Qed.

(** ** The schema of POST /orders *)

Lemma stringRequired_inr (key : string) (v : option string) (s : string) :
  stringRequired key v = inr s ↔ v = Some s ∧ s ≠ "".
Proof.
  unfold stringRequired. destruct v as [s'|]; [|by split; [|intros []]].
  case_bool_decide as Hs; split; try done.
  - by intros [[= ->] ?].
  - by intros [= <-].
  - by intros [[= ->] _].
Qed.

Lemma stringRequired_present (key : string) (v : option string) (s : string) :
  v = Some s → s ≠ "" → stringRequired key v = inr s.
Proof. intros. by apply stringRequired_inr. Qed.



(** A safe number is neither NaN nor infinite. *)
Lemma isSafe_finite (x : JS.number) :
  JS.isSafe x = true → PrimFloat.is_nan x = false ∧ PrimFloat.is_infinity x = false.
Proof.
  unfold JS.isSafe, PrimFloat.is_nan, PrimFloat.is_infinity.
  rewrite FloatAxioms.leb_spec, !FloatAxioms.eqb_spec, FloatAxioms.abs_spec.
  change (Prim2SF infinity) with (S754_infinity false).
  destruct (Prim2SF x) as [s|s| |s m e].
  - intros _. destruct s; split; reflexivity.
  - intros H. exfalso. destruct s; vm_compute in H; discriminate.
  - intros H. exfalso. vm_compute in H; discriminate.
  - intros _. unfold SFeqb, SFcompare, SFabs. rewrite Z.compare_refl, Pos.compare_refl.
    destruct s; split; reflexivity.
Qed.

Lemma orderItemSchema_described (key : string) (b : OrderItemBody) :
  describedItem b → ∃ v, orderItemSchema key b = inr v.
Proof.
  intros ((pid & Hpid & Hpid') & (pname & Hpname & Hpname')
          & (q & Hq & Hqs & Hqi & Hq1) & (p & Hp & Hps & Hp0)).
  unfold orderItemSchema, mbind, Validated_bind, mret, Validated_ret.
  unfold stringRequired, numberRequired, integer, min1, positive.
  destruct (isSafe_finite q Hqs) as [Hqn Hqf], (isSafe_finite p Hps) as [Hpn Hpf].
  rewrite Hpid, Hpname, Hq, Hp, !bool_decide_eq_false_2, Hqn, Hqf, Hqs, Hqi, Hq1,
    Hpn, Hpf, Hps, Hp0 by done.
  by eexists.
Qed.

Lemma orderItemsSchema_described (bs : list OrderItemBody) :
  Forall describedItem bs →
  ∀ k : nat, ∃ vs, orderItemsSchema k bs = inr vs ∧ length vs = length bs.
Proof.
  induction 1 as [|b bs Hb _ IH]; intros k; cbn.
  - by exists [].
  - unfold mbind, Validated_bind, mret, Validated_ret.
    destruct (orderItemSchema_described ("orderItems[" +:+ pretty k +:+ "]") b Hb) as [v ->].
    destruct (IH (S k)) as (vs & -> & Hlen).
    exists (v :: vs). cbn. by rewrite Hlen.
Qed.

(** What the schema returns for a described body that names a customer. *)
Lemma createOrderSchema_described (body : CreateOrderBody) (cid cemail : string) :
  describedBody body →
  body_customerId body = Some cid → cid ≠ "" →
  body_customerEmail body = Some cemail → cemail ≠ "" → joiEmail cemail = true →
  ∃ ship bill items vs,
    body_shippingAddress body = Some ship
    ∧ body_billingAddress body = Some bill
    ∧ body_orderItems body = Some items
    ∧ orderItemsSchema 0 items = inr vs
    ∧ createOrderSchema joiEmail body
      = inr (mkCreateOrderValue cid cemail ship bill (default "USD" (body_currency body)) vs).
Proof.
  intros ((ship & Hship & Hship') & (bill & Hbill & Hbill') & Hcur
          & (items & Hitems & Hne & Hall)) Hcid Hcid' Hce Hce' Hjoi.
  destruct (orderItemsSchema_described items Hall 0) as (vs & Hvs & Hlen).
  exists ship, bill, items, vs. split_and!; [done..|].
  assert (vs ≠ []) as Hvs' by (intros ->; by destruct items).
  unfold createOrderSchema, mbind, Validated_bind, mret, Validated_ret.
  rewrite (stringRequired_present _ _ _ Hcid Hcid'), (stringRequired_present _ _ _ Hce Hce'),
    (stringRequired_present _ _ _ Hship Hship'), (stringRequired_present _ _ _ Hbill Hbill').
  rewrite Hjoi, Hitems, Hvs, (bool_decide_eq_false_2 _ Hvs').
  destruct Hcur as [->|(c & -> & Hc)]; [done|].
  cbn. rewrite bool_decide_eq_false_2, bool_decide_eq_true_2; [done..|].
  intros ->. done.
Qed.


(** The error handler never answers below 400. *)
Lemma errorHandler_status (p : bool) (e : JsError) : 400 ≤ httpStatus (errorHandler p e).
Proof.
  unfold errorHandler.
  repeat case_match; cbn; try lia.
  all: match goal with
       | H : bool_decide (400 ≤ _) && _ = true |- _ =>
           apply andb_true_iff in H as [H _]; by apply bool_decide_eq_true in H
       end.
Qed.

(** ** The total of a created order *)




(** ** Creating an order from a described body *)

(** The order handed to the store does not read the customer named in
    the payload. *)
Lemma orderData_payload_customer (env : Env) (user : option User)
    (cid cemail cid' cemail' ship bill cur : string) (vs : list OrderItemValue) :
  orderData env user (mkCreateOrderValue cid cemail ship bill cur vs)
  = orderData env user (mkCreateOrderValue cid' cemail' ship bill cur vs).
Proof. reflexivity. Qed.

(** C7 (as amended). A POST /orders body with shipping and billing
    address, an optional 3-letter currency and a non-empty list of items
    as described passes validation when it also names a customer
    (customerId and a valid customerEmail); for a caller with id and
    e-mail, when the store takes the order, the answer is 201 with the
    created order, pending, whose customer id and e-mail are those of the
    caller and which is a row of the store.  The customer named in the
    payload is not read: any other accepted customerId and customerEmail
    in the payload give the same answer and the same world.  The same
    body without customerId, or with a customerId and without
    customerEmail, is answered 400 "Validation Error" for every caller,
    and the world is left as it was. *)
Theorem create_order_from_described_body
    (env : Env) (u : User) (body : CreateOrderBody) (w : World) :
  describedBody body →
  namesCustomer joiEmail body →
  user_id u ≠ "" →
  email u ≠ "" →
  let r := serve sqlInput joiEmail (mkRequest env (Some u) (POST_orders body)) w in
  ∃ value : CreateOrderValue,
    createOrderSchema joiEmail body = inr value
    ∧ (storeTakes sqlInput (clock env) (orderData env (Some u) value) (dbService w) →
       ∃ o : Order,
         fst r = mkResponse 201 (OrderJson (Some o))
         ∧ customerId o = user_id u
         ∧ customerEmail o = email u
         ∧ status o = pending
         ∧ currency o = default "USD" (body_currency body)
         ∧ order_row o ∈ Orders (dbService (snd r)))
    ∧ (∀ cid cemail : option string,
         namesCustomer joiEmail (withCustomer cid cemail body) →
         serve sqlInput joiEmail
           (mkRequest env (Some u) (POST_orders (withCustomer cid cemail body))) w
         = r)
    ∧ (∀ (user : option User) (cemail : option string),
         serve sqlInput joiEmail
           (mkRequest env user (POST_orders (withCustomer None cemail body))) w
         = (mkResponse 400
              (ErrorJson "Validation Error" (JS.label "customerId" +:+ " is required")), w))
    ∧ (∀ (user : option User) (cid : option string),
         present cid →
         serve sqlInput joiEmail
           (mkRequest env user (POST_orders (withCustomer cid None body))) w
         = (mkResponse 400
              (ErrorJson "Validation Error" (JS.label "customerEmail" +:+ " is required")),
            w)).
Proof.
  intros Hbody ((cid & Hcid & Hcid') & (cemail & Hcemail & Hcemail' & Hjoi)) Hid Hmail r.
  destruct (createOrderSchema_described body cid cemail Hbody Hcid Hcid' Hcemail Hcemail' Hjoi)
    as (ship & bill & items & vs & Hship & Hbill & Hitems & Hvs & Hvalue).
  eexists. split; [exact Hvalue|]. split_and!.
  - intros Htakes.
    destruct (createOrder_takes _ _ _ Htakes) as (o & db' & Hstore).
    exists o. subst r. run_handler. rewrite Hvalue. cbn.
    rewrite !bool_decide_eq_false_2 by done. cbn. rewrite Hstore. cbn.
    apply createOrder_inr in Hstore as (row & rows & [= ->] & -> & Hkept & _).
    destruct Hkept as (_ & Hc & He & _ & Hs & _ & Hcur & _).
    assert (row ∈ Orders (dbService w) ++ [row]) as Hin by (apply elem_of_app; right; left).
    unfold publishOrderEvent. destruct (sendMessages env); cbn; by split_and!.
  - intros cid2 cemail2 ((cid' & Hcid2 & Hcid2') & (cemail' & Hcemail2 & Hcemail2' & Hjoi2)).
    cbn in Hcid2, Hcemail2. subst cid2 cemail2.
    destruct (createOrderSchema_described (withCustomer (Some cid') (Some cemail') body)
                cid' cemail' Hbody eq_refl Hcid2' eq_refl Hcemail2' Hjoi2)
      as (ship' & bill' & items' & vs' & Hship' & Hbill' & Hitems' & Hvs' & Hvalue').
    cbn in Hship', Hbill', Hitems'.
    rewrite Hitems in Hitems'. injection Hitems' as <-.
    rewrite Hvs in Hvs'. injection Hvs' as <-.
    rewrite Hship in Hship'. injection Hship' as <-.
    rewrite Hbill in Hbill'. injection Hbill' as <-.
    cbn [default option_fmap] in Hvalue'. change (body_currency (withCustomer _ _ body))
      with (body_currency body) in Hvalue'.
    subst r. run_handler. rewrite Hvalue, Hvalue'. cbn.
    by rewrite (orderData_payload_customer env (Some u) cid' cemail' cid cemail).
  - intros user cemail2. run_handler. unfold createOrderSchema. reflexivity.
  - intros user cid2 (c & -> & Hc). run_handler. unfold createOrderSchema.
    cbn [withCustomer body_customerId body_customerEmail].
    rewrite (stringRequired_present _ _ c eq_refl Hc). reflexivity.
Qed.

(** ** The foreign key holds of every store the service reaches *)

Lemma createOrder_foreignKeys (clk : Clock) (order : NewOrder) (db : DB) :
  foreignKeys db →
  foreignKeys (snd (DatabaseService.createOrder sqlInput clk order db)).
Proof.
  intros Hfk.
  destruct (DatabaseService.createOrder sqlInput clk order db) as [r db'] eqn:Hc.
  apply createOrder_outcome in Hc as [[-> _]|(row & rows & -> & _ & Hrows & _)]; [done|].
  intros oi. cbn. rewrite fmap_app, !elem_of_app. intros [Hold|Hnew].
  - left. by apply Hfk.
  - right. cbn. apply list_elem_of_singleton.
    apply keptItem_orderId in Hrows. by eapply Forall_forall in Hrows.
Qed.

Lemma updateOrderStatus_foreignKeys (clk : Clock) (wanted : string) (s : OrderStatus)
    (db : DB) :
  foreignKeys db →
  foreignKeys (snd (DatabaseService.updateOrderStatus sqlInput clk wanted s db)).
Proof.
  intros Hfk. unfold DatabaseService.updateOrderStatus.
  destruct (negb (pool db)); [done|]. destruct (negb (connected db)); [done|].
  destruct (negb (uniqueIdentifier sqlInput wanted)); [done|].
  intros oi Hoi. cbn in Hoi |- *. rewrite <- list_fmap_compose.
  rewrite (list_fmap_ext (id ∘ setStatus clk wanted s) id (Orders db));
    [by apply Hfk|by intros; apply setStatus_id].
Qed.

Lemma afterRequests_foreignKeys (reqs : list Request) :
  foreignKeys (dbService (afterRequests sqlInput joiEmail reqs)).
Proof.
  unfold afterRequests.
  assert (foreignKeys (dbService (mkWorld initialized [] []))) as Hinit by by intros oi ?%elem_of_nil.
  revert Hinit. generalize (mkWorld initialized [] []) as w.
  induction reqs as [|req reqs IH]; intros w Hfk; [done|].
  cbn. apply IH.
  destruct (serve_store req w) as [->|[[clk order|clk wanted s] ->]]; [done|..]; cbn.
  - by apply createOrder_foreignKeys.
  - by apply updateOrderStatus_foreignKeys.
Qed.

(** X1. Every item row refers to an order row, in the store after every
    sequence of requests: the foreign key of the table OrderItems is an
    invariant of the service. *)
Theorem item_rows_refer_to_orders (reqs : list Request) :
  ∀ oi : OrderItem,
    oi ∈ OrderItems (dbService (afterRequests sqlInput joiEmail reqs)) →
    ∃ o : OrderRow,
      o ∈ Orders (dbService (afterRequests sqlInput joiEmail reqs)) ∧ id o = orderId oi.
Proof.
  intros oi Hoi. apply afterRequests_foreignKeys in Hoi.
  apply list_elem_of_fmap in Hoi as (o & Hid & Ho). by exists o.
Qed.

(** X2. The transaction of [createOrder] is atomic, the call is not: when
    it returns, it returns the order it read back and the store has gained
    exactly the order row and one item row for each item handed in; when
    it throws, either the store is left as it was, or the transaction was
    committed (the store has gained the order row and the item rows) and
    it is the read of the new order that threw. *)
Theorem create_order_is_atomic (clk : Clock) (order : NewOrder) (db : DB) :
  match DatabaseService.createOrder sqlInput clk order db with
  | (inl e, db') =>
      db' = db
      ∨ ∃ (row : OrderRow) (rows : list OrderItem) (e' : JsError),
          Orders db' = Orders db ++ [row]
          ∧ OrderItems db' = OrderItems db ++ rows
          ∧ length rows = length (new_orderItems order)
          ∧ keptOrder sqlInput clk order row
          ∧ DatabaseService.getOrderById sqlInput (id row) db' = inl e'
          ∧ e = rolledBack clk e'
  | (inr created, db') =>
      ∃ (row : OrderRow) (rows : list OrderItem),
        created = Some (mkOrder row
                          (scan sqlInput
                             (filter (λ oi, orderId oi = id row) (OrderItems db) ++ rows)))
        ∧ Orders db' = Orders db ++ [row]
        ∧ OrderItems db' = OrderItems db ++ rows
        ∧ length rows = length (new_orderItems order)
        ∧ keptOrder sqlInput clk order row
  end.
Proof.
  destruct (DatabaseService.createOrder sqlInput clk order db) as [[e|created] db'] eqn:Hc.
  - apply createOrder_outcome in Hc
      as [[-> _]|(row & rows & -> & Hkept & Hrows & _ & _ & Hr)]; [by left|].
    right.
    destruct (DatabaseService.getOrderById sqlInput (id row) _) as [e'|c] eqn:Hget; [|done].
    injection Hr as ->. exists row, rows, e'. split_and!; try done.
    symmetry. by eapply Forall2_length.
  - apply createOrder_inr in Hc as (row & rows & -> & -> & Hkept & Hrows & _).
    exists row, rows. split_and!; try done.
    symmetry. by eapply Forall2_length.
Qed.

(** ** Reading back what the store holds *)


Lemma applyWrite_pool (db : DB) (op : StoreWrite) :
  pool db = true → pool (applyWrite sqlInput db op) = true.
Proof.
  intros Hpool. destruct op as [clk order|clk wanted s]; cbn.
  - destruct (DatabaseService.createOrder sqlInput clk order db) as [r db'] eqn:Hc.
    by apply createOrder_outcome in Hc as [[-> _]|(row & rows & -> & _)].
  - unfold DatabaseService.updateOrderStatus. rewrite Hpool. by repeat case_match.
Qed.







(** ** Reading one order *)

Lemma errorHandler_not_success (p : bool) (e : JsError) (code : Z) (body : Body) :
  code < 400 → errorHandler p e ≠ mkResponse code body.
Proof.
  intros Hcode Heq. pose proof (errorHandler_status p e) as Hstatus.
  rewrite Heq in Hstatus. cbn in Hstatus. lia.
Qed.

Lemma not_readable (user : option User) (o : Order) :
  callerId user ≠ "" →
  negb (isAdmin user) && bool_decide (customerId o ≠ callerId user) = false ↔ readableBy user o.
Proof.
  intros Hid. unfold readableBy. rewrite andb_false_iff, negb_false_iff, bool_decide_eq_false.
  split.
  - intros [Hadm|Hown]; split; auto. right. by destruct (decide (customerId o = callerId user)).
  - intros [_ [Hadm|Hown]]; auto.
Qed.

(** X4. The get-order operation answers 200 with an order exactly when
    the store holds that order under the requested id and the caller,
    carrying a customer id, is its customer or an admin; otherwise the
    answer is 400, 404 or, when the store throws, the error handler's
    answer to the error; whatever it answers, it leaves the store and the
    topic as they were. *)
Theorem get_order_answers_customer_or_admin
    (env : Env) (user : option User) (wanted : string) (w : World) :
  let r := serve sqlInput joiEmail (mkRequest env user (GET_order wanted)) w in
  (∀ o : Order,
     fst r = mkResponse 200 (OrderJson (Some o))
     ↔ DatabaseService.getOrderById sqlInput wanted (dbService w) = inr (Some o)
       ∧ readableBy user o)
  ∧ (httpStatus (fst r) = 200 ∨ httpStatus (fst r) = 400 ∨ httpStatus (fst r) = 404
     ∨ ∃ e : JsError,
         DatabaseService.getOrderById sqlInput wanted (dbService w) = inl e
         ∧ fst r = errorHandler (production env) e)
  ∧ dbService (snd r) = dbService w
  ∧ topic (snd r) = topic w.
Proof.
  intros r. subst r. run_handler. rewrite falsy_callerId.
  case_bool_decide as Hid.
  { cbn. rewrite errorHandler_BadRequest. split_and!; auto.
    intros o. split; [done|]. by intros [_ [Hne _]]. }
  destruct (DatabaseService.getOrderById sqlInput wanted (dbService w)) as [e|[o|]] eqn:Hget; cbn.
  - split_and!; auto.
    + intros o. split; [|by intros [? _]].
      intros Heq. by apply errorHandler_not_success in Heq.
    + do 3 right. by exists e.
  - fold (callerId user).
    destruct (negb (isAdmin user) && bool_decide (customerId o ≠ callerId user)) eqn:Hauth; cbn.
    + rewrite errorHandler_NotFound. split_and!; auto.
      intros o'. split; [done|]. intros [[= <-] Hread].
      apply not_readable in Hread; [congruence|done].
    + apply not_readable in Hauth; [|done]. split_and!; auto.
      intros o'. split; [by intros [= <-]|by intros [[= <-] _]].
  - rewrite errorHandler_NotFound. split_and!; auto.
    intros o. split; [done|]. by intros [? _].
Qed.

(** ** Cancelling an order *)

(** What the handlers of one order go through before they act on it. *)
Lemma cancelOrder_200 (env : Env) (user : option User) (wanted : string) (w : World) :
  httpStatus (fst (serve sqlInput joiEmail (mkRequest env user (PATCH_cancel wanted)) w)) = 200 →
  ∃ o : Order,
    DatabaseService.getOrderById sqlInput wanted (dbService w) = inr (Some o)
    ∧ readableBy user o ∧ open (status o).
Proof.
  run_handler. rewrite falsy_callerId.
  case_bool_decide as Hid; [by cbn; rewrite errorHandler_BadRequest|].
  destruct (DatabaseService.getOrderById sqlInput wanted (dbService w)) as [e|[o|]] eqn:Hget; cbn.
  - intros Hst. pose proof (errorHandler_status (production env) e). lia.
  - fold (callerId user).
    destruct (negb (isAdmin user) && bool_decide (customerId o ≠ callerId user)) eqn:Hauth; cbn;
      [by rewrite errorHandler_NotFound|].
    apply not_readable in Hauth; [|done].
    case_bool_decide as Hc; [by cbn; rewrite errorHandler_BadRequest|].
    case_bool_decide as Hs; [by cbn; rewrite errorHandler_BadRequest|].
    intros _. exists o. split_and!; [done..|].
    unfold open. destruct (status o); auto.
    + exfalso. apply Hs. repeat constructor.
    + exfalso. apply Hs. repeat constructor.
    + done.
  - by rewrite errorHandler_NotFound.
Qed.

(** The request that cancels an open order, step by step. *)
Lemma cancelOrder_open (env : Env) (user : option User) (wanted : string) (o : Order)
    (w : World) :
  DatabaseService.getOrderById sqlInput wanted (dbService w) = inr (Some o) →
  readableBy user o →
  open (status o) →
  let o' := mkOrder (setStatus (clock env) wanted cancelled o) (orderItems o) in
  serve sqlInput joiEmail (mkRequest env user (PATCH_cancel wanted)) w
  = (mkResponse 200 (OrderJson (Some o')),
     mkWorld (updated (clock env) wanted cancelled (dbService w))
       (storeCalls w ++ [GetOrderByIdCall wanted; UpdateOrderStatusCall wanted cancelled])
       (snd (publishOrderEvent (sendMessages env) "order.cancelled"
               (mkOrderEvent (id o') (customerId o') (orderNumber o') (Some (totalAmount o'))
                  None None None (dateNow env))
               (topic w)))).
Proof.
  intros Hget Hread Hopen o'.
  pose proof Hread as [Hid _].
  run_handler. rewrite falsy_callerId, bool_decide_eq_false_2 by done.
  rewrite Hget. cbn. fold (callerId user).
  apply not_readable in Hread; [|done]. rewrite Hread. cbn.
  assert (bool_decide (status o = cancelled) = false) as ->
    by (destruct Hopen as [-> | ->]; reflexivity).
  assert (bool_decide (status o ∈ [shipped; delivered]) = false) as ->
    by (destruct Hopen as [-> | ->]; reflexivity).
  destruct (updateOrderStatus_found (clock env) wanted cancelled _ _ Hget) as [Hupd _].
  cbn. rewrite Hupd. cbn. rewrite <- app_assoc.
  unfold publishOrderEvent. by destruct (sendMessages env).
Qed.


(** X6. Cancelling twice: when a cancel request has been answered 200,
    a cancel request for the same order served right after it (no other
    request in between), by the same caller or by an admin, is answered
    400 "Order is already cancelled" and changes neither the store nor the
    topic. *)
Theorem cancel_again_is_refused
    (env env' : Env) (user user' : option User) (wanted : string) (w : World) :
  let r := serve sqlInput joiEmail (mkRequest env user (PATCH_cancel wanted)) w in
  httpStatus (fst r) = 200 →
  user' = user ∨ (callerId user' ≠ "" ∧ isAdmin user' = true) →
  let r' := serve sqlInput joiEmail (mkRequest env' user' (PATCH_cancel wanted)) (snd r) in
  fst r' = mkResponse 400 (ErrorJson "Bad Request" "Order is already cancelled")
  ∧ dbService (snd r') = dbService (snd r)
  ∧ topic (snd r') = topic (snd r).
Proof.
  intros r Hok Hwho r'.
  destruct (cancelOrder_200 _ _ _ _ Hok) as (o & Hget & Hread & Hopen).
  subst r r'. rewrite (cancelOrder_open env user wanted o w Hget Hread Hopen). cbn [fst snd].
  set (o' := mkOrder (setStatus (clock env) wanted cancelled o) (orderItems o)).
  pose proof (getOrderById_id _ _ _ Hget) as Hwanted.
  destruct (updateOrderStatus_found (clock env) wanted cancelled _ _ Hget) as [_ Hafter].
  fold o' in Hafter.
  destruct (setStatus_target (clock env) wanted cancelled o Hwanted) as [Hst _].
  pose proof (setStatus_sameButStatus (clock env) wanted cancelled o) as (_ & Hcust & _).
  change (status o' = cancelled) in Hst. change (customerId o' = customerId o) in Hcust.
  clearbody o'.
  assert (readableBy user' o') as Hread'.
  { destruct Hwho as [-> | [Hid Hadm]].
    - destruct Hread as [Hid Hwho]. split; [done|]. by rewrite Hcust.
    - split; auto. }
  pose proof Hread' as [Hid' _].
  run_handler. rewrite falsy_callerId, bool_decide_eq_false_2 by done.
  cbn [dbService]. rewrite Hafter. cbn. fold (callerId user').
  apply not_readable in Hread'; [|done]. rewrite Hread'. cbn.
  rewrite bool_decide_eq_true_2 by done. cbn.
  by rewrite errorHandler_BadRequest.
Qed.

(** ** A created order can be read and is listed *)

(** What a 201 answer tells about the request and the store. *)
Lemma createOrder_201 (env : Env) (user : option User) (body : CreateOrderBody) (w : World) :
  let r := serve sqlInput joiEmail (mkRequest env user (POST_orders body)) w in
  httpStatus (fst r) = 201 →
  ∃ (value : CreateOrderValue) (row : OrderRow) (rows : list OrderItem),
    createOrderSchema joiEmail body = inr value
    ∧ callerId user ≠ ""
    ∧ fst r = mkResponse 201
                (OrderJson (Some (mkOrder row
                   (scan sqlInput
                      (filter (λ oi, orderId oi = id row) (OrderItems (dbService w))
                       ++ rows)))))
    ∧ dbService (snd r)
      = mkDB true true (Orders (dbService w) ++ [row]) (OrderItems (dbService w) ++ rows)
    ∧ storeCalls (snd r) = storeCalls w ++ [CreateOrderCall (orderData env user value)]
    ∧ keptOrder sqlInput (clock env) (orderData env user value) row
    ∧ Forall2 (keptItem sqlInput (id row)) (new_orderItems (orderData env user value)) rows
    ∧ (id row ∉ id <$> Orders (dbService w))
    ∧ uniqueIdentifier sqlInput (id row) = true.
Proof.
  intros r. subst r. run_handler.
  destruct (createOrderSchema joiEmail body) as [msg|value] eqn:Hschema;
    [by cbn; rewrite errorHandler_Validation|].
  cbn. rewrite falsy_callerId.
  case_bool_decide as Hid; [by cbn; rewrite errorHandler_BadRequest|].
  cbn [orb]. destruct (JS.falsy (email <$> user)); [by cbn; rewrite errorHandler_BadRequest|].
  destruct (DatabaseService.createOrder sqlInput (clock env) (orderData env user value)
              (dbService w)) as [[e|created] db'] eqn:Hcreate.
  { cbn. intros Hst. pose proof (errorHandler_status (production env) e). lia. }
  apply createOrder_inr in Hcreate
    as (row & rows & -> & -> & Hrow & Hrows & Hfresh & _ & Hguid).
  intros _. exists value, row, rows. cbn.
  unfold publishOrderEvent. destruct (sendMessages env); cbn; split_and!; done.
Qed.

(** X7. Once the create-order operation has answered 201, the order of
    the answer belongs to the caller, is pending, and is read back
    unchanged, items included, by a get-order request of the same caller
    under the order's id; that request calls the store once and changes
    nothing else. *)
Theorem created_order_is_read_back
    (env env' : Env) (user : option User) (body : CreateOrderBody) (w : World) :
  let r := serve sqlInput joiEmail (mkRequest env user (POST_orders body)) w in
  httpStatus (fst r) = 201 →
  ∃ o : Order,
    fst r = mkResponse 201 (OrderJson (Some o))
    ∧ customerId o = callerId user
    ∧ status o = pending
    ∧ createdAt o = GETUTCDATE (clock env)
    ∧ serve sqlInput joiEmail (mkRequest env' user (GET_order (id o))) (snd r)
      = (mkResponse 200 (OrderJson (Some o)), called [GetOrderByIdCall (id o)] (snd r)).
Proof.
  intros r Hcreated.
  destruct (createOrder_201 env user body w Hcreated)
    as (value & row & rows & _ & Hid & Hanswer & Hdb & _ & Hrow & Hrows & Hfresh & Hguid).
  fold r in Hanswer, Hdb.
  destruct Hrow as (_ & Hcust & _ & _ & Hstatus & _ & _ & _ & _ & Hat & _).
  eexists. split; [exact Hanswer|]. cbn [order_row orderItems].
  split_and!; [done..|].
  pose proof (getOrderById_fresh row (Orders (dbService w))
                (OrderItems (dbService w) ++ rows) Hfresh Hguid) as Hget.
  rewrite <- Hdb in Hget.
  assert (filter (λ oi, orderId oi = id row) (OrderItems (dbService w) ++ rows)
          = filter (λ oi, orderId oi = id row) (OrderItems (dbService w)) ++ rows) as Hitems.
  { rewrite filter_app. f_equal. apply filter_all. by eapply keptItem_orderId. }
  rewrite Hitems in Hget.
  generalize dependent (snd r). intros w' _ Hget.
  run_handler. rewrite falsy_callerId, bool_decide_eq_false_2 by done.
  rewrite Hget. cbn. fold (callerId user).
  rewrite Hcust. unfold orderData. cbn [new_customerId]. fold (callerId user).
  rewrite (bool_decide_eq_false_2 (callerId user ≠ callerId user)) by auto.
  by rewrite andb_false_r.
Qed.

(** What a 200 answer of the list-orders operation carries. *)
Lemma getOrders_200 (env : Env) (user : option User) (query : Query) (w : World)
    (orders : list Order) (page pageSize totalCount totalPages : Z) :
  fst (serve sqlInput joiEmail (mkRequest env user (GET_orders query)) w)
  = mkResponse 200 (OrdersJson orders page pageSize totalCount totalPages) →
  totalCount = Z.of_nat (length (ordersOf sqlInput (callerId user) (dbService w)))
  ∧ totalPages = JS.ceilDiv totalCount pageSize.
Proof.
  run_handler.
  destruct (queryParamsSchema query) as [msg|[p s]];
    [by cbn; rewrite errorHandler_Validation|].
  cbn. rewrite falsy_callerId.
  case_bool_decide as Hid; [by cbn; rewrite errorHandler_BadRequest|].
  fold (callerId user).
  destruct (DatabaseService.getOrdersByCustomer _ _ _ _ _ _) as [e|[os n]] eqn:Hlist; cbn.
  { intros Heq. by apply errorHandler_not_success in Heq. }
  intros [= -> -> -> -> ->].
  by apply getOrdersByCustomer_inr in Hlist as (_ & _ & -> & _).
Qed.

(** X8. Once the create-order operation has answered 201, the caller has
    one order more and every customer whose id the server tells apart from
    the caller's has the orders they had: the new row is the last of the
    caller's rows in the store.  Whenever a list-orders request of the
    caller is answered 200 on the store before the creation and one is
    answered 200 on the store after it, the total count of the second is
    that of the first plus one (with the page count that goes with it). *)
Theorem created_order_is_listed
    (env : Env) (user : option User) (body : CreateOrderBody) (w : World) :
  let r := serve sqlInput joiEmail (mkRequest env user (POST_orders body)) w in
  httpStatus (fst r) = 201 →
  ∃ o : Order,
    fst r = mkResponse 201 (OrderJson (Some o))
    ∧ ordersOf sqlInput (callerId user) (dbService (snd r))
      = ordersOf sqlInput (callerId user) (dbService w) ++ [order_row o]
    ∧ (∀ other, ¬ sameText sqlInput (callerId user) other →
         ordersOf sqlInput other (dbService (snd r)) = ordersOf sqlInput other (dbService w))
    ∧ (∀ (env1 env2 : Env) (query1 query2 : Query) (before after : list Order)
         (page1 pageSize1 n1 pages1 page2 pageSize2 n2 pages2 : Z),
         fst (serve sqlInput joiEmail (mkRequest env1 user (GET_orders query1)) w)
         = mkResponse 200 (OrdersJson before page1 pageSize1 n1 pages1) →
         fst (serve sqlInput joiEmail (mkRequest env2 user (GET_orders query2)) (snd r))
         = mkResponse 200 (OrdersJson after page2 pageSize2 n2 pages2) →
         n2 = n1 + 1 ∧ pages2 = JS.ceilDiv (n1 + 1) pageSize2).
Proof.
  intros r Hcreated.
  destruct (createOrder_201 env user body w Hcreated)
    as (value & row & rows & _ & Hid & Hanswer & Hdb & _ & Hrow & _).
  fold r in Hanswer, Hdb.
  destruct Hrow as (_ & Hcust & _).
  unfold orderData in Hcust. cbn [new_customerId] in Hcust. fold (callerId user) in Hcust.
  assert (ordersOf sqlInput (callerId user) (dbService (snd r))
          = ordersOf sqlInput (callerId user) (dbService w) ++ [row]) as Hmine.
  { unfold ordersOf. rewrite Hdb. cbn [Orders].
    rewrite filter_app. f_equal. apply (filter_singleton_True _ _ []).
    unfold sameText. by rewrite Hcust. }
  eexists. split; [exact Hanswer|]. cbn [order_row].
  split_and!; [done| |].
  - intros other Hother. unfold ordersOf. rewrite Hdb. cbn [Orders].
    rewrite filter_app, (filter_singleton_False _ row []), app_nil_r; [done|].
    by rewrite Hcust.
  - intros env1 env2 query1 query2 before after page1 pageSize1 n1 pages1
      page2 pageSize2 n2 pages2 Hbefore Hafter.
    apply getOrders_200 in Hbefore as [-> _], Hafter as [-> ->].
    rewrite Hmine, length_app. cbn [length]. split; [lia|f_equal; lia].
Qed.

(** ** The pages of a customer's orders *)

Lemma ceilDiv_bounds (a b : Z) :
  0 < b → a ≤ JS.ceilDiv a b * b ∧ (JS.ceilDiv a b - 1) * b < a.
Proof.
  intros Hb. unfold JS.ceilDiv.
  pose proof (Z.div_mod (- a) b) as Hdiv. pose proof (Z.mod_pos_bound (- a) b Hb) as Hmod.
  change ((- a) `div` b) with (Z.div (- a) b). nia.
Qed.

#[local] Instance newer_antisymm : AntiSymm (=) newer.
Proof. intros a b. unfold newer. lia. Qed.

(** Rows created at different times come out of [ORDER BY createdAt DESC]
    in one order, whatever the query does with rows of equal time. *)
Lemma merge_sort_newestFirst (clk : Clock) (rows : list OrderRow) :
  NoDup (createdAt <$> rows) → newestFirst (merge_sort (orderedBy clk) rows).
Proof.
  intros Hnodup.
  assert (StronglySorted (orderedBy clk) (merge_sort (orderedBy clk) rows)) as Hsorted
    by (apply StronglySorted_merge_sort; apply _).
  assert (NoDup (createdAt <$> merge_sort (orderedBy clk) rows)) as Htimes
    by (by rewrite merge_sort_Permutation).
  revert Hsorted Htimes. generalize (merge_sort (orderedBy clk) rows) as sorted.
  intros sorted Hsorted. induction Hsorted as [|a sorted Hsorted IH Hall]; intros Htimes.
  - constructor.
  - rewrite fmap_cons in Htimes. apply NoDup_cons in Htimes as [Hfresh Htimes].
    constructor; [by apply IH|].
    apply Forall_forall. intros b Hb. eapply Forall_forall in Hall; [|exact Hb].
    destruct Hall as [Hlt|[Heq _]]; [done|].
    exfalso. apply Hfresh. rewrite Heq. by apply list_elem_of_fmap_2.
Qed.

Lemma merge_sort_any_clock (clk clk' : Clock) (rows : list OrderRow) :
  NoDup (createdAt <$> rows) →
  merge_sort (orderedBy clk) rows = merge_sort (orderedBy clk') rows.
Proof.
  intros Hnodup. apply (StronglySorted_unique newer).
  - by apply merge_sort_newestFirst.
  - by apply merge_sort_newestFirst.
  - by rewrite !merge_sort_Permutation.
Qed.

(** The rows of a page, from the offset and the page size as bound. *)
Lemma getOrdersByCustomer_page (clk : Clock) (customer : string) (page pageSize : JS.number)
    (db : DB) (offset fetch : JS.number) (orders : list Order) (totalCount : Z) :
  sqlInput Int ((page - 1) * pageSize)%float = Some offset →
  sqlInput Int pageSize = Some fetch →
  DatabaseService.getOrdersByCustomer sqlInput clk customer page pageSize db
  = inr (orders, totalCount) →
  0 < JS.toZ fetch
  ∧ order_row <$> orders
    = take (Z.to_nat (JS.toZ fetch))
        (drop (Z.to_nat (JS.toZ offset))
           (merge_sort (orderedBy clk) (ordersOf sqlInput customer db)))
  ∧ totalCount = Z.of_nat (length (ordersOf sqlInput customer db)).
Proof.
  intros Hoffset Hfetch. unfold DatabaseService.getOrdersByCustomer.
  destruct (negb (pool db)); [done|]. destruct (negb (connected db)); [done|].
  rewrite Hoffset, Hfetch.
  case_bool_decide as Hrange; [done|].
  fold (ordersOf sqlInput customer db).
  destruct (withItems sqlInput db _) as [e|os] eqn:Hitems; [done|].
  intros [= <- <-]. apply withItems_inr in Hitems as ->.
  rewrite fmap_order_row. split_and!; [lia|done|done].
Qed.

(** X9. The pages partition a customer's orders.  Let no two of the
    customer's orders be created at the same time, let the page size be
    bound as s and the offsets of the first pages as 0, s, 2 s and so on,
    and let the store's queries for these pages return.  Then, whatever
    each query does with rows of equal creation time, the page of offset
    k s holds the rows from k s on, at most s of them, of the customer's
    orders from the newest to the oldest; it carries their number as total
    count; it is non-empty exactly when k is below the page count
    [Math.ceil(totalCount / s)]; and the pages, one after the other, hold
    the first orders from the newest to the oldest, each once: all of
    them when the pages reach the total count. *)
Theorem pages_partition_orders
    (customer : string) (db : DB) (pageSize : JS.number) (s pages : nat)
    (page : nat → JS.number) (clk : nat → Clock)
    (answer : nat → list Order) (totalCount : nat → Z) :
  NoDup (createdAt <$> ordersOf sqlInput customer db) →
  (∃ fetch, sqlInput Int pageSize = Some fetch ∧ JS.toZ fetch = Z.of_nat s) →
  (∀ k, (k < pages)%nat →
     (∃ offset, sqlInput Int ((page k - 1) * pageSize)%float = Some offset
                ∧ JS.toZ offset = Z.of_nat (k * s))
     ∧ DatabaseService.getOrdersByCustomer sqlInput (clk k) customer (page k) pageSize db
       = inr (answer k, totalCount k)) →
  ∃ mine : list OrderRow,
    mine ≡ₚ ordersOf sqlInput customer db
    ∧ newestFirst mine
    ∧ (∀ k, (k < pages)%nat →
         order_row <$> answer k = take s (drop (k * s) mine)
         ∧ totalCount k = Z.of_nat (length mine)
         ∧ (answer k ≠ [] ↔ Z.of_nat k < JS.ceilDiv (totalCount k) (Z.of_nat s)))
    ∧ order_row <$> mjoin (answer <$> seq 0 pages) = take (pages * s) mine
    ∧ ((length mine ≤ pages * s)%nat →
       order_row <$> mjoin (answer <$> seq 0 pages) = mine).
Proof.
  intros Hnodup (fetch & Hfetch & Hs) Hpages.
  set (mine := merge_sort (orderedBy (clk 0%nat)) (ordersOf sqlInput customer db)).
  assert (mine ≡ₚ ordersOf sqlInput customer db) as Hperm
    by apply merge_sort_Permutation.
  assert (∀ k, (k < pages)%nat →
            (0 < s)%nat
            ∧ order_row <$> answer k = take s (drop (k * s) mine)
            ∧ totalCount k = Z.of_nat (length mine)) as Hrows.
  { intros k Hk. destruct (Hpages k Hk) as [(offset & Hoffset & Hk') Hlist].
    destruct (getOrdersByCustomer_page _ _ _ _ _ _ _ _ _ Hoffset Hfetch Hlist)
      as (Hpos & Hrows & Hcount).
    rewrite Hs, Hk', !Nat2Z.id in Hrows.
    rewrite (merge_sort_any_clock _ (clk 0%nat)) in Hrows by done.
    split_and!; [lia|done|]. by rewrite Hperm. }
  exists mine. split_and!; [done|by apply merge_sort_newestFirst| | |].
  - intros k Hk. destruct (Hrows k Hk) as (Hpos & Hk' & ->). split_and!; [done..|].
    destruct (ceilDiv_bounds (Z.of_nat (length mine)) (Z.of_nat s)) as [Hup Hlow]; [lia|].
    assert (answer k ≠ [] ↔ (k * s < length mine)%nat) as ->.
    { assert (length (answer k) = length (take s (drop (k * s) mine))) as Hlen
        by (by rewrite <- Hk', length_fmap).
      rewrite length_take, length_drop in Hlen.
      destruct (answer k); cbn in Hlen; split; intros; try done; lia. }
    nia.
  - clear Hpages. induction pages as [|m IH]; [done|].
    rewrite seq_S, fmap_app, join_app, fmap_app, IH by (intros; apply Hrows; lia).
    cbn [plus fmap list_fmap mjoin list_join]. rewrite app_nil_r.
    destruct (Hrows m) as (_ & -> & _); [lia|].
    rewrite take_take_drop. f_equal. lia.
  - intros Hall.
    assert (order_row <$> mjoin (answer <$> seq 0 pages) = take (pages * s) mine) as ->.
    { clear Hpages Hall. induction pages as [|m IH]; [done|].
      rewrite seq_S, fmap_app, join_app, fmap_app, IH by (intros; apply Hrows; lia).
      cbn [plus fmap list_fmap mjoin list_join]. rewrite app_nil_r.
      destruct (Hrows m) as (_ & -> & _); [lia|].
      rewrite take_take_drop. f_equal. lia. }
    by apply take_ge.
Qed.

(** ** Events *)

Lemma errorHandler_not_succeeded (p : bool) (e : JsError) : ¬ succeeded (errorHandler p e).
Proof.
  pose proof (errorHandler_status p e). unfold succeeded. lia.
Qed.

(** X10. One request publishes at most one message, and only for a
    write that succeeded: when the topic changes, it gains exactly one
    message, the broker took it, the answer is 200 or 201 with the order,
    and the message carries the subject of the route, the order's id (also
    as correlation id), customer and number and a time to live of 24 hours.
    Conversely a write route that answers 200 or 201 while the broker
    takes messages has published. *)
Theorem one_event_per_successful_write (req : Request) (w : World) :
  let r := serve sqlInput joiEmail req w in
  (topic (snd r) = topic w
   ∨ ∃ (m : Message) (o : Order),
       topic (snd r) = topic w ++ [m]
       ∧ sendMessages (req_env req) = None
       ∧ succeeded (fst r)
       ∧ json (fst r) = OrderJson (Some o)
       ∧ announces (req_route req) = Some (subject m)
       ∧ correlationId m = id o
       ∧ ev_orderId (data m) = id o
       ∧ ev_customerId (data m) = customerId o
       ∧ ev_orderNumber (data m) = orderNumber o
       ∧ ev_timestamp (data m) = dateNow (req_env req)
       ∧ timeToLive m = 86400000)
  ∧ (is_Some (announces (req_route req)) → succeeded (fst r) →
     sendMessages (req_env req) = None →
     ∃ m : Message, topic (snd r) = topic w ++ [m]).
Proof.
  intros r. subst r.
  destruct req as [env user [query|wanted|body|wanted body|wanted]];
    cbn [req_env req_route announces].
  - split; [|by intros [? ?]]. left. run_handler. repeat case_match; by simplify_eq/=.
  - split; [|by intros [? ?]]. left. run_handler. repeat case_match; by simplify_eq/=.
  - run_handler.
    destruct (createOrderSchema joiEmail body) as [msg|value];
      [cbn; split; [by left|by intros _ ?%errorHandler_not_succeeded]|].
    cbn. destruct (JS.falsy _ || JS.falsy _);
      [cbn; split; [by left|by intros _ ?%errorHandler_not_succeeded]|].
    destruct (DatabaseService.createOrder sqlInput (clock env) (orderData env user value)
                (dbService w)) as [[e|created] db'] eqn:Hcreate;
      [cbn; split; [by left|by intros _ ?%errorHandler_not_succeeded]|].
    apply createOrder_inr in Hcreate as (row & rows & -> & _).
    cbn. unfold publishOrderEvent, succeeded. destruct (sendMessages env); cbn.
    + split; [by left|done].
    + split; [|by eexists]. right. eexists _, _. split_and!; try done. by right.
  - run_handler.
    destruct (negb (isAdmin user)); [cbn; unfold succeeded; cbn; split; [by left|lia]|].
    destruct (updateOrderStatusSchema body) as [msg|newStatus];
      [cbn; split; [by left|by intros _ ?%errorHandler_not_succeeded]|].
    cbn.
    destruct (DatabaseService.updateOrderStatus sqlInput (clock env) wanted newStatus (dbService w))
      as [[e|[o|]] db'];
      [cbn; split; [by left|by intros _ ?%errorHandler_not_succeeded]| |
       cbn; split; [by left|by intros _ ?%errorHandler_not_succeeded]].
    cbn. unfold publishOrderEvent, succeeded. destruct (sendMessages env); cbn.
    + split; [by left|done].
    + split; [|by eexists]. right. eexists _, _. split_and!; try done. by left.
  - run_handler.
    destruct (JS.falsy _);
      [cbn; split; [by left|by intros _ ?%errorHandler_not_succeeded]|].
    destruct (DatabaseService.getOrderById sqlInput wanted (dbService w)) as [e|[o|]] eqn:Hget;
      [cbn; split; [by left|by intros _ ?%errorHandler_not_succeeded]| |
       cbn; split; [by left|by intros _ ?%errorHandler_not_succeeded]].
    cbn. destruct (negb (isAdmin user) && bool_decide _);
      [cbn; split; [by left|by intros _ ?%errorHandler_not_succeeded]|].
    destruct (bool_decide (status o = cancelled));
      [cbn; split; [by left|by intros _ ?%errorHandler_not_succeeded]|].
    destruct (bool_decide (status o ∈ _));
      [cbn; split; [by left|by intros _ ?%errorHandler_not_succeeded]|].
    destruct (updateOrderStatus_found (clock env) wanted cancelled _ _ Hget) as [Hupd _].
    cbn. rewrite Hupd.
    cbn. unfold publishOrderEvent, succeeded. destruct (sendMessages env); cbn.
    + split; [by left|done].
    + split; [|by eexists]. right. eexists _, _. split_and!; try done. by left.
Qed.

(** ** What the schemas accept *)

Lemma stringRequired_inr_present (key : string) (v : option string) (s : string) :
  stringRequired key v = inr s → present v.
Proof.
  unfold stringRequired, present. destruct v as [s'|]; [|done].
  case_bool_decide; [done|]. intros [= <-]. by exists s'.
Qed.

Lemma orderItemSchema_inr_described (key : string) (b : OrderItemBody) (v : OrderItemValue) :
  orderItemSchema key b = inr v → describedItem b.
Proof.
  unfold orderItemSchema, mbind, Validated_bind, mret, Validated_ret.
  destruct (stringRequired _ (body_productId b)) as [?|pid] eqn:Hpid; [done|].
  destruct (stringRequired _ (body_productName b)) as [?|pname] eqn:Hpname; [done|].
  apply stringRequired_inr_present in Hpid, Hpname.
  unfold numberRequired, integer, min1, positive.
  destruct (body_quantity b) as [q|] eqn:Hq; [|done].
  destruct (PrimFloat.is_nan q); [done|]. destruct (PrimFloat.is_infinity q); [done|].
  destruct (JS.isSafe q) eqn:Hqs; [|done].
  destruct (JS.isInteger q) eqn:Hqi; [|done].
  destruct (PrimFloat.leb 1 q) eqn:Hq1; [|done].
  destruct (body_unitPrice b) as [p|] eqn:Hp; [|done].
  destruct (PrimFloat.is_nan p); [done|]. destruct (PrimFloat.is_infinity p); [done|].
  destruct (JS.isSafe p) eqn:Hps; [|done].
  destruct (PrimFloat.ltb 0 p) eqn:Hp0; [|done].
  intros _. split_and!; [done|done|by exists q|by exists p].
Qed.

Lemma orderItemsSchema_inr_described (bs : list OrderItemBody) :
  ∀ (k : nat) (vs : list OrderItemValue),
    orderItemsSchema k bs = inr vs → Forall describedItem bs ∧ length vs = length bs.
Proof.
  induction bs as [|b bs IH]; intros k vs; cbn.
  - intros [= <-]. by split.
  - unfold mbind, Validated_bind, mret, Validated_ret.
    destruct (orderItemSchema _ b) as [msg|v] eqn:Hv; [done|].
    destruct (orderItemsSchema (S k) bs) as [msg|vs'] eqn:Hvs; [done|].
    intros [= <-]. apply IH in Hvs as [Hall Hlen].
    split; [|by cbn; rewrite Hlen].
    constructor; [by eapply orderItemSchema_inr_described|done].
Qed.

Lemma createOrderSchema_inr_described (body : CreateOrderBody) (value : CreateOrderValue) :
  createOrderSchema joiEmail body = inr value →
  describedBody body ∧ namesCustomer joiEmail body.
Proof.
  unfold createOrderSchema, mbind, Validated_bind, mret, Validated_ret.
  destruct (stringRequired _ (body_customerId body)) as [?|cid] eqn:Hcid; [done|].
  destruct (stringRequired _ (body_customerEmail body)) as [?|cemail] eqn:Hce; [done|].
  destruct (joiEmail cemail) eqn:Hjoi; [|done].
  destruct (stringRequired _ (body_shippingAddress body)) as [?|ship] eqn:Hship; [done|].
  destruct (stringRequired _ (body_billingAddress body)) as [?|bill] eqn:Hbill; [done|].
  pose proof (stringRequired_inr_present _ _ _ Hcid) as Pcid.
  pose proof (stringRequired_inr_present _ _ _ Hship) as Pship.
  pose proof (stringRequired_inr_present _ _ _ Hbill) as Pbill.
  intros Hrest.
  assert (body_currency body = None
          ∨ ∃ c, body_currency body = Some c ∧ JS.length c = 3%nat) as Hcur.
  { destruct (body_currency body) as [c|]; [|by left]. right. exists c. split; [done|].
    repeat case_bool_decide; done. }
  assert (∃ items, body_orderItems body = Some items ∧ items ≠ []
                   ∧ Forall describedItem items) as Hitems.
  { destruct (body_orderItems body) as [items|]; [|repeat case_match; by simplify_eq].
    exists items. split; [done|].
    destruct (orderItemsSchema 0 items) as [msg|vs] eqn:Hvs;
      [repeat case_match; by simplify_eq|].
    apply orderItemsSchema_inr_described in Hvs as [Hall Hlen].
    split; [|done]. intros ->. destruct vs; [|done].
    repeat case_match; by simplify_eq. }
  split; [by split_and!|]. split; [done|].
  unfold stringRequired in Hce. destruct (body_customerEmail body) as [s|]; [|done].
  case_bool_decide; [done|]. injection Hce as ->. by exists cemail.
Qed.

(** X11. Of the bodies that carry no other keys than those of the schema,
    with strings where the schema has strings, numbers where it has numbers
    and a list of such items under orderItems, the schema of the
    create-order body accepts exactly those that have non-empty shipping
    and billing addresses, no currency or one of 3 UTF-16 code units, a
    non-empty list of items (product id and name, a safe integer quantity
    of at least 1, a safe unit price above 0) and that also name a customer
    (a customer id and an e-mail address Joi accepts); every other such
    body is answered 400 "Validation Error" before anything else happens:
    the world is as it was, whoever the caller is. *)
Theorem create_order_schema_accepts
    (env : Env) (user : option User) (body : CreateOrderBody) (w : World) :
  ((∃ value, createOrderSchema joiEmail body = inr value)
   ↔ describedBody body ∧ namesCustomer joiEmail body)
  ∧ (¬ (describedBody body ∧ namesCustomer joiEmail body) →
     ∃ msg : string,
       serve sqlInput joiEmail (mkRequest env user (POST_orders body)) w
       = (mkResponse 400 (ErrorJson "Validation Error" msg), w)).
Proof.
  assert ((∃ value, createOrderSchema joiEmail body = inr value)
          ↔ describedBody body ∧ namesCustomer joiEmail body) as Hiff.
  { split.
    - intros [value Hv]. by eapply createOrderSchema_inr_described.
    - intros [Hd ((cid & Hcid & Hcid') & (cemail & Hce & Hce' & Hjoi))].
      destruct (createOrderSchema_described body cid cemail Hd Hcid Hcid' Hce Hce' Hjoi)
        as (ship & bill & items & vs & _ & _ & _ & _ & Hv).
      by eexists. }
  split; [done|]. intros Hnot. run_handler.
  destruct (createOrderSchema joiEmail body) as [msg|value] eqn:Hv.
  - exists msg. cbn. by rewrite errorHandler_Validation.
  - exfalso. apply Hnot, Hiff. by exists value.
Qed.

Lemma statusOfString_Some (s : string) (st : OrderStatus) :
  statusOfString s = Some st ↔ s = statusName st.
Proof.
  split; [|intros ->; apply statusOfString_statusName].
  unfold statusOfString. repeat case_bool_decide; intros [= <-]; by subst.
Qed.

(** X12. The schema of the set-status body accepts exactly the five
    enumerated status names; for an admin, every other body is answered
    400 "Validation Error" without any store access: the world is as it
    was. *)
Theorem update_status_schema_accepts
    (env : Env) (user : option User) (wanted : string) (body : StatusBody) (w : World) :
  (∀ s : OrderStatus,
     updateOrderStatusSchema body = inr s ↔ body_status body = Some (statusName s))
  ∧ (hasAdminRole user →
     (∀ s : OrderStatus, body_status body ≠ Some (statusName s)) →
     ∃ msg : string,
       serve sqlInput joiEmail (mkRequest env user (PATCH_status wanted body)) w
       = (mkResponse 400 (ErrorJson "Validation Error" msg), w)).
Proof.
  assert (∀ s : OrderStatus,
            updateOrderStatusSchema body = inr s ↔ body_status body = Some (statusName s))
    as Hiff.
  { intros s. unfold updateOrderStatusSchema.
    destruct (body_status body) as [name|]; [|done].
    destruct (statusOfString name) as [st|] eqn:Hname.
    - apply statusOfString_Some in Hname as ->.
      split; [by intros [= ->]|]. intros [= Heq]. f_equal.
      by destruct st, s.
    - split; [done|]. intros [= ->]. by rewrite statusOfString_statusName in Hname. }
  split; [done|]. intros Hadmin%isAdmin_true Hnone.
  run_handler. rewrite Hadmin. cbn [negb].
  destruct (updateOrderStatusSchema body) as [msg|s] eqn:Hs.
  - exists msg. cbn. by rewrite errorHandler_Validation.
  - destruct (Hiff s) as [Hname _]. by destruct (Hnone s (Hname eq_refl)).
Qed.

(** ** Requests without a customer id, and a store that is not connected *)

(** X13. A request that carries no customer id (no user, or an empty id)
    never reaches the store on the routes that list, read, create or
    cancel: it is answered 400 and the world is as it was; reading and
    cancelling answer "Customer ID not found in token". *)
Theorem no_customer_id_no_store_access
    (env : Env) (user : option User) (route : Route) (w : World) :
  callerId user = "" →
  (∀ wanted body, route ≠ PATCH_status wanted body) →
  let r := serve sqlInput joiEmail (mkRequest env user route) w in
  httpStatus (fst r) = 400
  ∧ snd r = w
  ∧ (∀ wanted, route = GET_order wanted ∨ route = PATCH_cancel wanted →
       fst r = mkResponse 400 (ErrorJson "Bad Request" "Customer ID not found in token")).
Proof.
  intros Hid Hroute r. subst r.
  destruct route as [query|wanted|body|wanted body|wanted]; run_handler.
  - destruct (queryParamsSchema query) as [msg|[page pageSize]];
      [cbn; by rewrite errorHandler_Validation; split_and!; [..|intros ? [?|?]]|].
    cbn. rewrite falsy_callerId, bool_decide_eq_true_2 by done.
    cbn. rewrite errorHandler_BadRequest. by split_and!; [..|intros ? [?|?]].
  - rewrite falsy_callerId, bool_decide_eq_true_2 by done.
    cbn. by rewrite errorHandler_BadRequest.
  - destruct (createOrderSchema joiEmail body) as [msg|value];
      [cbn; by rewrite errorHandler_Validation; split_and!; [..|intros ? [?|?]]|].
    cbn. rewrite falsy_callerId, bool_decide_eq_true_2 by done.
    cbn. rewrite errorHandler_BadRequest. by split_and!; [..|intros ? [?|?]].
  - by destruct (Hroute wanted body).
  - rewrite falsy_callerId, bool_decide_eq_true_2 by done.
    cbn. by rewrite errorHandler_BadRequest.
Qed.

Lemma errorHandler_poolNotInitialized (p : bool) :
  errorHandler p poolNotInitialized
  = mkResponse 500
      (ErrorJson "Internal Server Error"
         (if p then "An unexpected error occurred" else "Database pool not initialized")).
Proof. by destruct p. Qed.

(** X14. While the store is not connected, no request changes the store
    or publishes: a request is refused before the store is reached (400,
    or 403 on the admin route) or answered 500 after its first store call,
    with the message "Database pool not initialized" outside production
    and without it in production. *)
Theorem disconnected_store_answers_500 (req : Request) (w : World) :
  pool (dbService w) = false →
  let r := serve sqlInput joiEmail req w in
  dbService (snd r) = dbService w
  ∧ topic (snd r) = topic w
  ∧ ((snd r = w ∧ (httpStatus (fst r) = 400 ∨ httpStatus (fst r) = 403))
     ∨ (length (storeCalls (snd r)) = S (length (storeCalls w))
        ∧ fst r = mkResponse 500
                    (ErrorJson "Internal Server Error"
                       (if production (req_env req) then "An unexpected error occurred"
                        else "Database pool not initialized")))).
Proof.
  intros Hpool r. subst r.
  destruct req as [env user [query|wanted|body|wanted body|wanted]];
    run_handler; cbn [req_env].
  - destruct (queryParamsSchema query) as [msg|[page pageSize]];
      [cbn; rewrite errorHandler_Validation; split_and!; auto|].
    cbn. destruct (JS.falsy _); [cbn; rewrite errorHandler_BadRequest; split_and!; auto|].
    unfold DatabaseService.getOrdersByCustomer. rewrite Hpool. cbn.
    rewrite errorHandler_poolNotInitialized, length_app. cbn.
    split_and!; auto. right. split; [lia|done].
  - destruct (JS.falsy _); [cbn; rewrite errorHandler_BadRequest; split_and!; auto|].
    unfold DatabaseService.getOrderById. rewrite Hpool. cbn.
    rewrite errorHandler_poolNotInitialized, length_app. cbn.
    split_and!; auto. right. split; [lia|done].
  - destruct (createOrderSchema joiEmail body) as [msg|value];
      [cbn; rewrite errorHandler_Validation; split_and!; auto|].
    cbn. destruct (JS.falsy _ || JS.falsy _);
      [cbn; rewrite errorHandler_BadRequest; split_and!; auto|].
    unfold DatabaseService.createOrder. rewrite Hpool. cbn.
    rewrite errorHandler_poolNotInitialized, length_app. cbn.
    split_and!; auto. right. split; [lia|done].
  - destruct (negb (isAdmin user)); [cbn; split_and!; auto|].
    destruct (updateOrderStatusSchema body) as [msg|newStatus];
      [cbn; rewrite errorHandler_Validation; split_and!; auto|].
    cbn. unfold DatabaseService.updateOrderStatus. rewrite Hpool. cbn.
    rewrite errorHandler_poolNotInitialized, length_app. cbn.
    split_and!; auto. right. split; [lia|done].
  - destruct (JS.falsy _); [cbn; rewrite errorHandler_BadRequest; split_and!; auto|].
    unfold DatabaseService.getOrderById. rewrite Hpool. cbn.
    rewrite errorHandler_poolNotInitialized, length_app. cbn.
    split_and!; auto. right. split; [lia|done].
Qed.

(** ** The configuration *)

Import Config.

Lemma orElse_nonempty (v : option string) (fallback : string) :
  fallback ≠ "" → orElse v fallback ≠ "".
Proof.
  intros Hne. unfold orElse, JS.falsy. destruct v as [s|]; [|done].
  by case_bool_decide.
Qed.

Lemma falsy_Some (s : string) : JS.falsy (Some s) = true ↔ s = "".
Proof. apply bool_decide_eq_true. Qed.

Lemma validateConfig_missing (cfg : AppConfig) :
  filter (λ key, JS.falsy (valueAt cfg key) = true) required = []
  ↔ server (databaseConfig cfg) ≠ "" ∧ database (databaseConfig cfg) ≠ ""
    ∧ username (databaseConfig cfg) ≠ "".
Proof.
  unfold required. rewrite !filter_cons, filter_nil.
  change (valueAt cfg "database.server") with (Some (server (databaseConfig cfg))).
  change (valueAt cfg "database.database") with (Some (database (databaseConfig cfg))).
  change (valueAt cfg "database.username") with (Some (username (databaseConfig cfg))).
  repeat destruct (decide _) as [?%falsy_Some|?]; split; try done.
  all: try (intros (? & ? & ?); done).
  intros _. rewrite !falsy_Some in *. done.
Qed.

(** X15. The required-key check of [validateConfig] cannot fail on the
    configuration the service builds: whatever the environment, server,
    database and user name are never empty (an unset or empty variable is
    replaced by its default), so [validateConfig] returns; it warns about
    the database credentials exactly when neither SQL_PASSWORD nor
    SQL_CONNECTION_STRING is set and about the JWT secret exactly when
    JWT_SECRET is not set.  On a configuration in general it throws exactly
    when one of the three keys is empty. *)
Theorem validate_config_of_environment (env : ProcessEnv) (cfg : AppConfig) :
  (∃ warnings : list string,
     validateConfig (config env) = inr warnings
     ∧ ("Warning: No database password or connection string provided" ∈ warnings
        ↔ JS.falsy (env "SQL_PASSWORD") = true ∧ JS.falsy (env "SQL_CONNECTION_STRING") = true)
     ∧ ("Warning: No JWT secret provided" ∈ warnings ↔ JS.falsy (env "JWT_SECRET") = true))
  ∧ ((∃ error, validateConfig cfg = inl error)
     ↔ server (databaseConfig cfg) = "" ∨ database (databaseConfig cfg) = ""
       ∨ username (databaseConfig cfg) = "").
Proof.
  split.
  - unfold validateConfig.
    assert (filter (λ key, JS.falsy (valueAt (config env) key) = true) required = []) as ->.
    { apply validateConfig_missing. cbn. split_and!; by apply orElse_nonempty. }
    cbn [length bool_decide decide_rel]. rewrite bool_decide_eq_false_2 by lia.
    eexists. split; [done|]. cbn [config databaseConfig password connectionString auth jwtSecret].
    destruct (JS.falsy (env "SQL_PASSWORD")), (JS.falsy (env "SQL_CONNECTION_STRING")),
      (JS.falsy (env "JWT_SECRET")); cbn; split.
    all: split; [intros Hin|intros Hfalsy].
    all: repeat match goal with
           | H : _ ∈ _ :: _ |- _ => apply elem_of_cons in H as [H|H]; [try done|]
           | H : _ ∈ [] |- _ => by apply elem_of_nil in H
           | H : _ ∧ _ |- _ => destruct H
           end; try done.
    all: try (by repeat constructor).
  - unfold validateConfig.
    pose proof (validateConfig_missing cfg) as Hmissing.
    destruct (filter _ required) as [|key missing] eqn:Hfilter.
    + cbn [length]. rewrite bool_decide_eq_false_2 by lia.
      split; [by intros [? ?]|]. intros Hempty.
      destruct Hmissing as [Hall _]. destruct (Hall eq_refl) as (? & ? & ?).
      by destruct Hempty as [?|[?|?]].
    + cbn [length]. rewrite bool_decide_eq_true_2 by lia.
      split; [intros _|by eexists].
      destruct (decide (server (databaseConfig cfg) = "")); [by left|].
      destruct (decide (database (databaseConfig cfg) = "")); [by right; left|].
      destruct (decide (username (databaseConfig cfg) = "")); [by right; right|].
      destruct Hmissing as [_ Hnone]. by specialize (Hnone (conj n (conj n0 n1))).
Qed.

(** ** Authentication *)

Import Auth Server.

Variable jwtVerify : string → string → string → string → JsError + JwtPayload.

Lemma substring_all (s : string) : String.substring 0 (String.length s) s = s.
Proof. induction s as [|c s IH]; [done|]. cbn. by rewrite IH. Qed.

Lemma prefix_split (p h : string) :
  String.prefix p h = true →
  h = p +:+ String.substring (String.length p) (String.length h - String.length p) h.
Proof.
  revert p. induction h as [|c' h IH]; intros [|c p]; cbn; try done.
  - intros _. by rewrite substring_all.
  - destruct (Ascii.ascii_dec c c') as [->|]; [|done].
    intros Hp. exact (f_equal (String c') (IH p Hp)).
Qed.

Lemma prefix_app (p t : string) : String.prefix p (p +:+ t) = true.
Proof.
  induction p as [|c p IH].
  - change ("" +:+ t) with t. by destruct t.
  - change (String c p +:+ t) with (String c (p +:+ t)). cbn.
    by destruct (Ascii.ascii_dec c c).
Qed.

Lemma bearerToken_app (token : string) : bearerToken ("Bearer " +:+ token) = token.
Proof.
  unfold bearerToken.
  change (String.substring 0 (String.length token - 0) token = token).
  rewrite Nat.sub_0_r. apply substring_all.
Qed.

(** What the header is when the middleware goes on to verify a token. *)
Lemma authorization_bearer (authorization : option string) :
  JS.falsy authorization || negb (String.prefix "Bearer " (default "" authorization)) = false →
  bool_decide (bearerToken (default "" authorization) = "") = false →
  ∃ token, token ≠ "" ∧ authorization = Some ("Bearer " +:+ token)
           ∧ bearerToken (default "" authorization) = token.
Proof.
  intros Hheader Htoken. apply orb_false_iff in Hheader as [Hsome Hprefix].
  destruct authorization as [h|]; [|done]. cbn in *.
  apply negb_false_iff, prefix_split in Hprefix.
  apply bool_decide_eq_false in Htoken.
  exists (bearerToken h). split_and!; [done| |done].
  f_equal. exact Hprefix.
Qed.

Lemma getJwtSecret_inr (cfg : AppConfig) (getSecret : JsError + option string)
    (this this' : AuthService) (secret : string) :
  getJwtSecret cfg getSecret this = (inr secret, this') →
  secret ≠ "" ∧ this' = mkAuthService (Some secret) (keyVaultClient this).
Proof.
  unfold getJwtSecret.
  destruct (cachedSecret this) as [cached|] eqn:Hcached; cbn [JS.falsy negb].
  - case_bool_decide as Hempty; cbn [negb].
    + destruct (keyVaultClient this); [destruct getSecret as [e|[value|]]|].
      all: cbn [JS.falsy]; repeat case_bool_decide; cbn [negb].
      all: try destruct (jwtSecret (auth cfg)) as [configured|]; cbn [JS.falsy negb default].
      all: repeat case_bool_decide; cbn [negb]; intros [= <- <-]; try done.
    + intros [= <- <-]. split; [done|]. destruct this. cbn in *. by subst.
  - destruct (keyVaultClient this); [destruct getSecret as [e|[value|]]|].
    all: cbn [JS.falsy]; repeat case_bool_decide; cbn [negb].
    all: try destruct (jwtSecret (auth cfg)) as [configured|]; cbn [JS.falsy negb default].
    all: repeat case_bool_decide; cbn [negb]; intros [= <- <-]; try done.
Qed.

(** X16. Every request under /api/orders that reaches a handler carries
    a verified token, and the handler sees the identity of that token:
    either the answer is 401 "Unauthorized" and the controller's world
    (store, store calls, topic) is untouched, or the Authorization header
    is "Bearer " followed by a non-empty token that [jwt.verify] accepted
    under the secret now cached and the configured audience and issuer,
    and the answer and the world are those of the route served for the
    user of the token's payload. *)
Theorem api_orders_serves_only_verified_tokens
    (cfg : AppConfig) (req : HttpRequest) (s : Service) :
  let r := apiOrders sqlInput joiEmail jwtVerify cfg req s in
  (orderController (snd r) = orderController s
   ∧ ∃ msg : string, fst r = mkResponse 401 (ErrorJson "Unauthorized" msg))
  ∨ (∃ (token secret : string) (payload : JwtPayload),
       token ≠ ""
       ∧ authorization req = Some ("Bearer " +:+ token)
       ∧ secret ≠ ""
       ∧ cachedSecret (authService (snd r)) = Some secret
       ∧ jwtVerify token secret (audience (auth cfg)) (issuer (auth cfg)) = inr payload
       ∧ (fst r, orderController (snd r))
         = serve sqlInput joiEmail
             (mkRequest (http_env req) (Some (userOf payload)) (http_route req))
             (orderController s)).
Proof.
  intros r. subst r. unfold apiOrders, authMiddleware.
  destruct (JS.falsy (authorization req) || negb _) eqn:Hheader;
    [left; cbn; split; [done|by eexists]|].
  destruct (bool_decide (bearerToken _ = "")) eqn:Htoken;
    [left; cbn; split; [done|by eexists]|].
  destruct (authorization_bearer _ Hheader Htoken) as (token & Hne & Hauth & ->).
  unfold verifyToken.
  destruct (getJwtSecret cfg (keyVault req) (authService s)) as [[e|secret] this'] eqn:Hsecret;
    [left; cbn; split; [done|by eexists]|].
  apply getJwtSecret_inr in Hsecret as [Hsecret ->].
  destruct (jwtVerify token secret _ _) as [e|payload] eqn:Hverify;
    [left; cbn; split; [done|by eexists]|].
  right. exists token, secret, payload.
  destruct (serve _ _ _ _) as [response w'] eqn:Hserve. cbn.
  by split_and!.
Qed.

(** X17. A request without a usable Authorization header is answered 401
    before anything is looked up: no header, an empty header or one that
    does not start with "Bearer " gives "Bearer token required", the bare
    prefix gives "Token not provided", and the whole service (the cached
    secret included) is as it was. *)
Theorem api_orders_requires_bearer_token
    (cfg : AppConfig) (req : HttpRequest) (s : Service) :
  (∀ token : string, token ≠ "" → authorization req ≠ Some ("Bearer " +:+ token)) →
  apiOrders sqlInput joiEmail jwtVerify cfg req s
  = (mkResponse 401
       (ErrorJson "Unauthorized"
          (if bool_decide (authorization req = Some "Bearer ") then "Token not provided"
           else "Bearer token required")),
     s).
Proof.
  intros Hnone. unfold apiOrders, authMiddleware.
  destruct (JS.falsy (authorization req) || negb _) eqn:Hheader.
  - rewrite bool_decide_eq_false_2; [by destruct s|].
    intros Heq. by rewrite Heq in Hheader.
  - destruct (bool_decide (bearerToken _ = "")) eqn:Htoken.
    + apply orb_false_iff in Hheader as [Hsome Hprefix].
      destruct (authorization req) as [h|] eqn:Hh; [|done]. cbn in *.
      apply negb_false_iff, prefix_split in Hprefix.
      apply bool_decide_eq_true in Htoken.
      change (h = "Bearer " +:+ bearerToken h) in Hprefix.
      unfold bearerToken in Hprefix, Htoken. rewrite Htoken in Hprefix.
      change (h = "Bearer ") in Hprefix. subst h.
      rewrite bool_decide_eq_true_2 by done. by destruct s.
    + destruct (authorization_bearer _ Hheader Htoken) as (token & Hne & Hauth & _).
      by destruct (Hnone token Hne).
Qed.

(** X18. A request whose token verifies is served as the user of the
    token: with the header "Bearer " followed by a token that [jwt.verify]
    accepts under the secret in force, the answer and the world are those
    of the route served for the user whose id, e-mail and roles are the
    payload's (no roles when the payload has none), and the secret is
    cached. *)
Theorem api_orders_serves_verified_user
    (cfg : AppConfig) (req : HttpRequest) (s : Service) (token secret : string)
    (payload : JwtPayload) (this' : AuthService) :
  authorization req = Some ("Bearer " +:+ token) →
  token ≠ "" →
  getJwtSecret cfg (keyVault req) (authService s) = (inr secret, this') →
  jwtVerify token secret (audience (auth cfg)) (issuer (auth cfg)) = inr payload →
  let user := mkUser (sub payload) (payload_email payload)
                (default [] (payload_roles payload)) in
  let served := serve sqlInput joiEmail
                  (mkRequest (http_env req) (Some user) (http_route req))
                  (orderController s) in
  apiOrders sqlInput joiEmail jwtVerify cfg req s
  = (fst served, mkService (mkAuthService (Some secret) (keyVaultClient (authService s)))
                   (snd served)).
Proof.
  intros Hauth Hne Hsecret Hverify user served. subst user served.
  unfold apiOrders, authMiddleware. rewrite Hauth.
  change (default "" (Some ("Bearer " +:+ token))) with ("Bearer " +:+ token).
  cbn [JS.falsy]. rewrite prefix_app, bearerToken_app.
  rewrite (bool_decide_eq_false_2 ("Bearer " +:+ token = "")) by done.
  cbn [negb orb]. rewrite (bool_decide_eq_false_2 (token = "")) by done.
  unfold verifyToken. rewrite Hsecret, Hverify.
  apply getJwtSecret_inr in Hsecret as [_ ->].
  unfold userOf. by destruct (serve _ _ _ _).
Qed.

(** X19. The secret that verifies tokens: a cached secret is used as it
    is, without asking anyone; otherwise a non-empty value of Key Vault
    goes before the configured JWT_SECRET, and a failure of Key Vault falls
    back to the configuration; the secret found is never empty and is
    cached, so that every later call returns it whatever Key Vault and the
    configuration then hold.  With no secret at all the call throws "JWT
    secret not found" and caches nothing. *)
Theorem jwt_secret_is_cached
    (cfg : AppConfig) (getSecret : JsError + option string) (this : AuthService) :
  match getJwtSecret cfg getSecret this with
  | (inr secret, this') =>
      secret ≠ ""
      ∧ cachedSecret this' = Some secret
      ∧ keyVaultClient this' = keyVaultClient this
      ∧ (∀ cfg' getSecret', getJwtSecret cfg' getSecret' this' = (inr secret, this'))
      ∧ (JS.falsy (cachedSecret this) = false → cachedSecret this = Some secret)
      ∧ (JS.falsy (cachedSecret this) = true → keyVaultClient this = true →
         ∀ value, getSecret = inr (Some value) → value ≠ "" → secret = value)
      ∧ (JS.falsy (cachedSecret this) = true →
         keyVaultClient this = false ∨ (∃ e, getSecret = inl e) →
         jwtSecret (auth cfg) = Some secret)
  | (inl error, this') =>
      error = newError "JWT secret not found"
      ∧ this' = this
      ∧ JS.falsy (cachedSecret this) = true
      ∧ JS.falsy (jwtSecret (auth cfg)) = true
  end.
Proof.
  destruct (getJwtSecret cfg getSecret this) as [[error|secret] this'] eqn:Hget.
  - revert Hget. unfold getJwtSecret.
    destruct (JS.falsy (cachedSecret this)); [|done]. cbn [negb].
    destruct (if keyVaultClient this then _ else _); [done|].
    destruct (JS.falsy (jwtSecret (auth cfg))); [|done].
    by intros [= <- <-].
  - pose proof (getJwtSecret_inr _ _ _ _ _ Hget) as [Hne ->].
    cbn [cachedSecret keyVaultClient]. split_and!; try done.
    + intros cfg' getSecret'. unfold getJwtSecret. cbn [cachedSecret JS.falsy].
      by rewrite bool_decide_eq_false_2.
    + revert Hget. unfold getJwtSecret. destruct (cachedSecret this) as [cached|]; [|done].
      cbn [JS.falsy default]. intros Hget Hcached. rewrite Hcached in Hget.
      by injection Hget as <- _.
    + revert Hget. unfold getJwtSecret. intros Hget Hcached Hclient value -> Hvalue.
      rewrite Hcached, Hclient in Hget. cbn [negb JS.falsy] in Hget.
      rewrite bool_decide_eq_false_2 in Hget by done. by injection Hget as <- _.
    + revert Hget. unfold getJwtSecret. intros Hget Hcached Hvault.
      rewrite Hcached in Hget. cbn [negb] in Hget.
      assert ((if keyVaultClient this
               then match getSecret with
                    | inl _ => None
                    | inr value => if JS.falsy value then None else value
                    end
               else None) = None) as Hnone.
      { destruct Hvault as [-> | [e ->]]; [done|]. by destruct (keyVaultClient this). }
      rewrite Hnone in Hget.
      destruct (jwtSecret (auth cfg)) as [configured|]; [|done].
      cbn [JS.falsy default] in Hget. case_bool_decide; [done|].
      by injection Hget as <- _.
Qed.

(** X20. [requireRole] lets a request through exactly when it carries a
    user whose roles include the required one, and then leaves the user as
    it is; without a user it answers 401, with a user that lacks the role
    403.  For the role admin it passes exactly the callers the
    set-status handler takes for admins. *)
Theorem require_role_passes_role_holders (requiredRole : string) (user : option User) :
  (requireRole requiredRole user = Next user
   ↔ ∃ u, user = Some u ∧ requiredRole ∈ roles u)
  ∧ (user = None →
     requireRole requiredRole user
     = Respond (mkResponse 401 (ErrorJson "Unauthorized" "Authentication required")))
  ∧ (∀ u, user = Some u → requiredRole ∉ roles u →
       requireRole requiredRole user
       = Respond (mkResponse 403
                    (ErrorJson "Forbidden" ("Role '" +:+ requiredRole +:+ "' required"))))
  ∧ (requireRole "admin" user = Next user ↔ isAdmin user = true).
Proof.
  unfold requireRole, isAdmin, JS.arrayIncludes. split_and!.
  - destruct user as [u|]; [|split; [done|by intros (? & ? & ?)]].
    case_bool_decide; cbn; split; try done.
    + intros _. by exists u.
    + intros (u' & [= <-] & ?). done.
  - by intros ->.
  - intros u -> Hnot. by rewrite bool_decide_eq_false_2.
  - destruct user as [u|]; [|done]. by case_bool_decide.
Qed.

(** X21. [optionalAuth] never refuses a request: it always calls
    [next()], with the user [authMiddleware] would have passed on when that
    one lets the request through and with no user when that one answers
    401; both leave the authentication service in the same state. *)
Theorem optional_auth_never_refuses
    (cfg : AppConfig) (getSecret : JsError + option string) (authorization : option string)
    (this : AuthService) :
  let optional := optionalAuth jwtVerify cfg getSecret authorization this in
  let strict := authMiddleware jwtVerify cfg getSecret authorization this in
  snd optional = snd strict
  ∧ match fst strict with
    | Next user => fst optional = Next user ∧ is_Some user
    | Respond response => fst optional = Next None ∧ httpStatus response = 401
    end.
Proof.
  intros optional strict. subst optional strict. unfold optionalAuth, authMiddleware.
  destruct (JS.falsy authorization || negb _); [done|].
  destruct (bool_decide (bearerToken _ = "")); [done|].
  by destruct (verifyToken _ _ _ _ _) as [[e|payload] this'].
Qed.

(** X22. A service that is configured without a Key Vault and without
    JWT_SECRET refuses every request under /api/orders with 401, whatever
    the token and whatever [jwt.verify] would say, leaving the service as
    it was. *)
Theorem no_jwt_secret_refuses_every_request
    (env : ProcessEnv) (req : HttpRequest) (w : World) :
  JS.falsy (env "JWT_SECRET") = true →
  JS.falsy (env "KEY_VAULT_URL") = true →
  let s := mkService (newAuthService (config env)) w in
  snd (apiOrders sqlInput joiEmail jwtVerify (config env) req s) = s
  ∧ ∃ msg : string,
      fst (apiOrders sqlInput joiEmail jwtVerify (config env) req s)
      = mkResponse 401 (ErrorJson "Unauthorized" msg).
Proof.
  intros Hsecret Hvault s.
  subst s. unfold apiOrders, authMiddleware. cbn [authService orderController].
  destruct (JS.falsy (authorization req) || negb _); [cbn; split; [done|by eexists]|].
  destruct (bool_decide (bearerToken _ = "")); [cbn; split; [done|by eexists]|].
  unfold verifyToken, getJwtSecret, newAuthService.
  cbn [cachedSecret keyVaultClient JS.falsy negb config keyVaultUrl auth jwtSecret].
  rewrite Hvault, Hsecret. cbn. split; [done|by eexists].
Qed.

(** ** The error handler *)

(** The message of a client error: [error.message || 'Bad request']. *)
Lemma errorHandler_newBaseError (p : bool) (msg : string) (code : Z) :
  JS.includes msg "UNIQUE KEY constraint" = false →
  JS.includes msg "Azure" = false →
  errorHandler p (newBaseError msg code)
  = if bool_decide (400 ≤ code) && bool_decide (code < 500) then
      mkResponse code (ErrorJson "Client Error" (if bool_decide (msg = "") then "Bad request" else msg))
    else
      mkResponse 500
        (ErrorJson "Internal Server Error" (if p then "An unexpected error occurred" else msg)).
Proof.
  intros Hunique Hazure. unfold errorHandler, newBaseError.
  cbn [errorClass name message hasDetails statusCode].
  rewrite Hunique, Hazure. reflexivity.
Qed.

(** X23. How the error handler answers the error classes of errors.ts
    that it does not test for: it goes by their status code.  The 4xx
    classes (unauthorized, forbidden, conflict) keep their code under the
    label "Client Error"; the 5xx classes, service unavailable and service
    bus error included, are all answered 500 "Internal Server Error", never
    503, since their [name] is "Error".  (A message that mentions
    "UNIQUE KEY constraint" or "Azure" is answered by those cases
    instead.) *)
Theorem error_classes_answered_by_status_code (p : bool) (msg : string) :
  JS.includes msg "UNIQUE KEY constraint" = false →
  JS.includes msg "Azure" = false →
  let shown := if bool_decide (msg = "") then "Bad request" else msg in
  let hidden := if p then "An unexpected error occurred" else msg in
  errorHandler p (newUnauthorizedError msg) = mkResponse 401 (ErrorJson "Client Error" shown)
  ∧ errorHandler p (newForbiddenError msg) = mkResponse 403 (ErrorJson "Client Error" shown)
  ∧ errorHandler p (newConflictError msg) = mkResponse 409 (ErrorJson "Client Error" shown)
  ∧ errorHandler p (newInternalServerError msg)
    = mkResponse 500 (ErrorJson "Internal Server Error" hidden)
  ∧ errorHandler p (newDatabaseError msg)
    = mkResponse 500 (ErrorJson "Internal Server Error" hidden)
  ∧ errorHandler p (newServiceUnavailableError msg)
    = mkResponse 500 (ErrorJson "Internal Server Error" hidden)
  ∧ errorHandler p (newServiceBusError msg)
    = mkResponse 500 (ErrorJson "Internal Server Error" hidden).
Proof.
  intros Hunique Hazure shown hidden.
  unfold newUnauthorizedError, newForbiddenError, newConflictError, newInternalServerError,
    newDatabaseError, newServiceUnavailableError, newServiceBusError.
  rewrite !errorHandler_newBaseError by done. done.
Qed.

(** X24. The answers of the error handler: the status is a 4xx code, 500
    or 503 and does not depend on the environment; in production an answer
    of 500 or 503 never carries the message of the error, only one of four
    fixed texts; outside production a 500 carries the message as it
    is. *)
Theorem error_handler_hides_server_errors (error : JsError) :
  let r := errorHandler true error in
  (400 ≤ httpStatus r < 500 ∨ httpStatus r = 500 ∨ httpStatus r = 503)
  ∧ httpStatus (errorHandler false error) = httpStatus r
  ∧ (500 ≤ httpStatus r →
     ∃ label text,
       json r = ErrorJson label text
       ∧ text ∈ ["An unexpected error occurred"; "Database connection failed";
                 "Message service temporarily unavailable";
                 "External service temporarily unavailable"])
  ∧ (httpStatus r = 500 →
     errorHandler false error
     = mkResponse 500 (ErrorJson "Internal Server Error" (message error))).
Proof.
  intros r. subst r. unfold errorHandler.
  repeat (case_bool_decide || case_match); cbn [httpStatus json]; simplify_eq/=.
  all: split_and!; try lia; try done.
  all: try (intros _; eexists _, _; split; [done|]; by repeat constructor).
Qed.

(** ** The connection of the store *)

Section ConnectionProperties.

Import Connection.

Lemma falsy_false (v : option string) :
  JS.falsy v = false ↔ ∃ s, v = Some s ∧ s ≠ "".
Proof.
  destruct v as [s|]; cbn.
  - rewrite bool_decide_eq_false. split; [by exists s|by intros (? & [= <-] & ?)].
  - split; [done|by intros (? & ? & ?)].
Qed.

Lemma connectionStringOf_Some (env : ProcessEnv) (out : Outside) (this : Service) (s : string) :
  connectionStringOf env out this = Some s → s ≠ "" →
  env "SQL_CONNECTION_STRING" = Some s
  ∨ (keyVaultClient this = true ∧ JS.falsy (env "SQL_CONNECTION_STRING") = true
     ∧ getSecret out "sql-connection-string" = inr (Some s)).
Proof.
  unfold connectionStringOf.
  destruct (keyVaultClient this); cbn [andb]; [|by left].
  destruct (JS.falsy (env "SQL_CONNECTION_STRING")) eqn:Henv; [|by left].
  destruct (getSecret out "sql-connection-string") as [e|value]; [by left|].
  intros -> _. by right.
Qed.

Lemma passwordOf_Some (env : ProcessEnv) (out : Outside) (this : Service) (s : string) :
  passwordOf env out this = inr (Some s) →
  env "SQL_PASSWORD" = Some s
  ∨ (keyVaultClient this = true ∧ JS.falsy (env "SQL_PASSWORD") = true
     ∧ getSecret out "sql-admin-password" = inr (Some s)).
Proof.
  unfold passwordOf.
  destruct (keyVaultClient this); cbn [andb]; [|by intros [= ->]; left].
  destruct (JS.falsy (env "SQL_PASSWORD")) eqn:Henv; [|by intros [= ->]; left].
  destruct (getSecret out "sql-admin-password") as [e|value]; [done|].
  intros [= ->]. by right.
Qed.

(** X25. When [initialize] returns, the store is connected with
    credentials that are not empty: either a connection string, taken from
    SQL_CONNECTION_STRING or, when that is not set and there is a Key Vault
    client, from the secret sql-connection-string; or, when no connection
    string was found, server, database and user (never empty) with a
    password taken from SQL_PASSWORD or from the secret
    sql-admin-password.  The connection is always encrypted and never
    trusts the server certificate, whatever NODE_ENV is, and a readiness
    probe whose query runs then succeeds. *)
Theorem initialize_connects_with_credentials
    (env : ProcessEnv) (out : Outside) (this this' : Service) :
  initialize env out this = (inr (), this') →
  ∃ c : Credentials,
    this' = mkService (keyVaultClient this) (Some (mkConnectionConfig c true false true 10 0 30000))
              (Some true)
    ∧ match c with
      | ConnectionString s =>
          s ≠ ""
          ∧ (env "SQL_CONNECTION_STRING" = Some s
             ∨ (keyVaultClient this = true ∧ JS.falsy (env "SQL_CONNECTION_STRING") = true
                ∧ getSecret out "sql-connection-string" = inr (Some s)))
      | Login server database user password =>
          server ≠ "" ∧ database ≠ "" ∧ user ≠ "" ∧ password ≠ ""
          ∧ JS.falsy (env "SQL_CONNECTION_STRING") = true
          ∧ (env "SQL_PASSWORD" = Some password
             ∨ (keyVaultClient this = true ∧ JS.falsy (env "SQL_PASSWORD") = true
                ∧ getSecret out "sql-admin-password" = inr (Some password)))
      end
    ∧ (probeQuery out = None → ready out this' = (200, "ready")).
Proof.
  unfold initialize.
  destruct (JS.falsy (connectionStringOf env out this)) eqn:Hcs; cbn [negb].
  - destruct (passwordOf env out this) as [e|password] eqn:Hpw; [done|].
    destruct (JS.falsy password) eqn:Hfalsy; [done|].
    destruct (newConnectionPool out); [done|].
    destruct (connect out); [done|]. destruct (schemaQueries out); [done|].
    intros [= <-]. eexists. split; [done|].
    apply falsy_false in Hfalsy as (pw & -> & Hne). cbn [default].
    split_and!; try by apply orElse_nonempty.
    + done.
    + unfold connectionStringOf in Hcs.
      destruct (keyVaultClient this); cbn [andb] in Hcs; [|done].
      destruct (JS.falsy (env "SQL_CONNECTION_STRING")) eqn:Henv; [done|congruence].
    + by apply passwordOf_Some.
    + intros Hprobe. unfold ready, checkConnection. cbn [pool]. by rewrite Hprobe.
  - destruct (newConnectionPool out); [done|].
    destruct (connect out); [done|]. destruct (schemaQueries out); [done|].
    intros [= <-]. eexists. split; [done|].
    apply falsy_false in Hcs as (s & Hs & Hne). rewrite Hs. cbn [default].
    split_and!; [done|by apply connectionStringOf_Some|].
    intros Hprobe. unfold ready, checkConnection. cbn [pool]. by rewrite Hprobe.
Qed.

(** X26. How [initialize] fails.  Without credentials it throws before
    anything is changed: "SQL password not available" when Key Vault fails
    on the password, "SQL password not provided" when no password is found.
    When the pool's constructor throws, the pool is the one there was.
    When [connect] throws, the pool object is already in place although it
    is not connected: [getPool] then returns it, while the readiness probe
    reports "Database not connected".  When a schema query throws, the pool
    stays connected. *)
Theorem initialize_failures
    (env : ProcessEnv) (out : Outside) (this this' : Service) (error : JsError) :
  initialize env out this = (inl error, this') →
  (this' = this
   ∧ JS.falsy (connectionStringOf env out this) = true
   ∧ ((error = newError "SQL password not available"
       ∧ keyVaultClient this = true ∧ JS.falsy (env "SQL_PASSWORD") = true
       ∧ ∃ e, getSecret out "sql-admin-password" = inl e)
      ∨ (error = newError "SQL password not provided"
         ∧ ∃ password, passwordOf env out this = inr password ∧ JS.falsy password = true)))
  ∨ (newConnectionPool out = Some error
     ∧ pool this' = pool this
     ∧ is_Some (connectionConfig this'))
  ∨ (newConnectionPool out = None
     ∧ connect out = Some error
     ∧ pool this' = Some false
     ∧ is_Some (connectionConfig this')
     ∧ getPool this' = inr false
     ∧ ∀ out', checkConnection out' this' = inl (newError "Database not connected"))
  ∨ (newConnectionPool out = None
     ∧ connect out = None
     ∧ schemaQueries out = Some error
     ∧ pool this' = Some true).
Proof.
  unfold initialize.
  destruct (JS.falsy (connectionStringOf env out this)) eqn:Hcs; cbn [negb].
  - destruct (passwordOf env out this) as [e|password] eqn:Hpw.
    + intros [= <- <-]. left. split_and!; [done..|]. left.
      unfold passwordOf in Hpw.
      destruct (keyVaultClient this); cbn [andb] in Hpw; [|done].
      destruct (JS.falsy (env "SQL_PASSWORD")); [|done].
      destruct (getSecret out "sql-admin-password") as [e'|value]; [|done].
      injection Hpw as <-. split_and!; [done..|by exists e'].
    + destruct (JS.falsy password) eqn:Hfalsy.
      * intros [= <- <-]. left. split_and!; [done..|]. right. split; [done|by exists password].
      * destruct (newConnectionPool out) as [e|];
          [intros [= <- <-]; right; left; by split_and!|].
        destruct (connect out) as [e|];
          [intros [= <- <-]; right; right; left; by split_and!|].
        destruct (schemaQueries out) as [e|]; [|done].
        intros [= <- <-]. right. right. right. by split_and!.
  - destruct (newConnectionPool out) as [e|];
      [intros [= <- <-]; right; left; by split_and!|].
    destruct (connect out) as [e|];
      [intros [= <- <-]; right; right; left; by split_and!|].
    destruct (schemaQueries out) as [e|]; [|done].
    intros [= <- <-]. right. right. right. by split_and!.
Qed.

(** X27. Key Vault may fail for the connection string but not for the
    password: with a Key Vault client whose every call throws, and a
    database that accepts the connection, [initialize] returns exactly when
    the environment provides a connection string or a password, and throws
    "SQL password not available" otherwise. *)
Theorem key_vault_failure_is_fatal_for_the_password_only
    (env : ProcessEnv) (out : Outside) (this : Service) :
  keyVaultClient this = true →
  (∀ secretName, ∃ e, getSecret out secretName = inl e) →
  newConnectionPool out = None →
  connect out = None →
  schemaQueries out = None →
  match fst (initialize env out this) with
  | inr _ =>
      JS.falsy (env "SQL_CONNECTION_STRING") = false ∨ JS.falsy (env "SQL_PASSWORD") = false
  | inl error =>
      error = newError "SQL password not available"
      ∧ JS.falsy (env "SQL_CONNECTION_STRING") = true
      ∧ JS.falsy (env "SQL_PASSWORD") = true
  end.
Proof.
  intros Hclient Hvault Hpool Hconnect Hschema.
  unfold initialize, connectionStringOf, passwordOf.
  rewrite Hclient, Hpool, Hconnect, Hschema.
  destruct (Hvault "sql-connection-string") as [e1 ->].
  destruct (Hvault "sql-admin-password") as [e2 ->]. cbn [andb].
  destruct (JS.falsy (env "SQL_CONNECTION_STRING")) eqn:Hcs.
  - rewrite Hcs. cbn [negb].
    destruct (JS.falsy (env "SQL_PASSWORD")) eqn:Hpw; [done|].
    rewrite Hpw. cbn. by right.
  - rewrite Hcs. cbn. by left.
Qed.

(** X28. Readiness follows the connection: the probe answers 200 exactly
    when the pool is connected and the probe query runs; a service that was
    never initialised answers 503; and after [close] the probe answers 503
    although [getPool] still returns the pool. *)
Theorem readiness_follows_connection (env : ProcessEnv) (out : Outside) (this : Service) :
  (fst (ready out this) = 200 ↔ pool this = Some true ∧ probeQuery out = None)
  ∧ (fst (ready out this) = 200 ∨ fst (ready out this) = 503)
  ∧ ready out (newDatabaseService env) = (503, "not ready")
  ∧ (is_Some (pool this) → poolClose out = None →
     getPool (close out this) = inr false
     ∧ ∀ out', ready out' (close out this) = (503, "not ready")).
Proof.
  unfold ready, checkConnection, close, getPool, newDatabaseService. cbn [pool].
  split_and!.
  - destruct (pool this) as [[|]|], (probeQuery out); cbn; split; try done.
    all: by intros [? ?].
  - destruct (pool this) as [[|]|], (probeQuery out); cbn; auto.
  - done.
  - intros [connected Hpool] Hclose. rewrite Hpool, Hclose. by cbn.
Qed.

End ConnectionProperties.

(** ** The connection of the notifier *)

Section ServiceBusConnectionProperties.

Import ServiceBusConnection.

Lemma index_prefix (sub s : string) :
  String.prefix sub s = true → String.index 0 sub s = Some 0%nat.
Proof.
  destruct s as [|c s]; [by destruct sub|].
  intros Hprefix. cbn [String.index]. by rewrite Hprefix.
Qed.

Lemma index_app (pre sub post : string) :
  is_Some (String.index 0 sub (pre +:+ sub +:+ post)).
Proof.
  induction pre as [|c pre IH].
  - change ("" +:+ sub +:+ post) with (sub +:+ post).
    rewrite index_prefix; [by eexists|apply prefix_app].
  - change (String c pre +:+ sub +:+ post) with (String c (pre +:+ sub +:+ post)).
    cbn [String.index]. destruct (String.prefix sub _); [by eexists|].
    destruct IH as [n ->]. by eexists.
Qed.

Lemma includes_app (pre sub post : string) : JS.includes (pre +:+ sub +:+ post) sub = true.
Proof. unfold JS.includes. by destruct (index_app pre sub post) as [n ->]. Qed.

Lemma append_assoc (a b c : string) : (a +:+ b) +:+ c = a +:+ b +:+ c.
Proof.
  induction a as [|x a IH]; [done|].
  exact (f_equal (String x) IH).
Qed.

(** X29. [initialize] of the notifier fails only when the client's
    constructor throws, and then changes nothing; a failure of Key Vault
    never makes it fail.  Otherwise the client gets the connection string
    of the environment, or else the secret of Key Vault, or else the
    managed-identity endpoint of the namespace; it is given the Azure
    credential exactly when its connection string mentions
    "ManagedIdentity", which the endpoint of the namespace always does;
    and the sender is created for ORDER_EVENTS_TOPIC, "order-events" by
    default. *)
Theorem notifier_initialize
    (env : ProcessEnv) (out : Outside) (this : Service) :
  match initialize env out this with
  | (inl error, this') => newServiceBusClient out = Some error ∧ this' = this
  | (inr _, this') =>
      newServiceBusClient out = None
      ∧ ∃ (c : Client) (topicName : string),
          this' = mkService (keyVaultClient this) (Some c) (Some topicName)
          ∧ topicName ≠ ""
          ∧ (JS.falsy (env "ORDER_EVENTS_TOPIC") = true → topicName = "order-events")
          ∧ client_connectionString c ≠ ""
          ∧ withCredential c = JS.includes (client_connectionString c) "ManagedIdentity"
          ∧ (∀ s, env "SERVICE_BUS_CONNECTION_STRING" = Some s → s ≠ "" →
               client_connectionString c = s)
          ∧ (JS.falsy (env "SERVICE_BUS_CONNECTION_STRING") = true →
             keyVaultClient this = false
             ∨ (∃ e, getSecret out "servicebus-connection-string" = inl e)
             ∨ (∃ v, getSecret out "servicebus-connection-string" = inr v
                     ∧ JS.falsy v = true) →
             withCredential c = true
             ∧ client_connectionString c
               = "Endpoint=sb://"
                 +:+ orElse (env "SERVICE_BUS_NAMESPACE")
                       "sb-ecommerce-dev.servicebus.windows.net"
                 +:+ "/;Authentication=ManagedIdentity")
  end.
Proof.
  unfold initialize. destruct (newServiceBusClient out) as [error|]; [done|].
  split; [done|]. eexists _, _. split; [done|].
  cbn [client_connectionString withCredential].
  split_and!; try done.
  - by apply orElse_nonempty.
  - intros Hfalsy. unfold orElse. by rewrite Hfalsy.
  - unfold connectionStringOf.
    destruct (JS.falsy (if _ && _ then _ else _)) eqn:Hcs; [done|].
    by apply falsy_false in Hcs as (s & -> & ?).
  - intros s Henv Hs. unfold connectionStringOf. rewrite Henv. cbn [JS.falsy].
    rewrite (bool_decide_eq_false_2 (s = "")) by done.
    rewrite andb_false_r. cbn [JS.falsy]. by rewrite (bool_decide_eq_false_2 (s = "")).
  - intros Hfalsy Hvault.
    assert (connectionStringOf env out this
            = "Endpoint=sb://"
              +:+ orElse (env "SERVICE_BUS_NAMESPACE") "sb-ecommerce-dev.servicebus.windows.net"
              +:+ "/;Authentication=ManagedIdentity") as ->.
    { unfold connectionStringOf.
      destruct (JS.falsy (env "SERVICE_BUS_CONNECTION_STRING")) eqn:Henv; [|done].
      rewrite andb_true_r.
      destruct Hvault as [-> | [[e ->] | (v & -> & Hv)]].
      - by rewrite Henv.
      - destruct (keyVaultClient this); by rewrite Henv.
      - destruct (keyVaultClient this); [by rewrite Hv|by rewrite Henv]. }
    split; [|done].
    pose proof (includes_app ("Endpoint=sb://" +:+ orElse (env "SERVICE_BUS_NAMESPACE")
                                "sb-ecommerce-dev.servicebus.windows.net"
                              +:+ "/;Authentication=") "ManagedIdentity" "") as Hincludes.
    by rewrite !append_assoc in Hincludes.
Qed.

(** X30. The payment message: when [publishPaymentProcessingEvent]
    returns, exactly one message went to PAYMENT_QUEUE
    ("payment-processing" by default), correlated by the order id, with a
    time to live of 30 minutes; its body carries the payment data, a
    source and a timestamp that the payment data cannot replace, and an
    orderId that the payment data does replace when it has one; and the
    queue sender was closed.  When it throws, either the client could not
    be created and nothing happened, or the queue sender is left open:
    after a failed send without a message, after a failed close with the
    message already sent. *)
Theorem payment_message
    (env : ProcessEnv) (out : Outside) (now : string) (dateNow : Z) (orderId : string)
    (paymentData : gmap string string) (this : Service) (queue : Queue) :
  match publishPaymentProcessingEvent env out now dateNow orderId paymentData this queue with
  | (inr _, this', queue') =>
      is_Some (client this')
      ∧ openSenders queue' = openSenders queue
      ∧ ∃ m : PaymentMessage,
          sent queue' = sent queue ++ [(orElse (env "PAYMENT_QUEUE") "payment-processing", m)]
          ∧ payment_correlationId m = orderId
          ∧ payment_timeToLive m = 1800000
          ∧ body m !! "source" = Some "order-service"
          ∧ body m !! "timestamp" = Some now
          ∧ body m !! "orderId" = Some (default orderId (paymentData !! "orderId"))
          ∧ (∀ key, key ≠ "source" → key ≠ "timestamp" → key ≠ "orderId" →
               body m !! key = paymentData !! key)
  | (inl error, this', queue') =>
      (client this = None ∧ newServiceBusClient out = Some error
       ∧ this' = this ∧ queue' = queue)
      ∨ (openSenders queue' = S (openSenders queue)
         ∧ ((sendMessages out = Some error ∧ sent queue' = sent queue)
            ∨ (sendMessages out = None ∧ senderClose out = Some error
               ∧ length (sent queue') = S (length (sent queue)))))
  end.
Proof.
  unfold publishPaymentProcessingEvent.
  assert (∃ r this', match client this with
                     | Some _ => (inr (), this)
                     | None => initialize env out this
                     end = (r, this')
                     ∧ match r with
                       | inl error => client this = None ∧ newServiceBusClient out = Some error
                                      ∧ this' = this
                       | inr _ => is_Some (client this')
                       end) as (r & this' & -> & Hinit).
  { destruct (client this) as [c|] eqn:Hclient.
    - exists (inr ()), this. split; [done|]. rewrite Hclient. by eexists.
    - unfold initialize. destruct (newServiceBusClient out) as [e|].
      + by exists (inl e), this.
      + eexists (inr ()), _. split; [done|]. by eexists. }
  destruct r as [error|[]]; [left; by destruct Hinit as (? & ? & ?)|].
  destruct Hinit as [c Hclient]. rewrite Hclient.
  destruct (sendMessages out) as [e|] eqn:Hsend; [right; split; [done|by left]|].
  destruct (senderClose out) as [e|] eqn:Hclose.
  { right. split; [done|]. right. cbn [sent]. rewrite length_app. cbn. split_and!; [done..|lia]. }
  split; [done|]. split; [done|]. eexists. split; [done|].
  cbn [payment_correlationId payment_timeToLive body].
  split_and!; try done.
  - by rewrite lookup_insert_eq.
  - rewrite lookup_insert_ne by done. by rewrite lookup_insert_eq.
  - rewrite !lookup_insert_ne by done. rewrite lookup_union.
    destruct (paymentData !! "orderId") as [v|]; by rewrite lookup_singleton_eq.
  - intros key Hsource Htimestamp Horder.
    rewrite !lookup_insert_ne by done. rewrite lookup_union, lookup_singleton_ne by done.
    by destruct (paymentData !! key).
Qed.

End ServiceBusConnectionProperties.

End Properties.

(** * The scenario, served *)

Import Scenario.

Lemma alice_nonAdmin : nonAdmin (Some alice).
Proof. intros u [= <-]. cbn. apply not_elem_of_nil. Qed.

Lemma root_hasAdminRole : hasAdminRole (Some root).
Proof. exists root. split; [done|]. cbn. left. Qed.

(** C4 at work: alice asks for bob's order to be marked delivered. *)
Lemma update_status_non_admin_forbidden_witness :
  nonAdmin (Some alice)
  ∧ serve mssql anyEmail
      (mkRequest env (Some alice) (PATCH_status o1 (mkStatusBody (Some "delivered")))) world
    = (mkResponse 403 (ErrorJson "Forbidden" "Admin access required"), world).
Proof.
  split; [exact alice_nonAdmin|].
  exact (update_status_non_admin_forbidden mssql anyEmail env (Some alice) o1
           (mkStatusBody (Some "delivered")) world alice_nonAdmin).
Defined.

(** C6 at work: alice reads bob's order, and an id nobody has. *)
Lemma get_order_of_other_customer_as_missing_witness :
  DatabaseService.getOrderById mssql o1 (dbService world) = inr (Some bobsOrder)
  ∧ DatabaseService.getOrderById mssql o404 (dbService world) = inr None
  ∧ fst (serve mssql anyEmail (mkRequest env (Some alice) (GET_order o1)) world)
    = fst (serve mssql anyEmail (mkRequest env (Some alice) (GET_order o404)) world)
  ∧ fst (serve mssql anyEmail (mkRequest env (Some alice) (GET_order o1)) world)
    = mkResponse 404 (ErrorJson "Not Found" "Order not found").
Proof.
  assert (DatabaseService.getOrderById mssql o1 (dbService world) = inr (Some bobsOrder)) as HB
    by reflexivity.
  assert (DatabaseService.getOrderById mssql o404 (dbService world) = inr None) as HN
    by reflexivity.
  assert (customerId bobsOrder ≠ callerId (Some alice)) as Hown by done.
  destruct (get_order_of_other_customer_as_missing mssql anyEmail env env (Some alice)
              o1 o404 bobsOrder world alice_nonAdmin HB Hown HN)
    as (Hsame & _ & _ & Hnotfound).
  split_and!; [exact HB|exact HN|exact Hsame|by apply Hnotfound].
Defined.

(** C2 as stated fails: bob's order is shipped, and the cancel operation
    called by alice, who is neither its owner nor an admin, is answered
    404, not the 400 domain error. *)
Lemma cancel_shipped_order_of_other_customer_is_404 :
  DatabaseService.getOrderById mssql o1 (dbService world) = inr (Some bobsOrder)
  ∧ status bobsOrder = shipped
  ∧ fst (serve mssql anyEmail (mkRequest env (Some alice) (PATCH_cancel o1)) world)
    = mkResponse 404 (ErrorJson "Not Found" "Order not found").
Proof. split_and!; reflexivity. Qed.

(** C2 as amended, at work: bob cancels his shipped order, alice her
    cancelled one. *)
Lemma cancel_refused_without_write_witness :
  notCancellable (status bobsOrder)
  ∧ serve mssql anyEmail (mkRequest env (Some bob) (PATCH_cancel o1)) world
    = (mkResponse 400 (ErrorJson "Bad Request" "Cannot cancel shipped or delivered orders"),
       mkWorld (dbService world) [GetOrderByIdCall o1] [])
  ∧ fst (serve mssql anyEmail (mkRequest env (Some alice) (PATCH_cancel o3)) world)
    = mkResponse 400 (ErrorJson "Bad Request" "Order is already cancelled").
Proof.
  assert (notCancellable (status bobsOrder)) as Hshipped by (right; by left).
  assert (notCancellable (status (mkOrder alicesSecond []))) as Hcancelled by by left.
  destruct (cancel_refused_without_write mssql anyEmail env (Some bob) o1 bobsOrder
              world eq_refl Hshipped) as (_ & _ & _ & _ & Hbob & _).
  destruct (cancel_refused_without_write mssql anyEmail env (Some alice) o3
              (mkOrder alicesSecond []) world eq_refl Hcancelled)
    as (_ & _ & _ & _ & Halice & _).
  split_and!; [exact Hshipped|reflexivity|].
  apply Halice; [done|by right].
Defined.

(** C8 at work: the administrator takes bob's shipped order back to
    pending. *)
Lemma admin_sets_any_status_witness :
  hasAdminRole (Some root)
  ∧ status bobsOrder = shipped
  ∧ ∃ o' : Order,
      fst (serve mssql anyEmail
             (mkRequest env (Some root) (PATCH_status o1 (mkStatusBody (Some "pending"))))
             world)
      = mkResponse 200 (OrderJson (Some o'))
      ∧ status o' = pending
      ∧ updatedAt o' = 5000
      ∧ orderItems o' = bobsItems.
Proof.
  split; [exact root_hasAdminRole|]. split; [reflexivity|].
  pose proof (admin_sets_any_status mssql anyEmail env (Some root) o1 pending world
                root_hasAdminRole) as Hset.
  change (DatabaseService.getOrderById mssql o1 (dbService world))
    with (@inr JsError _ (Some bobsOrder)) in Hset.
  cbv zeta iota beta in Hset.
  destruct Hset as (o' & Hresp & Hstatus & Htime & _ & Hitems & _).
  exists o'. by split_and!.
Defined.



(** A string is none of the strings of an explicit list. *)
Ltac not_in_list :=
  repeat (apply not_elem_of_cons; split; [discriminate|]); apply not_elem_of_nil.

Lemma describedOnly_described : describedBody describedOnly.
Proof.
  unfold describedBody, describedOnly, present. cbn.
  split_and!; [by eexists|by eexists|by left|].
  eexists. split; [done|]. split; [done|].
  repeat constructor; unfold present; cbn; by eexists.
Qed.

(** C7 as stated fails: the body of the interface description, without
    customerId and customerEmail, does not pass validation; the answer is
    400 and nothing is created. *)
Lemma create_order_without_customer_is_400 :
  describedBody describedOnly
  ∧ body_customerId describedOnly = None
  ∧ body_customerEmail describedOnly = None
  ∧ serve mssql anyEmail (mkRequest env (Some alice) (POST_orders describedOnly)) world
    = (mkResponse 400
         (ErrorJson "Validation Error" (JS.label "customerId" +:+ " is required")), world).
Proof. split; [exact describedOnly_described|]. split_and!; reflexivity. Qed.

Lemma namingCustomer_named : namesCustomer anyEmail namingCustomer.
Proof. unfold namesCustomer, present. cbn. split; by eexists. Qed.

Lemma world_takes_order (value : CreateOrderValue) :
  createOrderSchema anyEmail namingCustomer = inr value →
  storeTakes mssql (clock env) (orderData env (Some alice) value) (dbService world).
Proof.
  intros Hvalue. vm_compute in Hvalue. injection Hvalue as <-.
  unfold storeTakes, acceptedItem.
  split_and!.
  - reflexivity.
  - reflexivity.
  - vm_compute. not_in_list.
  - vm_compute. reflexivity.
  - repeat constructor; unfold sameText; vm_compute; discriminate.
  - vm_compute. lia.
  - vm_compute. lia.
  - vm_compute. lia.
  - vm_compute. lia.
  - vm_compute. by eexists.
  - repeat constructor; vm_compute; first [by eexists|lia].
  - vm_compute. repeat (apply NoDup_cons; split; [not_in_list|]). apply NoDup_nil_2.
  - vm_compute. repeat (constructor; [not_in_list|]). constructor.
Qed.

(** C7 as amended, at work: the body names mallory, alice sends it, and
    the order is created for alice. *)
Lemma create_order_from_described_body_witness :
  describedBody namingCustomer
  ∧ namesCustomer anyEmail namingCustomer
  ∧ ∃ o : Order,
      fst (serve mssql anyEmail (mkRequest env (Some alice) (POST_orders namingCustomer))
             world)
      = mkResponse 201 (OrderJson (Some o))
      ∧ customerId o = "alice"
      ∧ customerEmail o = "alice@example.com".
Proof.
  assert (user_id alice ≠ "") as Hid by done.
  assert (email alice ≠ "") as Hmail by done.
  split; [exact describedOnly_described|]. split; [exact namingCustomer_named|].
  destruct (create_order_from_described_body mssql anyEmail env alice namingCustomer
              world describedOnly_described namingCustomer_named Hid Hmail)
    as (value & Hvalue & Hcreated & _).
  destruct (Hcreated (world_takes_order value Hvalue)) as (o & Hresp & Hc & He & _).
  exists o. by split_and!.
Defined.




(** C3 at work: the broker is down while alice creates an order; the
    answer is still 201 with the created order, and the topic received
    nothing. *)
Lemma publish_failure_is_swallowed_witness :
  fst (serve mssql anyEmail
         (mkRequest (withBroker (Some brokerDown) env) (Some alice)
            (POST_orders namingCustomer)) world)
  = mkResponse 201 (OrderJson (Some created))
  ∧ topic (snd (serve mssql anyEmail
                  (mkRequest (withBroker (Some brokerDown) env) (Some alice)
                     (POST_orders namingCustomer)) world)) = []
  ∧ length (topic (snd (serve mssql anyEmail
                          (mkRequest (withBroker None env) (Some alice)
                             (POST_orders namingCustomer)) world))) = 1%nat.
Proof.
  destruct (publish_failure_is_swallowed mssql anyEmail env brokerDown (Some alice)
              (POST_orders namingCustomer) world) as (_ & _ & _ & Htopic & Hcreated).
  destruct (Hcreated namingCustomer
              (orderData env (Some alice)
                 (mkCreateOrderValue "mallory" "mallory@example.com" "2 High St" "2 High St"
                    "USD" [line 2 10; line 1 5]))
              (Some created)
              (snd (DatabaseService.createOrder mssql (clock env)
                      (orderData env (Some alice)
                         (mkCreateOrderValue "mallory" "mallory@example.com" "2 High St"
                            "2 High St" "USD" [line 2 10; line 1 5]))
                      (dbService world)))
              eq_refl eq_refl eq_refl) as [Hresp _].
  split_and!; [exact Hresp|exact Htopic|reflexivity].
Defined.

(** C9 at work: alice's order is created; a second request that generates
    the same order number is refused by the store and answered 409, and
    the store still holds one order under that number. *)
Lemma order_numbers_stay_distinct_witness :
  let w1 := snd (serve mssql anyEmail
                   (mkRequest env (Some alice) (POST_orders namingCustomer)) world) in
  let r2 := serve mssql anyEmail
              (mkRequest sameNumber (Some bob) (POST_orders namingCustomer)) w1 in
  fst r2 = mkResponse 409 (ErrorJson "Conflict" "Resource already exists")
  ∧ dbService (snd r2) = dbService w1
  ∧ distinctOrderNumbers
      (dbService (afterRequests mssql anyEmail
                    [mkRequest env (Some alice) (POST_orders namingCustomer);
                     mkRequest sameNumber (Some bob) (POST_orders namingCustomer)])).
Proof.
  destruct (order_numbers_stay_distinct mssql anyEmail) as (_ & Hreqs & _).
  split_and!; [reflexivity|reflexivity|apply Hreqs].
Defined.

(** ** The scenarios of the specification *)

(** Items [{qty: 2, price: 10.00}, {qty: 1, price: 5.00}] give total 25
    and status pending. *)
Example scenario_total_25_pending :
  fst (serve mssql anyEmail (mkRequest env (Some alice) (POST_orders namingCustomer))
         world)
  = mkResponse 201 (OrderJson (Some created))
  ∧ totalAmount created = 25%float
  ∧ status created = pending.
Proof. split_and!; reflexivity. Qed.

(** Create, then cancel: the order is cancelled; a second cancel is
    answered 400, already cancelled. *)
Example scenario_create_cancel_cancel :
  let r1 := serve mssql anyEmail (mkRequest env (Some alice) (PATCH_cancel (rowId 0)))
              afterCreate in
  let r2 := serve mssql anyEmail (mkRequest env (Some alice) (PATCH_cancel (rowId 0)))
              (snd r1) in
  httpStatus (fst r1) = 200
  ∧ (status <$> Orders (dbService (snd r1))) !! 3%nat = Some cancelled
  ∧ fst r2 = mkResponse 400 (ErrorJson "Bad Request" "Order is already cancelled").
Proof. split_and!; reflexivity. Qed.

(** The administrator sets pending to shipped, then the customer's cancel
    is answered 400. *)
Example scenario_shipped_then_cancel :
  let r1 := serve mssql anyEmail
              (mkRequest env (Some root) (PATCH_status (rowId 0) (mkStatusBody (Some "shipped"))))
              afterCreate in
  let r2 := serve mssql anyEmail (mkRequest env (Some alice) (PATCH_cancel (rowId 0)))
              (snd r1) in
  httpStatus (fst r1) = 200
  ∧ fst r2 = mkResponse 400 (ErrorJson "Bad Request" "Cannot cancel shipped or delivered orders")
  ∧ (status <$> Orders (dbService (snd r2))) !! 3%nat = Some shipped.
Proof. split_and!; reflexivity. Qed.

(** totalCount = 25 and pageSize = 10 give totalPages = 3. *)
Example scenario_total_pages : JS.ceilDiv 25 10 = 3.
Proof. reflexivity. Qed.

(** X1 at work: after alice's order is created in an empty store, its
    first item row refers to the order row. *)
Lemma item_rows_refer_to_orders_witness :
  ∃ o : OrderRow,
    o ∈ Orders (dbService
                  (afterRequests mssql anyEmail
                     [mkRequest env (Some alice) (POST_orders namingCustomer)]))
    ∧ id o = (rowId 0).
Proof.
  apply (item_rows_refer_to_orders mssql anyEmail
           [mkRequest env (Some alice) (POST_orders namingCustomer)]
           (mkOrderItem (rowId 1) (rowId 0) "p1" "Widget" 2 10 20)).
  vm_compute. left.
Defined.

(** ** The further properties, at work *)


(** X6 at work: alice cancels the same order again, and so does the
    administrator. *)
Lemma cancel_again_is_refused_witness :
  httpStatus
    (fst (serve mssql anyEmail (mkRequest env (Some alice) (PATCH_cancel o2)) world))
  = 200
  ∧ fst (serve mssql anyEmail (mkRequest sameNumber (Some alice) (PATCH_cancel o2))
           afterCancel)
    = mkResponse 400 (ErrorJson "Bad Request" "Order is already cancelled")
  ∧ fst (serve mssql anyEmail (mkRequest sameNumber (Some root) (PATCH_cancel o2))
           afterCancel)
    = mkResponse 400 (ErrorJson "Bad Request" "Order is already cancelled").
Proof.
  assert (httpStatus
            (fst (serve mssql anyEmail
                    (mkRequest env (Some alice) (PATCH_cancel o2)) world)) = 200)
    as Hok by reflexivity.
  split; [exact Hok|]. split.
  - apply (cancel_again_is_refused mssql anyEmail env sameNumber (Some alice) (Some alice)
             o2 world Hok). by left.
  - apply (cancel_again_is_refused mssql anyEmail env sameNumber (Some alice) (Some root)
             o2 world Hok). right. by split.
Defined.

(** X7 at work: alice reads the order she created. *)
Lemma created_order_is_read_back_witness :
  httpStatus
    (fst (serve mssql anyEmail (mkRequest env (Some alice) (POST_orders namingCustomer))
            world))
  = 201
  ∧ ∃ o : Order,
      customerId o = "alice"
      ∧ fst (serve mssql anyEmail (mkRequest sameNumber (Some alice) (GET_order (id o)))
               afterCreate)
        = mkResponse 200 (OrderJson (Some o)).
Proof.
  assert (httpStatus
            (fst (serve mssql anyEmail
                    (mkRequest env (Some alice) (POST_orders namingCustomer)) world)) = 201)
    as Hcreated by reflexivity.
  split; [exact Hcreated|].
  destruct (created_order_is_read_back mssql anyEmail env sameNumber (Some alice)
              namingCustomer world Hcreated) as (o & _ & Hcust & _ & _ & Hget).
  exists o. split; [exact Hcust|]. unfold afterCreate. by rewrite Hget.
Defined.

(** X8 at work: alice had two orders and has three. *)
Lemma created_order_is_listed_witness :
  httpStatus
    (fst (serve mssql anyEmail (mkRequest env (Some alice) (POST_orders namingCustomer))
            world))
  = 201
  ∧ length (ordersOf mssql "alice" (dbService world)) = 2%nat
  ∧ length (ordersOf mssql "alice" (dbService afterCreate)) = 3%nat
  ∧ ordersOf mssql "bob" (dbService afterCreate) = ordersOf mssql "bob" (dbService world)
  ∧ ∃ after : list Order,
      fst (serve mssql anyEmail
             (mkRequest sameNumber (Some alice) (GET_orders (mkQuery None None)))
             afterCreate)
      = mkResponse 200 (OrdersJson after 1 10 (2 + 1) (JS.ceilDiv (2 + 1) 10)).
Proof.
  assert (httpStatus
            (fst (serve mssql anyEmail
                    (mkRequest env (Some alice) (POST_orders namingCustomer)) world)) = 201)
    as Hcreated by reflexivity.
  split; [exact Hcreated|]. split; [reflexivity|].
  destruct (created_order_is_listed mssql anyEmail env (Some alice) namingCustomer world
              Hcreated) as (o & _ & Hmine & Hothers & Hcount).
  split_and!.
  - unfold afterCreate. change (callerId (Some alice)) with "alice" in Hmine.
    rewrite Hmine, length_app. reflexivity.
  - unfold afterCreate. apply Hothers. unfold sameText. vm_compute. discriminate.
  - exists [created; mkOrder alicesSecond []; mkOrder alicesFirst []].
    assert (fst (serve mssql anyEmail
                   (mkRequest env (Some alice) (GET_orders (mkQuery None None))) world)
            = mkResponse 200
                (OrdersJson [mkOrder alicesSecond []; mkOrder alicesFirst []] 1 10 2 1))
      as Hbefore by (vm_compute; reflexivity).
    assert (fst (serve mssql anyEmail
                   (mkRequest sameNumber (Some alice) (GET_orders (mkQuery None None)))
                   (snd (serve mssql anyEmail
                           (mkRequest env (Some alice) (POST_orders namingCustomer))
                           world)))
            = mkResponse 200
                (OrdersJson [created; mkOrder alicesSecond []; mkOrder alicesFirst []]
                   1 10 3 1))
      as Hafter by (vm_compute; reflexivity).
    destruct (Hcount _ _ _ _ _ _ _ _ _ _ _ _ _ _ Hbefore Hafter) as [Hn Hpages].
    unfold afterCreate. rewrite Hafter. f_equal.
Defined.

(** X9 at work: alice's two orders in pages of one. *)
Lemma pages_partition_orders_witness :
  NoDup (createdAt <$> ordersOf mssql "alice" (dbService world))
  ∧ DatabaseService.getOrdersByCustomer mssql (clock env) "alice" (JS.ofZ 1) (JS.ofZ 1)
      (dbService world)
    = inr ([mkOrder alicesSecond []], 2)
  ∧ DatabaseService.getOrdersByCustomer mssql (clock env) "alice" (JS.ofZ 2) (JS.ofZ 1)
      (dbService world)
    = inr ([mkOrder alicesFirst []], 2)
  ∧ DatabaseService.getOrdersByCustomer mssql (clock env) "alice" (JS.ofZ 3) (JS.ofZ 1)
      (dbService world)
    = inr ([], 2)
  ∧ ∃ mine : list OrderRow,
      newestFirst mine
      ∧ mine ≡ₚ ordersOf mssql "alice" (dbService world)
      ∧ mine = [alicesSecond; alicesFirst].
Proof.
  assert (NoDup (createdAt <$> ordersOf mssql "alice" (dbService world))) as Htimes.
  { vm_compute. repeat (apply NoDup_cons; split; [not_in_list|]). apply NoDup_nil_2. }
  split; [exact Htimes|]. split_and!; [vm_compute; reflexivity..|].
  destruct (pages_partition_orders mssql "alice" (dbService world) (JS.ofZ 1) 1 3
              (λ k, JS.ofZ (Z.of_nat k + 1)) (λ _, clock env)
              (λ k, match k with
                    | 0%nat => [mkOrder alicesSecond []]
                    | 1%nat => [mkOrder alicesFirst []]
                    | _ => []
                    end)
              (λ _, 2) Htimes)
    as (mine & Hperm & Hsorted & _ & _ & Hall).
  - eexists. split; vm_compute; reflexivity.
  - intros k Hk. destruct k as [|[|[|k]]]; [..|lia].
    all: split; [eexists; split; vm_compute; reflexivity|vm_compute; reflexivity].
  - exists mine. split_and!; [done..|].
    rewrite <- Hall; [reflexivity|]. rewrite Hperm. vm_compute. lia.
Defined.

(** X13 at work: a request without a user reads nothing. *)
Lemma no_customer_id_no_store_access_witness :
  callerId None = ""
  ∧ serve mssql anyEmail (mkRequest env None (GET_order o1)) world
    = (mkResponse 400 (ErrorJson "Bad Request" "Customer ID not found in token"), world).
Proof.
  assert (callerId None = "") as Hid by reflexivity.
  assert (∀ wanted body, GET_order o1 ≠ PATCH_status wanted body) as Hroute by done.
  destruct (no_customer_id_no_store_access mssql anyEmail env None (GET_order o1)
              world Hid Hroute) as (_ & Hworld & Hanswer).
  split; [exact Hid|].
  rewrite (surjective_pairing (serve _ _ _ _)), Hworld, (Hanswer o1); [done|by left].
Defined.

(** X14 at work: alice lists her orders while the store is not
    connected. *)
Lemma disconnected_store_answers_500_witness :
  pool (dbService offline) = false
  ∧ fst (serve mssql anyEmail
           (mkRequest env (Some alice) (GET_orders (mkQuery None None))) offline)
    = mkResponse 500 (ErrorJson "Internal Server Error" "Database pool not initialized").
Proof.
  assert (pool (dbService offline) = false) as Hpool by reflexivity.
  split; [exact Hpool|].
  destruct (disconnected_store_answers_500 mssql anyEmail
              (mkRequest env (Some alice) (GET_orders (mkQuery None None))) offline Hpool)
    as (_ & _ & [[Hsame _] | [_ Hanswer]]).
  - apply (f_equal storeCalls) in Hsame. discriminate Hsame.
  - exact Hanswer.
Defined.

Import Config Auth Server.

(** X17 at work: a request without a header. *)
Lemma api_orders_requires_bearer_token_witness :
  apiOrders mssql anyEmail verifier (config processEnv) anonymousRequest service
  = (mkResponse 401 (ErrorJson "Unauthorized" "Bearer token required"), service).
Proof.
  apply (api_orders_requires_bearer_token mssql anyEmail verifier (config processEnv)
           anonymousRequest service).
  intros token _. discriminate.
Defined.

(** X18 at work: alice reads her order with her token. *)
Lemma api_orders_serves_verified_user_witness :
  fst (apiOrders mssql anyEmail verifier (config processEnv) alicesRequest service)
  = mkResponse 200 (OrderJson (Some (mkOrder alicesFirst [])))
  ∧ cachedSecret
      (authService
         (snd (apiOrders mssql anyEmail verifier (config processEnv) alicesRequest
                 service)))
    = Some "s3cret".
Proof.
  assert ("alice.jwt" ≠ "") as Htoken by done.
  rewrite (api_orders_serves_verified_user mssql anyEmail verifier (config processEnv)
             alicesRequest service "alice.jwt" "s3cret"
             (mkJwtPayload "alice" "alice@example.com" None)
             (mkAuthService (Some "s3cret") false) eq_refl Htoken eq_refl eq_refl).
  split; reflexivity.
Defined.

(** X22 at work: without a secret, alice's token is refused. *)
Lemma no_jwt_secret_refuses_every_request_witness :
  JS.falsy (bareEnv "JWT_SECRET") = true
  ∧ JS.falsy (bareEnv "KEY_VAULT_URL") = true
  ∧ apiOrders mssql anyEmail verifier (config bareEnv) alicesRequest
      (mkService (newAuthService (config bareEnv)) world)
    = (mkResponse 401 (ErrorJson "Unauthorized" "Invalid or expired token"),
       mkService (newAuthService (config bareEnv)) world).
Proof.
  assert (JS.falsy (bareEnv "JWT_SECRET") = true) as Hsecret by reflexivity.
  assert (JS.falsy (bareEnv "KEY_VAULT_URL") = true) as Hvault by reflexivity.
  destruct (no_jwt_secret_refuses_every_request mssql anyEmail verifier bareEnv
              alicesRequest world Hsecret Hvault) as (Hservice & msg & Hanswer).
  split; [exact Hsecret|]. split; [exact Hvault|]. reflexivity.
Defined.

(** X23 at work: a conflict and an unavailable service. *)
Lemma error_classes_answered_by_status_code_witness :
  JS.includes "Order exists" "UNIQUE KEY constraint" = false
  ∧ JS.includes "Order exists" "Azure" = false
  ∧ errorHandler true (newConflictError "Order exists")
    = mkResponse 409 (ErrorJson "Client Error" "Order exists")
  ∧ errorHandler true (newServiceUnavailableError "Order exists")
    = mkResponse 500 (ErrorJson "Internal Server Error" "An unexpected error occurred").
Proof.
  assert (JS.includes "Order exists" "UNIQUE KEY constraint" = false) as Hunique
    by reflexivity.
  assert (JS.includes "Order exists" "Azure" = false) as Hazure by reflexivity.
  destruct (error_classes_answered_by_status_code true "Order exists" Hunique Hazure)
    as (_ & _ & Hconflict & _ & _ & Hunavailable & _).
  by split_and!.
Defined.

(** X25 at work: the password of the environment. *)
Lemma initialize_connects_with_credentials_witness :
  Connection.initialize processEnv sqlUp (Connection.newDatabaseService processEnv)
  = (inr (),
     Connection.mkService false
       (Some (Connection.connectionConfigOf
                (Connection.Login "sql-ecommerce-dev.database.windows.net" "orders"
                   "ecommerceadmin" "pa55word")))
       (Some true))
  ∧ Connection.ready sqlUp
      (snd (Connection.initialize processEnv sqlUp (Connection.newDatabaseService processEnv)))
    = (200, "ready").
Proof.
  split; [reflexivity|].
  destruct (initialize_connects_with_credentials processEnv sqlUp
              (Connection.newDatabaseService processEnv) _ eq_refl) as (c & _ & _ & Hready).
  by apply Hready.
Defined.

(** X26 at work: no password anywhere. *)
Lemma initialize_failures_witness :
  Connection.initialize bareEnv sqlUp (Connection.newDatabaseService bareEnv)
  = (inl (newError "SQL password not provided"), Connection.newDatabaseService bareEnv)
  ∧ JS.falsy (Connection.connectionStringOf bareEnv sqlUp
                (Connection.newDatabaseService bareEnv)) = true.
Proof.
  split; [reflexivity|].
  destruct (initialize_failures bareEnv sqlUp (Connection.newDatabaseService bareEnv) _ _
              eq_refl)
    as [(_ & Hcs & _) | [(Hpool & _) | [(_ & Hconnect & _) | (_ & _ & Hschema & _)]]].
  - exact Hcs.
  - discriminate Hpool.
  - discriminate Hconnect.
  - discriminate Hschema.
Defined.

(** X27 at work: Key Vault is down; the password of the environment is
    enough, and without it the service does not start. *)
Lemma key_vault_failure_is_fatal_for_the_password_only_witness :
  fst (Connection.initialize processEnv sqlUp (Connection.mkService true None None))
  = inr ()
  ∧ fst (Connection.initialize bareEnv sqlUp (Connection.mkService true None None))
    = inl (newError "SQL password not available").
Proof.
  assert (∀ secretName, ∃ e, Connection.getSecret sqlUp secretName = inl e) as Hvault
    by (intros secretName; by exists vaultDown).
  pose proof (key_vault_failure_is_fatal_for_the_password_only bareEnv sqlUp
                (Connection.mkService true None None) eq_refl Hvault eq_refl eq_refl eq_refl)
    as Hbare.
  split; [reflexivity|].
  destruct (fst (Connection.initialize bareEnv sqlUp (Connection.mkService true None None)))
    as [e|[]] eqn:Hinit.
  - destruct Hbare as (-> & _). reflexivity.
  - destruct Hbare as [Hcs | Hpw]; discriminate.
Defined.
